(** * Tongue-region detection of tongue-drum-chum: a shallow embedding

    The development follows the application class [TongueDrumApp]
    (the main application file), the detector class
    [OpenCVTongueDetector] and the drum configuration
    [DrumConfigManager].  Pixel coordinates, sizes and counts are
    integers ([Z]).  Other numbers are rationals ([Q]): a double is a
    rational, and where the code adds, multiplies or divides numbers
    that are not integers the result is rounded to double precision by
    [fl]; comparisons against the decimal thresholds of the classifier
    are exact.  The places where the code can divide by zero go through
    [jsnum], which has the values [Infinity] and [NaN] written out.
    Arrays are finite maps from indices to values ([Zmap]): a
    JavaScript array is an object keyed by its indices, reading a
    missing index gives [undefined], and a typed array ignores writes
    outside its length. *)

From Stdlib Require Import ZArith QArith Qround Qminmax Lia Lqa.
From Stdlib Require Import Sorting.Sorted.
From stdpp Require Import base option list sorting zmap fin_maps strings.
From Equations Require Import Equations.

Open Scope Z_scope.

(* ================================================================= *)
(** ** JavaScript values *)

(** Outcome of a call that may throw. *)
Inductive exn :=
  | RangeError                (* [new Array(n)] with an invalid length *)
  | TypeError                 (* a property read on [undefined] *)
  | ExternalError (msg : string).  (* thrown by a collaborator *)

Inductive result (A : Type) :=
  | Ok (a : A)
  | Throw (e : exn).
Arguments Ok {A} a.
Arguments Throw {A} e.

(** A number that may have left the rationals. *)
Inductive jsnum :=
  | Num (q : Q)
  | PosInf
  | NegInf
  | NaN.

Definition Qltb (a b : Q) : bool := negb (Qle_bool b a).

(** [a / b] on numbers: division by zero gives an infinity, [0 / 0]
    gives [NaN]. *)
Definition jsdiv (a b : Q) : jsnum :=
  if Qeq_bool b 0 then
    match (a ?= 0)%Q with
    | Eq => NaN
    | Gt => PosInf
    | Lt => NegInf
    end
  else Num (a / b).

(** Comparisons against a finite constant; every comparison with [NaN]
    is false. *)
Definition js_lt (a : jsnum) (c : Q) : bool :=
  match a with Num q => Qltb q c | NegInf => true | PosInf | NaN => false end.
Definition js_gt (a : jsnum) (c : Q) : bool :=
  match a with Num q => Qltb c q | PosInf => true | NegInf | NaN => false end.
Definition js_le (a : jsnum) (c : Q) : bool :=
  match a with Num q => Qle_bool q c | NegInf => true | PosInf | NaN => false end.
Definition js_ge (a : jsnum) (c : Q) : bool :=
  match a with Num q => Qle_bool c q | PosInf => true | NegInf | NaN => false end.

(** The integers [a, a+1, ..., b-1]: the values a counting [for] loop
    gives its variable. *)
Fixpoint iota (start : Z) (n : nat) : list Z :=
  match n with
  | O => []
  | S n => start :: iota (start + 1) n
  end.
Definition range (a b : Z) : list Z := iota a (Z.to_nat (b - a)).

(** [ToIntegerOrInfinity] on a finite number: truncation towards zero. *)
Definition Qtrunc (q : Q) : Z :=
  if Qle_bool 0 q then Qfloor q else Qceiling q.

(** [l.slice(0, e)]: a negative end counts from the end of the array. *)
Definition js_slice0 {A} (l : list A) (e : Z) : list A :=
  let len := Z.of_nat (length l) in
  let final := if e <? 0 then Z.max (len + e) 0 else Z.min e len in
  take (Z.to_nat final) l.

(** [l.sort((a, b) => conf b - conf a)].  [Array.prototype.sort] is
    stable and the comparator is a total preorder on finite numbers, so
    the result is the one stable arrangement in descending order; the
    insertion sort below computes it. *)
Fixpoint insert_desc {A} (conf : A -> Q) (x : A) (l : list A) : list A :=
  match l with
  | [] => [x]
  | y :: ys =>
      if Qle_bool (conf y) (conf x) then x :: y :: ys
      else y :: insert_desc conf x ys
  end.
Definition sort_desc {A} (conf : A -> Q) (l : list A) : list A :=
  foldr (insert_desc conf) [] l.

(* ================================================================= *)
(** ** Geometry *)

Record Point := mkPoint { px : Z; py : Z }.

Global Instance Point_eq_dec : EqDecision Point.
Proof. solve_decision. Defined.

Record BBox := mkBBox { bx : Z; by_ : Z; bwidth : Z; bheight : Z }.

(** [getBoundingBox].  The four accumulators start at [Infinity] and
    [-Infinity]; [None] stands for that initial state, so the result is
    [None] exactly when the loop never ran, where the code returns the
    box [{x: Infinity, y: Infinity, width: -Infinity, height: -Infinity}]. *)
Definition getBoundingBox (contour : list Point) : option BBox :=
  let acc :=
    foldl (fun acc point =>
             match acc with
             | None => Some (px point, py point, px point, py point)
             | Some (minX, minY, maxX, maxY) =>
                 Some (Z.min minX (px point), Z.min minY (py point),
                       Z.max maxX (px point), Z.max maxY (py point))
             end) None contour in
  match acc with
  | None => None
  | Some (minX, minY, maxX, maxY) =>
      Some {| bx := minX; by_ := minY;
              bwidth := maxX - minX; bheight := maxY - minY |}
  end.

(* ================================================================= *)
(** ** Overlap of two boxes *)

Record Overlap := mkOverlap { ov_area : Z; ov_percentage : jsnum }.

(** [calculateDetailedOverlap]. *)
Definition calculateDetailedOverlap (bbox1 bbox2 : BBox) : Overlap :=
  let x1 := Z.max (bx bbox1) (bx bbox2) in
  let y1 := Z.max (by_ bbox1) (by_ bbox2) in
  let x2 := Z.min (bx bbox1 + bwidth bbox1) (bx bbox2 + bwidth bbox2) in
  let y2 := Z.min (by_ bbox1 + bheight bbox1) (by_ bbox2 + bheight bbox2) in
  if (x2 <=? x1) || (y2 <=? y1) then
    {| ov_area := 0; ov_percentage := Num 0 |}
  else
    let overlapArea := (x2 - x1) * (y2 - y1) in
    let area1 := bwidth bbox1 * bheight bbox1 in
    let area2 := bwidth bbox2 * bheight bbox2 in
    let minArea := Z.min area1 area2 in
    {| ov_area := overlapArea;
       ov_percentage := jsdiv (inject_Z overlapArea) (inject_Z minArea) |}.

(** [isOverlapping]: more than 30% of the smaller box. *)
Definition overlapThreshold : Q := 0.3.
Definition isOverlapping (bbox1 bbox2 : BBox) : bool :=
  js_gt (ov_percentage (calculateDetailedOverlap bbox1 bbox2)) overlapThreshold.

(* ================================================================= *)
(** ** Shape classifier and candidate resolver *)

Record Tongue := mkTongue {
  contour : list Point;
  bbox : BBox;
  area : Z;
  aspectRatio : jsnum;
  centerX : Q;
  centerY : Q;
  confidence : Q
}.

(** [calculateTongueConfidence] of the application class. *)
Definition calculateTongueConfidence (bbox : BBox) (area : Z) (aspectRatio : jsnum) : Q :=
  let confidence := 0.5%Q in
  let confidence :=
    if js_ge aspectRatio 2 && js_le aspectRatio 4
    then (confidence + 0.3)%Q else confidence in
  let confidence :=
    if (1000 <? area) && (area <? 50000)
    then (confidence + 0.2)%Q else confidence in
  Qmin 1 confidence.

(** One turn of the loop of [filterTongueShapes] over the contours:
    [None] when the contour is rejected, the new entry of [tongueShapes]
    otherwise.  For the empty contour the box is infinite, [area] is
    [Infinity] and the second test rejects it. *)
Definition classifyContour (imageWidth imageHeight : Z) (contour : list Point) : option Tongue :=
  let minArea := (inject_Z (imageWidth * imageHeight) * 0.00014)%Q in
  let maxArea := (inject_Z (imageWidth * imageHeight) * 0.25)%Q in
  let minAspectRatio := 0.75%Q in
  let maxAspectRatio := 8%Q in
  let minWidth := (inject_Z imageWidth * 0.01)%Q in
  let minHeight := (inject_Z imageHeight * 0.01)%Q in
  match getBoundingBox contour with
  | None => None
  | Some bbox =>
      let area := bwidth bbox * bheight bbox in
      let aspectRatio := jsdiv (inject_Z (bwidth bbox)) (inject_Z (bheight bbox)) in
      if Qltb (inject_Z area) minArea then None
      else if Qltb maxArea (inject_Z area) then None
      else if js_lt aspectRatio minAspectRatio then None
      else if js_gt aspectRatio maxAspectRatio then None
      else if Qltb (inject_Z (bwidth bbox)) minWidth then None
      else if Qltb (inject_Z (bheight bbox)) minHeight then None
      else
        Some {| contour := contour;
                bbox := bbox;
                area := area;
                aspectRatio := aspectRatio;
                centerX := (inject_Z (bx bbox) + inject_Z (bwidth bbox) / 2)%Q;
                centerY := (inject_Z (by_ bbox) + inject_Z (bheight bbox) / 2)%Q;
                confidence := calculateTongueConfidence bbox area aspectRatio |}
  end.

(** The loop itself: accepted contours are pushed in order. *)
Definition classifyContours (imageWidth imageHeight : Z) (contours : list (list Point)) : list Tongue :=
  foldl (fun tongueShapes contour =>
           match classifyContour imageWidth imageHeight contour with
           | Some tongue => tongueShapes ++ [tongue]
           | None => tongueShapes
           end) [] contours.

(** [removeOverlappingTongues]: the inner loop stops at the first kept
    tongue that overlaps, so its flag is an [existsb]. *)
Definition removeOverlappingTongues (tongues : list Tongue) : list Tongue :=
  foldl (fun filtered tongue =>
           if existsb (fun existing => isOverlapping (bbox tongue) (bbox existing)) filtered
           then filtered
           else filtered ++ [tongue]) [] tongues.

Definition maxCandidates (expectedCount : Z) : Q :=
  Qmax (inject_Z expectedCount * 1.5) (inject_Z expectedCount + 5).

(** [filterTongueShapes]. *)
Definition filterTongueShapes (contours : list (list Point))
    (imageWidth imageHeight expectedCount : Z) : list Tongue :=
  let tongueShapes := classifyContours imageWidth imageHeight contours in
  let tongueShapes := sort_desc confidence tongueShapes in
  let filteredTongues := removeOverlappingTongues tongueShapes in
  js_slice0 filteredTongues (Qtrunc (maxCandidates expectedCount)).

(* ================================================================= *)
(** ** Arrays *)

(** A [Uint8ClampedArray]: a fixed length and one byte per index,
    zero unless written.  Reading outside the length gives [undefined]
    ([None]); writing outside the length does nothing. *)
Record TypedArray := mkTA { ta_length : Z; ta_cells : Zmap Z }.

Definition ta_new (n : Z) : TypedArray := {| ta_length := n; ta_cells := ∅ |}.

Definition ta_get (a : TypedArray) (i : Z) : option Z :=
  if (0 <=? i) && (i <? ta_length a)
  then Some (default 0 (ta_cells a !! i))
  else None.

Definition ta_set (a : TypedArray) (i : Z) (v : Z) : TypedArray :=
  if (0 <=? i) && (i <? ta_length a)
  then {| ta_length := ta_length a; ta_cells := <[i := v]> (ta_cells a) |}
  else a.

Definition ta_of_list (l : list Z) : TypedArray :=
  {| ta_length := Z.of_nat (length l);
     ta_cells := list_to_map (zip (iota 0 (length l)) l) |}.

(** Rounding of a stored value: to the nearest integer, ties to the
    even one, then into [0, 255]; [NaN] is stored as 0. *)
Definition roundHalfEven (q : Q) : Z :=
  let f := Qfloor q in
  match (q - inject_Z f ?= 0.5)%Q with
  | Lt => f
  | Gt => f + 1
  | Eq => if Z.even f then f else f + 1
  end.

Definition toUint8Clamp (v : jsnum) : Z :=
  match v with
  | Num q => Z.max 0 (Z.min 255 (roundHalfEven q))
  | PosInf => 255
  | NegInf | NaN => 0
  end.

(** [new Array(n).fill(v)]: the length must be an integer in
    [0, 2^32 - 1], otherwise the constructor throws. *)
Definition valid_array_length (n : Z) : bool := (0 <=? n) && (n <? 2 ^ 32).

Definition array_fill {A} (n : Z) (v : A) : Zmap A :=
  list_to_map ((fun i => (i, v)) <$> range 0 n).

(** Truthiness of [visited[index]]: a missing entry is [undefined]. *)
Definition truthy (visited : Zmap bool) (index : Z) : bool :=
  match visited !! index with
  | Some b => b
  | None => false
  end.

(* ================================================================= *)
(** ** Double precision *)

(** A finite JavaScript number is an IEEE 754 binary64 value: a
    rational [m * 2^e] with [|m| < 2^53] and [e >= -1074].  [fl q] is
    the one nearest to the rational [q], ties to the even [m]; it is
    the value of the decimal literal [q] and, applied to the exact
    result, of a sum, difference, product or quotient of two numbers.
    The numbers of this program stay far below [2^1024], where a result
    would become [Infinity]. *)

(** [floor (log2 (n / d))] for positive [n] and [d]. *)
Definition ilog2 (n d : Z) : Z :=
  let k := Z.log2 n - Z.log2 d in
  if (if 0 <=? k then d * 2 ^ k <=? n else d <=? n * 2 ^ (- k)) then k else k - 1.

(** The integer nearest to [n / d], ties to the even one, for
    [0 <= n] and [0 < d]. *)
Definition nearest_even (n d : Z) : Z :=
  let q := n / d in
  match 2 * (n mod d) ?= d with
  | Lt => q
  | Gt => q + 1
  | Eq => if Z.even q then q else q + 1
  end.

Definition fl (q : Q) : Q :=
  let n := Z.abs (Qnum q) in
  let d := Zpos (Qden q) in
  if n =? 0 then 0%Q
  else
    let e := Z.max (-1074) (ilog2 n d - 52) in
    let v :=
      if 0 <=? e then inject_Z (nearest_even n (d * 2 ^ e) * 2 ^ e)
      else Qred (nearest_even (n * 2 ^ (- e)) d # Z.to_pos (2 ^ (- e))) in
    if Qnum q <? 0 then (- v)%Q else v.

Definition fadd (a b : Q) : Q := fl (a + b).
Definition fsub (a b : Q) : Q := fl (a - b).
Definition fmul (a b : Q) : Q := fl (a * b).
Definition fdiv (a b : Q) : Q := fl (a / b).

(** [Math.PI], the number nearest to pi. *)
Definition Math_PI : Q := 884279719003555 # 281474976710656.

(* ================================================================= *)
(** ** Pipeline stages *)

(** The three weights of the luminance formula, as numbers:
    [fl 0.299], [fl 0.587] and [fl 0.114]. *)
Definition weightRed : Q := Eval vm_compute in fl 0.299.
Definition weightGreen : Q := Eval vm_compute in fl 0.587.
Definition weightBlue : Q := Eval vm_compute in fl 0.114.

(** [Math.round(0.299 * r + 0.587 * g + 0.114 * b)]: the products and
    the two sums are rounded to numbers one after the other;
    [Math.round] gives the integer nearest to the last sum, a tie going
    up. *)
Definition weightedSum (r g b : Z) : Q :=
  fadd (fadd (fmul weightRed (inject_Z r)) (fmul weightGreen (inject_Z g)))
       (fmul weightBlue (inject_Z b)).

Definition luminance (r g b : Z) : Q :=
  inject_Z (Qfloor (weightedSum r g b + 0.5)%Q).

(** [convertToGrayscale]: [i] runs over 0, 4, 8, ... below
    [data.length]; a channel read past the end is [undefined] and turns
    the sum into [NaN]. *)
Definition convertToGrayscale (data : TypedArray) : TypedArray :=
  foldl (fun grayData k =>
           let i := 4 * k in
           let gray :=
             match ta_get data i, ta_get data (i + 1), ta_get data (i + 2) with
             | Some r, Some g, Some b => Num (luminance r g b)
             | _, _, _ => NaN
             end in
           ta_set grayData (i / 4) (toUint8Clamp gray))
        (ta_new (ta_length data / 4))
        (range 0 ((ta_length data + 3) / 4)).

Definition gaussKernel : list Z := [1; 2; 1; 2; 4; 2; 1; 2; 1].
Definition sobelX : list Z := [-1; 0; 1; -2; 0; 2; -1; 0; 1].
Definition sobelY : list Z := [-1; -2; -1; 0; 0; 0; 1; 2; 1].

Definition kernel_at (kernel : list Z) (i : Z) : Z := nth (Z.to_nat i) kernel 0.

(** The two inner loops of a 3x3 convolution around [(x, y)]; [None] is
    a sum that became [NaN] because a pixel was [undefined]. *)
Definition convolve (grayData : TypedArray) (width x y : Z) (kernel : list Z) : option Z :=
  foldl (fun sum ky =>
           foldl (fun sum kx =>
                    match sum, ta_get grayData ((y + ky) * width + (x + kx)) with
                    | Some s, Some pixel =>
                        Some (s + pixel * kernel_at kernel ((ky + 1) * 3 + (kx + 1)))
                    | _, _ => None
                    end) sum (range (-1) 2))
        (Some 0) (range (-1) 2).

(** [applyGaussianBlur]. *)
Definition applyGaussianBlur (grayData : TypedArray) (width height : Z) : TypedArray :=
  foldl (fun blurred y =>
           foldl (fun blurred x =>
                    let v := match convolve grayData width x y gaussKernel with
                             | Some sum => Num (inject_Z sum / 16)
                             | None => NaN
                             end in
                    ta_set blurred (y * width + x) (toUint8Clamp v))
                 blurred (range 1 (width - 1)))
        (ta_new (ta_length grayData)) (range 1 (height - 1)).

(** The byte stored for [Math.min(255, Math.sqrt(n))], [n] a natural
    number: the integer nearest to the square root (a tie would need
    [(k + 1/2)^2] to be an integer), capped at 255. *)
Definition clampSqrt (n : Z) : Z := Z.min 255 ((Z.sqrt (4 * n) + 1) / 2).

(** [applySobelEdgeDetection]. *)
Definition applySobelEdgeDetection (grayData : TypedArray) (width height : Z) : TypedArray :=
  foldl (fun edges y =>
           foldl (fun edges x =>
                    let v := match convolve grayData width x y sobelX,
                                   convolve grayData width x y sobelY with
                             | Some gx, Some gy => clampSqrt (gx * gx + gy * gy)
                             | _, _ => 0
                             end in
                    ta_set edges (y * width + x) v)
                 edges (range 1 (width - 1)))
        (ta_new (ta_length grayData)) (range 1 (height - 1)).

(* ================================================================= *)
(** ** Contour tracer *)

(** [edgeData[index] > threshold] and [edgeData[index] <= threshold]:
    both are false on [undefined]. *)
Definition edge_gt (edgeData : TypedArray) (index threshold : Z) : bool :=
  match ta_get edgeData index with
  | Some v => threshold <? v
  | None => false
  end.
Definition edge_le (edgeData : TypedArray) (index threshold : Z) : bool :=
  match ta_get edgeData index with
  | Some v => v <=? threshold
  | None => false
  end.

(** The eight neighbours in the order they are pushed. *)
Definition neighbours (p : Point) : list Point :=
  let x := px p in
  let y := py p in
  [ mkPoint (x - 1) (y - 1); mkPoint x (y - 1); mkPoint (x + 1) (y - 1);
    mkPoint (x - 1) y;                          mkPoint (x + 1) y;
    mkPoint (x - 1) (y + 1); mkPoint x (y + 1); mkPoint (x + 1) (y + 1) ].

(** Number of indices below [n] not yet marked: what the flood fill can
    still visit. *)
Definition unvisited (n : Z) (visited : Zmap bool) : nat :=
  length (filter (fun i => truthy visited i = false) (range 0 n)).

(** Marking an index that was not marked leaves fewer to visit; this
    is what makes the flood fill stop. *)
Lemma elem_of_iota (i start : Z) (n : nat) :
  i ∈ iota start n <-> start <= i < start + Z.of_nat n.
Proof.
  revert start; induction n as [|n IH]; intros start; simpl.
  - rewrite elem_of_nil. lia.
  - rewrite elem_of_cons, IH. lia.
Qed.

Lemma elem_of_range (i a b : Z) : i ∈ range a b <-> a <= i < b.
Proof. unfold range. rewrite elem_of_iota. lia. Qed.

Lemma truthy_insert_true (visited : Zmap bool) (i j : Z) :
  truthy (<[i := true]> visited) j = if decide (i = j) then true else truthy visited j.
Proof.
  unfold truthy. destruct (decide (i = j)) as [->|Hne].
  - by rewrite lookup_insert_eq.
  - by rewrite lookup_insert_ne.
Qed.

Lemma unvisited_mark (n : Z) (visited : Zmap bool) (i : Z) :
  0 <= i < n -> truthy visited i = false ->
  (unvisited n (<[i := true]> visited) < unvisited n visited)%nat.
Proof.
  intros Hi Hfalse. unfold unvisited.
  assert (Hin : i ∈ range 0 n) by (apply elem_of_range; lia).
  revert Hin. generalize (range 0 n) as l.
  assert (Hle : forall l : list Z,
    (length (filter (fun j => truthy (<[i := true]> visited) j = false) l)
     <= length (filter (fun j => truthy visited j = false) l))%nat).
  { induction l as [|j l IH]; [done|].
    rewrite !filter_cons, truthy_insert_true.
    destruct (decide (i = j)) as [->|Hne].
    - rewrite decide_False by done. rewrite Hfalse, decide_True by done. simpl. lia.
    - destruct (decide (truthy visited j = false)); simpl; lia. }
  induction l as [|j l IH]; intros Hin.
  - by apply elem_of_nil in Hin.
  - rewrite !filter_cons, truthy_insert_true.
    destruct (decide (i = j)) as [->|Hne].
    + rewrite decide_False by done. rewrite Hfalse, decide_True by done. simpl.
      specialize (Hle l). lia.
    + apply elem_of_cons in Hin as [?|Hin]; [done|]. specialize (IH Hin).
      destruct (decide (truthy visited j = false)); simpl; lia.
Qed.

Definition inspect {A} (a : A) : {b | a = b} := exist _ a eq_refl.

Section Trace.
Variables (edgeData : TypedArray) (width height threshold : Z).

(** The test that makes the loop [continue]. *)
Definition skipped (visited : Zmap bool) (p : Point) : bool :=
  let index := py p * width + px p in
  (px p <? 0) || (width <=? px p) || (py p <? 0) || (height <=? py p)
  || truthy visited index || edge_le edgeData index threshold.

Lemma skipped_false (visited : Zmap bool) (p : Point) :
  skipped visited p = false ->
  0 <= px p < width /\ 0 <= py p < height
  /\ truthy visited (py p * width + px p) = false
  /\ edge_le edgeData (py p * width + px p) threshold = false.
Proof.
  unfold skipped. rewrite !orb_false_iff.
  rewrite !Z.ltb_ge, !Z.leb_gt. intuition lia.
Qed.

(** The [while (stack.length > 0)] loop of [traceContour].  The head
    of [stack] is the top, so the neighbours go on in reverse. *)
Equations? traceLoop (stack : list Point) (visited : Zmap bool) (contour : list Point)
  : list Point * Zmap bool
  by wf (length stack + 9 * unvisited (width * height) visited)%nat lt :=
  traceLoop [] visited contour := (contour, visited);
  traceLoop (p :: rest) visited contour with inspect (skipped visited p) := {
    | exist _ true _ := traceLoop rest visited contour;
    | exist _ false Hgo :=
        traceLoop (rev (neighbours p) ++ rest)
                  (<[py p * width + px p := true]> visited)
                  (contour ++ [p]) }.
Proof.
  apply skipped_false in Hgo as (Hx & Hy & Hv & _).
  assert (Hidx : 0 <= py p * width + px p < width * height) by nia.
  pose proof (unvisited_mark _ _ _ Hidx Hv). lia.
Qed.

(** [traceContour]: the contour traced from [(startX, startY)] and the
    [visited] array as the call leaves it. *)
Definition traceContour (startX startY : Z) (visited : Zmap bool)
  : list Point * Zmap bool :=
  traceLoop [mkPoint startX startY] visited [].
End Trace.

Definition threshold : Z := 30.

(** [findContours], with the call of [traceContour] taken as an
    argument, so that the same scan can be run with the fuelled loop
    of the evaluation section. *)
Definition findContoursWith
    (trace : Z -> Z -> Zmap bool -> list Point * Zmap bool)
    (edgeData : TypedArray) (width height : Z) : result (list (list Point)) :=
  if valid_array_length (width * height) then
    let visited := array_fill (width * height) false in
    Ok (fst (foldl (fun st y =>
                      foldl (fun '(contours, visited) x =>
                               let index := y * width + x in
                               if edge_gt edgeData index threshold
                                  && negb (truthy visited index)
                               then
                                 let '(contour, visited) := trace x y visited in
                                 if (10 <? Z.of_nat (length contour))
                                 then (contours ++ [contour], visited)
                                 else (contours, visited)
                               else (contours, visited))
                            st (range 0 width))
                   ([], visited) (range 0 height)))
  else Throw RangeError.

Definition findContours (edgeData : TypedArray) (width height : Z)
  : result (list (list Point)) :=
  findContoursWith (traceContour edgeData width height threshold)
                   edgeData width height.

(** Modelled from the spec: the application class has no caller left
    for the five stages (the entry point now goes through the detector
    class), so the composition follows the data flow the specification
    gives: grayscale, blur, edges, contours, classifier and resolver. *)
Definition detect (pixels : list Z) (width height expectedCount : Z)
  : result (list Tongue) :=
  let gray := convertToGrayscale (ta_of_list pixels) in
  let blurred := applyGaussianBlur gray width height in
  let edges := applySobelEdgeDetection blurred width height in
  match findContours edges width height with
  | Ok contours => Ok (filterTongueShapes contours width height expectedCount)
  | Throw e => Throw e
  end.

(* ================================================================= *)
(** ** Selection sequencer *)

(** An overlay element: whether its class list has [selected], and the
    text of its [.tongue-number] child ([None] is the empty string).
    [createInteractiveTongueOverlays] gives every overlay that child. *)
Record OverlayEl := mkOverlayEl { el_selected : bool; el_number : option nat }.

Record Selection := mkSelection {
  selectedTongues : list nat;
  detectionOverlays : list OverlayEl
}.

(** [selectTongue]. *)
Definition selectTongue (tongueIndex : nat) (st : Selection) : Selection :=
  if bool_decide (tongueIndex ∈ selectedTongues st) then st
  else
    let selected := selectedTongues st ++ [tongueIndex] in
    {| selectedTongues := selected;
       detectionOverlays :=
         alter (fun _ => {| el_selected := true; el_number := Some (length selected) |})
               tongueIndex (detectionOverlays st) |}.

(** [Array.prototype.indexOf]. *)
Definition indexOf (x : nat) (l : list nat) : option nat :=
  fst <$> list_find (fun y => y = x) l.

(** The renumbering [forEach] at the end of [deselectTongue]. *)
Definition renumber (selected : list nat) (overlays : list OverlayEl) : list OverlayEl :=
  foldl (fun overlays '(newOrder, selectedTongueIndex) =>
           alter (fun el => {| el_selected := el_selected el;
                               el_number := Some (newOrder + 1)%nat |})
                 selectedTongueIndex overlays)
        overlays (zip (seq 0 (length selected)) selected).

(** [deselectTongue]. *)
Definition deselectTongue (tongueIndex : nat) (st : Selection) : Selection :=
  match indexOf tongueIndex (selectedTongues st) with
  | None => st
  | Some selectedIndex =>
      let selected := delete selectedIndex (selectedTongues st) in
      let overlays :=
        alter (fun _ => {| el_selected := false; el_number := None |})
              tongueIndex (detectionOverlays st) in
      {| selectedTongues := selected;
         detectionOverlays := renumber selected overlays |}
  end.

(** [clearTongueSelection]. *)
Definition clearTongueSelection (st : Selection) : Selection :=
  {| selectedTongues := [];
     detectionOverlays :=
       (fun _ => {| el_selected := false; el_number := None |}) <$> detectionOverlays st |}.

(** [clearDetectionOverlays]. *)
Definition clearDetectionOverlays (st : Selection) : Selection :=
  {| selectedTongues := []; detectionOverlays := [] |}.

(** [handleTongueSelection]: the clicked element is the overlay of
    [tongueIndex]; a click on a selected overlay deselects. *)
Definition handleTongueSelection (tongueIndex : nat) (st : Selection) : Selection :=
  match detectionOverlays st !! tongueIndex with
  | Some el =>
      if el_selected el then deselectTongue tongueIndex st
      else selectTongue tongueIndex st
  | None => st
  end.

(** The overlays [createInteractiveTongueOverlays] builds for [n]
    detected tongues, and the state it leaves. *)
Definition freshSelection (n : nat) : Selection :=
  {| selectedTongues := [];
     detectionOverlays := replicate n {| el_selected := false; el_number := None |} |}.

(* ================================================================= *)
(** ** Fallback generator *)

(** [Math.cos] and [Math.sin] are approximated by the engine that
    runs the program; the language fixes their values at 0 only
    ([Math.cos(0)] is 1, [Math.sin(0)] is 0). *)
Record Engine := mkEngine {
  Math_cos : Q -> Q;
  Math_sin : Q -> Q
}.

(** A placeholder; its position is a pair of numbers that depends on
    the engine. *)
Record FallbackShape := mkFallbackShape {
  fb_x : Engine -> Q;
  fb_y : Engine -> Q;
  fb_width : Z;
  fb_height : Z;
  fb_area : Z;
  fb_confidence : Q;
  fb_aspectRatio : Q;
  fb_solidity : Q;
  fb_isFallback : bool
}.

(** [createFallbackTongueDetection]; every operation on numbers is
    rounded, in the order of the source. *)
Definition createFallbackTongueDetection (width height expectedCount : Z)
  : list FallbackShape :=
  let centerX := fdiv (inject_Z width) 2 in
  let centerY := fdiv (inject_Z height) 2 in
  let radius := fmul (inject_Z (Z.min width height)) (fl 0.3) in
  (fun i =>
     let angle := fmul (fmul (fdiv (inject_Z i) (inject_Z expectedCount)) 2) Math_PI in
     {| fb_x := fun engine => fadd centerX (fmul radius (Math_cos engine angle));
        fb_y := fun engine => fadd centerY (fmul radius (Math_sin engine angle));
        fb_width := 40;
        fb_height := 60;
        fb_area := 2400;
        fb_confidence := 0.1%Q;
        fb_aspectRatio := 1.5%Q;
        fb_solidity := 0.8%Q;
        fb_isFallback := true |}) <$> range 0 expectedCount.

(* ================================================================= *)
(** ** Detection entry point *)

(** A result of the detector class. *)
Record CvProperties := mkCvProperties {
  cv_area : Q;
  cv_aspectRatio : Q;
  cv_solidity : Q;
  cv_circularity : Q;
  cv_compactness : Q
}.

Record CvShape := mkCvShape {
  cv_confidence : Q;
  cv_centroid : Q * Q;
  cv_boundingRect : BBox;
  cv_properties : CvProperties
}.

(** [convertOpenCVResultsToTongueShapes]. *)
Definition convertOpenCVResultsToTongueShapes (openCVResults : list CvShape)
    (expectedCount : Z) : list CvShape :=
  let sorted := sort_desc cv_confidence openCVResults in
  let sortedResults :=
    js_slice0 sorted (Z.min (expectedCount + 5) (Z.of_nat (length sorted))) in
  if expectedCount <? Z.of_nat (length sortedResults) then
    let confidenceThreshold := 0.5%Q in
    let filteredShapes :=
      filter (fun shape => Qle_bool confidenceThreshold (cv_confidence shape) = true)
             sortedResults in
    js_slice0 filteredShapes expectedCount
  else sortedResults.

(** What the entry point hands back: shapes of the detector class or
    fallback shapes.  Only the latter carry [isFallback]. *)
Inductive Shape :=
  | Detected (s : CvShape)
  | Fallback (s : FallbackShape).

Definition isFallback (s : Shape) : bool :=
  match s with
  | Detected _ => false
  | Fallback f => fb_isFallback f
  end.

Definition shape_confidence (s : Shape) : Q :=
  match s with
  | Detected c => cv_confidence c
  | Fallback f => fb_confidence f
  end.

Record Image := mkImage { img_width : Z; img_height : Z; img_pixels : list Z }.

Record ImageData := mkImageData { id_data : TypedArray; id_width : Z; id_height : Z }.

(** The detector object: [detectTongueWithOpenCV], seen from the
    application as a call that returns shapes or throws. *)
Definition Detector := ImageData -> Z -> Z -> result (list CvShape).

Section EntryPoint.
(** Drawing the image on the analysis canvas and reading it back
    ([drawImage], [getImageData]); the browser may throw here. *)
Variable canvas : Image -> result ImageData.

(** [detectDrumTongues]. *)
Definition detectDrumTongues (tongueDetector : option Detector) (img : Image)
    (expectedCount : Z) : result (list Shape) :=
  match tongueDetector with
  | None => Ok []
  | Some detector =>
      match canvas img with
      | Throw e => Throw e
      | Ok imageData =>
          match detector imageData (img_width img) (img_height img) with
          | Ok openCVResults =>
              Ok (Detected <$>
                    convertOpenCVResultsToTongueShapes openCVResults expectedCount)
          | Throw _ =>
              Ok (Fallback <$>
                    createFallbackTongueDetection (img_width img) (img_height img)
                                                  expectedCount)
          end
      end
  end.

(** What [runInteractiveTongueDetection] does with the result of
    the detection. *)
Inductive Outcome :=
  | NoImage                          (* logged, nothing else happens *)
  | CreateOverlays (tongues : list Shape)
      (* [createInteractiveTongueOverlays(tongues)] is called, still
         inside the [try] *)
  | AlertNoTongues                   (* "No tongues detected. ..." *)
  | AlertFailed (e : exn).           (* "Detection failed: ..." *)

(** [runInteractiveTongueDetection], up to the call that builds the
    overlays; [drumPhoto] is the uploaded photo (its URL). *)
Definition runInteractiveTongueDetection (tongueDetector : option Detector)
    (analysisImage : option Image) (drumPhoto : option string)
    (expectedCount : Z) : Outcome :=
  match analysisImage, drumPhoto with
  | None, _ | _, None => NoImage
  | Some img, Some _ =>
      match detectDrumTongues tongueDetector img expectedCount with
      | Ok detectedTongues =>
          if 0 <? Z.of_nat (length detectedTongues)
          then CreateOverlays detectedTongues
          else AlertNoTongues
      | Throw e => AlertFailed e
      end
  end.
End EntryPoint.

(** [createInteractiveTongueOverlays]: without the element
    [layoutBackground] in the document it returns at once; with it, it
    reads [tongue.boundingRect.x] of every shape in turn and builds an
    unmarked overlay with an empty number for it.  A fallback shape has
    no [boundingRect], so the read throws. *)
Definition createInteractiveTongueOverlays (layoutBackground : bool)
    (tongues : list Shape) : result (list OverlayEl) :=
  if layoutBackground then
    foldl (fun acc tongue =>
             match acc with
             | Throw e => Throw e
             | Ok overlays =>
                 match tongue with
                 | Detected _ =>
                     Ok (overlays ++ [{| el_selected := false; el_number := None |}])
                 | Fallback _ => Throw TypeError
                 end
             end)
          (Ok []) tongues
  else Ok [].

(** What the user gets in the end: the overlays to click on, or one of
    the two alerts; the [catch] of [runInteractiveTongueDetection] also
    takes the errors of the overlay construction. *)
Inductive Display :=
  | Nothing
  | Overlays (overlays : list OverlayEl)
  | Alert (failed : option exn).   (* [None]: "No tongues detected. ..." *)

Definition display (layoutBackground : bool) (outcome : Outcome) : Display :=
  match outcome with
  | NoImage => Nothing
  | CreateOverlays tongues =>
      match createInteractiveTongueOverlays layoutBackground tongues with
      | Ok overlays => Overlays overlays
      | Throw e => Alert (Some e)
      end
  | AlertNoTongues => Alert None
  | AlertFailed e => Alert (Some e)
  end.

(** A canvas that reads back the pixels of the image. *)
Definition readCanvas (img : Image) : result ImageData :=
  Ok {| id_data := ta_of_list (img_pixels img);
        id_width := img_width img; id_height := img_height img |}.

(* ================================================================= *)
(** ** Evaluation of the contour tracer

    [traceLoop] is defined by well-founded recursion; the same loop on
    a step budget evaluates quickly, and the budget below always
    suffices ([traceLoopFuel_enough]). *)

Section TraceFuel.
Variables (edgeData : TypedArray) (width height threshold : Z).

Fixpoint traceLoopFuel (fuel : nat) (stack : list Point) (visited : Zmap bool)
    (contour : list Point) : option (list Point * Zmap bool) :=
  match stack with
  | [] => Some (contour, visited)
  | p :: rest =>
      match fuel with
      | O => None
      | S fuel =>
          if skipped edgeData width height threshold visited p
          then traceLoopFuel fuel rest visited contour
          else traceLoopFuel fuel (rev (neighbours p) ++ rest)
                             (<[py p * width + px p := true]> visited)
                             (contour ++ [p])
      end
  end.

Definition traceContourFuel (startX startY : Z) (visited : Zmap bool)
  : list Point * Zmap bool :=
  match traceLoopFuel (1 + 9 * Z.to_nat (width * height))
                      [mkPoint startX startY] visited [] with
  | Some r => r
  | None => ([], visited)
  end.
End TraceFuel.

Definition detectFuel (pixels : list Z) (width height expectedCount : Z)
  : result (list Tongue) :=
  let gray := convertToGrayscale (ta_of_list pixels) in
  let blurred := applyGaussianBlur gray width height in
  let edges := applySobelEdgeDetection blurred width height in
  match findContoursWith (traceContourFuel edges width height threshold)
                         edges width height with
  | Ok contours => Ok (filterTongueShapes contours width height expectedCount)
  | Throw e => Throw e
  end.

(* ================================================================= *)
(** ** The detector class *)

Module OpenCVTongueDetector.

(** The contour-filter parameters the constructor sets. *)
Record Params := mkParams {
  minArea : Q;
  maxArea : Q;
  minAspectRatio : Q;
  maxAspectRatio : Q;
  minSolidity : Q;
  maxCircularity : Q;
  minCircularity : Q
}.

Definition params : Params :=
  {| minArea := 100;
     maxArea := 50000;
     minAspectRatio := fl 0.2;
     maxAspectRatio := 7;
     minSolidity := fl 0.4;
     maxCircularity := 1;
     minCircularity := fl 0.1 |}.

(** The rectangle [cv.boundingRect] returns: an integer corner and
    integer sizes that are not negative. *)
Record Rect := mkRect {
  rect_x : Z;
  rect_y : Z;
  rect_width : N;
  rect_height : N
}.

Definition toBBox (r : Rect) : BBox :=
  mkBBox (rect_x r) (rect_y r) (Z.of_N (rect_width r)) (Z.of_N (rect_height r)).

(** What the library reports for one contour: the numbers
    [cv.contourArea] and [cv.arcLength] return, the rectangle of
    [cv.boundingRect], and the area of the [cv.convexHull]. *)
Record Contour := mkContour {
  c_area : Q;
  c_perimeter : Q;
  c_boundingRect : Rect;
  c_hullArea : Q
}.

(** One turn of the loop over the contours, as the library lets it
    run: the measurements of the [try] block, or the error one of the
    library calls threw there, and the error (if any) of the [delete]
    calls of the [finally] block. *)
Record ContourOutcome := mkContourOutcome {
  co_measure : result Contour;
  co_release : option exn
}.

(** [calculateTongueConfidence] of the detector class; the sums are
    rounded one after the other. *)
Definition calculateTongueConfidence (area aspectRatio solidity circularity : Q) : Q :=
  let confidence := fl 0.3 in
  let confidence :=
    if Qltb (fl 1.2) aspectRatio && Qltb aspectRatio 4
    then fadd confidence (fl 0.3) else confidence in
  let confidence :=
    if Qltb (fl 0.8) solidity then fadd confidence (fl 0.2)
    else if Qltb (fl 0.6) solidity then fadd confidence (fl 0.1)
    else confidence in
  let confidence :=
    if Qltb (fl 0.2) circularity && Qltb circularity (fl 0.7)
    then fadd confidence (fl 0.2) else confidence in
  let confidence :=
    if Qltb 500 area && Qltb area 70000
    then fadd confidence (fl 0.2) else confidence in
  Qmin 1 confidence.

(** The [try] block of the loop of [filterTongueContours] for a measured
    contour: [None] when the contour is passed over, the shape pushed
    on [tongueShapes] otherwise. *)
Definition tongueCandidate (p : Params) (contour : Contour) : option CvShape :=
  let area := c_area contour in
  let perimeter := c_perimeter contour in
  if Qltb area (minArea p) then None
  else
    let boundingRect := toBBox (c_boundingRect contour) in
    let aspectRatio :=
      if (bwidth boundingRect =? 0) || (bheight boundingRect =? 0) then 0%Q
      else fdiv (inject_Z (Z.max (bwidth boundingRect) (bheight boundingRect)))
                (inject_Z (Z.min (bwidth boundingRect) (bheight boundingRect))) in
    let hullArea := c_hullArea contour in
    let solidity := if Qltb 0 hullArea then fdiv area hullArea else 0%Q in
    let circularity :=
      if Qeq_bool perimeter 0 then 0%Q
      else fdiv (fmul (fmul 4 Math_PI) area) (fmul perimeter perimeter) in
    let compactness :=
      if Qeq_bool (fmul (inject_Z (bwidth boundingRect))
                        (inject_Z (bheight boundingRect))) 0
      then 0%Q
      else fdiv area (fmul (inject_Z (bwidth boundingRect))
                           (inject_Z (bheight boundingRect))) in
    let areaOk := Qle_bool (minArea p) area && Qle_bool area (maxArea p) in
    let aspectRatioOk :=
      Qle_bool (minAspectRatio p) aspectRatio && Qle_bool aspectRatio (maxAspectRatio p) in
    let solidityOk := Qle_bool (minSolidity p) solidity in
    let circularityOk :=
      Qle_bool (minCircularity p) circularity && Qle_bool circularity (maxCircularity p) in
    let compactnessOk := Qltb (fl 0.3) compactness in
    let isTongueCandidate :=
      areaOk && aspectRatioOk && solidityOk && circularityOk && compactnessOk in
    if isTongueCandidate then
      let rect := toBBox (c_boundingRect contour) in
      let confidence := calculateTongueConfidence area aspectRatio solidity circularity in
      Some {| cv_confidence := confidence;
              cv_centroid := (fadd (inject_Z (bx rect)) (fdiv (inject_Z (bwidth rect)) 2),
                              fadd (inject_Z (by_ rect)) (fdiv (inject_Z (bheight rect)) 2));
              cv_boundingRect := rect;
              cv_properties := {| cv_area := area;
                                  cv_aspectRatio := aspectRatio;
                                  cv_solidity := solidity;
                                  cv_circularity := circularity;
                                  cv_compactness := compactness |} |}
    else None.

(** [filterTongueContours]: an error of the [try] block is logged and
    the contour passed over; an error of the [finally] block leaves the
    function. *)
Definition filterTongueContours (p : Params) (contours : list ContourOutcome)
  : result (list CvShape) :=
  foldl (fun acc outcome =>
           match acc with
           | Throw e => Throw e
           | Ok tongueShapes =>
               let tongueShapes :=
                 match co_measure outcome with
                 | Ok contour =>
                     match tongueCandidate p contour with
                     | Some shape => tongueShapes ++ [shape]
                     | None => tongueShapes
                     end
                 | Throw _ => tongueShapes
                 end in
               match co_release outcome with
               | None => Ok tongueShapes
               | Some e => Throw e
               end
           end)
        (Ok []) contours.

Section Detect.
(** Steps 1 to 6 of the pipeline (conversion to a matrix, grayscale,
    bilateral filter, Canny edges, morphological closing, contour
    search), which belong to the library: the contours found, or the
    error thrown on the way. *)
Variable cvContours : ImageData -> result (list ContourOutcome).

(** The [delete] calls of the outer [finally] block: the error they
    throw, if any. *)
Variable cvRelease : ImageData -> option exn.

(** [detectTongueWithOpenCV]. *)
Definition detectTongueWithOpenCV (isReady : bool) : Detector :=
  fun imageData width height =>
    if negb isReady then Ok []
    else
      let outcome :=
        match cvContours imageData with
        | Ok contours =>
            match filterTongueContours params contours with
            | Ok tongueShapes => Ok tongueShapes
            | Throw _ => Ok []
            end
        | Throw _ => Ok []
        end in
      match cvRelease imageData with
      | None => outcome
      | Some e => Throw e
      end.
End Detect.

End OpenCVTongueDetector.

(* ================================================================= *)
(** ** The drum configuration *)

Module DrumConfigManager.

(** The names every object literal inherits from [Object.prototype]. *)
Definition inheritedNames : list string :=
  ["constructor"; "toString"; "toLocaleString"; "valueOf"; "hasOwnProperty";
   "isPrototypeOf"; "propertyIsEnumerable"; "__proto__"; "__defineGetter__";
   "__defineSetter__"; "__lookupGetter__"; "__lookupSetter__"]%string.

(** What [table[k]] finds on an object literal: an entry of the
    literal, an inherited function or object, or [undefined]. *)
Inductive Property (A : Type) :=
  | Own (v : A)
  | Inherited
  | Absent.
Arguments Own {A} v.
Arguments Inherited {A}.
Arguments Absent {A}.

Fixpoint entry {A} (entries : list (string * A)) (k : string) : option A :=
  match entries with
  | [] => None
  | (name, v) :: entries => if String.eqb name k then Some v else entry entries k
  end.

Definition property {A} (entries : list (string * A)) (k : string) : Property A :=
  match entry entries k with
  | Some v => Own v
  | None => if existsb (String.eqb k) inheritedNames then Inherited else Absent
  end.

Definition SCALE_PATTERNS : list (string * list Z) :=
  [("major", [0; 2; 4; 5; 7; 9; 11]);
   ("minor", [0; 2; 3; 5; 7; 8; 10]);
   ("pentatonic", [0; 2; 4; 7; 9]);
   ("minorPentatonic", [0; 3; 5; 7; 10]);
   ("dorian", [0; 2; 3; 5; 7; 9; 10]);
   ("mixolydian", [0; 2; 4; 5; 7; 9; 10]);
   ("lydian", [0; 2; 4; 6; 7; 9; 11]);
   ("akebono", [0; 2; 3; 7; 8]);
   ("hijaz", [0; 1; 4; 5; 7; 8; 11])]%string.

Definition NOTE_TO_SEMITONE : list (string * Z) :=
  [("C", 0); ("C#", 1); ("Db", 1); ("D", 2); ("D#", 3); ("Eb", 3); ("E", 4); ("F", 5);
   ("F#", 6); ("Gb", 6); ("G", 7); ("G#", 8); ("Ab", 8); ("A", 9); ("A#", 10); ("Bb", 10);
   ("B", 11)]%string.

Record Config := mkConfig {
  noteCount : Z;
  key : string;
  scaleType : string;
  rootOctave : Z
}.

(** [pattern[i]] for an index inside the pattern. *)
Definition at_index (pattern : list Z) (i : Z) : Z := nth (Z.to_nat i) pattern 0.

(** What [getTongueNoteName] returns: the text [Invalid], a note name
    followed by the octave number, or the text [undefinedNaN]. *)
Inductive NoteName :=
  | Invalid
  | Note (noteName : string) (noteOctave : Z)
  | UndefinedNaN.

Definition noteNames : list string :=
  ["C"; "C#"; "D"; "D#"; "E"; "F"; "F#"; "G"; "G#"; "A"; "A#"; "B"]%string.

(** [getTongueNoteName].  With an inherited function or object in the
    place of the pattern, [pattern[scaleIndex]] is [undefined]; with
    one in the place of the root semitone, the sum is a string; either
    way the semitone and the octave are [NaN]. *)
Definition getTongueNoteName (config : Config) (tongueNumber : Z) : NoteName :=
  if (tongueNumber <? 1) || (noteCount config <? tongueNumber) then Invalid
  else
    match property SCALE_PATTERNS (scaleType config),
          property NOTE_TO_SEMITONE (key config) with
    | Inherited, _ | _, Inherited => UndefinedNaN
    | scale, root =>
        let pattern := match scale with Own p => p | _ => [0; 2; 4; 5; 7; 9; 11] end in
        let scaleIndex := Z.rem (tongueNumber - 1) (Z.of_nat (length pattern)) in
        let octaveOffset := (tongueNumber - 1) / Z.of_nat (length pattern) in
        let rootSemitone := match root with Own r => r | _ => 0 end in
        let noteSemitone := Z.rem (rootSemitone + at_index pattern scaleIndex) 12 in
        let noteOctave :=
          rootOctave config + octaveOffset
          + (rootSemitone + at_index pattern scaleIndex) / 12 in
        Note (nth (Z.to_nat noteSemitone) noteNames "undefined"%string) noteOctave
    end.

End DrumConfigManager.

(* ================================================================= *)
(** * Properties *)

(** ** Numbers *)

Lemma Qltb_lt (a b : Q) : Qltb a b = true <-> (a < b)%Q.
Proof.
  unfold Qltb. rewrite negb_true_iff, <- not_true_iff_false, Qle_bool_iff.
  split; [apply Qnot_le_lt | apply Qlt_not_le].
Qed.

Lemma Qltb_ge (a b : Q) : Qltb a b = false <-> (b <= a)%Q.
Proof.
  unfold Qltb. rewrite negb_false_iff. apply Qle_bool_iff.
Qed.

Lemma Qle_bool_false (a b : Q) : Qle_bool a b = false <-> (b < a)%Q.
Proof.
  rewrite <- not_true_iff_false, Qle_bool_iff.
  split; [apply Qnot_le_lt | apply Qlt_not_le].
Qed.

Lemma jsdiv_pos (a b : Z) : 0 < b -> jsdiv (inject_Z a) (inject_Z b) = Num (inject_Z a / inject_Z b).
Proof.
  intros Hb. unfold jsdiv.
  destruct (Qeq_bool (inject_Z b) 0) eqn:E; [|done].
  apply Qeq_bool_iff in E. unfold Qeq in E. simpl in E. lia.
Qed.

Lemma inject_Z_lt (a b : Z) : a < b <-> (inject_Z a < inject_Z b)%Q.
Proof. unfold Qlt. simpl. lia. Qed.

Lemma inject_Z_le (a b : Z) : a <= b <-> (inject_Z a <= inject_Z b)%Q.
Proof. unfold Qle. simpl. lia. Qed.

(** ** Bounding box *)

(** [m] holds the extreme coordinates of the points of [l]. *)
Definition extremes (l : list Point) (m : Z * Z * Z * Z) : Prop :=
  let '(minX, minY, maxX, maxY) := m in
  ((exists p, p ∈ l /\ px p = minX) /\ (forall p, p ∈ l -> minX <= px p)) /\
  ((exists p, p ∈ l /\ py p = minY) /\ (forall p, p ∈ l -> minY <= py p)) /\
  ((exists p, p ∈ l /\ px p = maxX) /\ (forall p, p ∈ l -> px p <= maxX)) /\
  ((exists p, p ∈ l /\ py p = maxY) /\ (forall p, p ∈ l -> py p <= maxY)).

Definition bbox_step (acc : option (Z * Z * Z * Z)) (point : Point) :=
  match acc with
  | None => Some (px point, py point, px point, py point)
  | Some (minX, minY, maxX, maxY) =>
      Some (Z.min minX (px point), Z.min minY (py point),
            Z.max maxX (px point), Z.max maxY (py point))
  end.

Lemma extremes_single (p : Point) : extremes [p] (px p, py p, px p, py p).
Proof.
  unfold extremes.
  repeat split; try (exists p; split; [apply list_elem_of_singleton|]; done);
    intros q ->%list_elem_of_singleton; lia.
Qed.

Lemma extremes_snoc (l : list Point) (m : Z * Z * Z * Z) (p : Point) :
  extremes l m ->
  exists m', bbox_step (Some m) p = Some m' /\ extremes (l ++ [p]) m'.
Proof.
  destruct m as [[[minX minY] maxX] maxY].
  intros ([(a & Ha & Hax) Hminx] & [(b & Hb & Hby) Hminy]
          & [(c & Hc & Hcx) Hmaxx] & [(d & Hd & Hdy) Hmaxy]).
  eexists; split; [reflexivity|]. unfold extremes.
  assert (Hp : p ∈ l ++ [p]) by (apply elem_of_app; right; apply list_elem_of_singleton; done).
  assert (Hl : forall q, q ∈ l -> q ∈ l ++ [p]) by (intros; apply elem_of_app; by left).
  assert (Hsplit : forall q, q ∈ l ++ [p] -> q ∈ l \/ q = p).
  { intros q [?| ->%list_elem_of_singleton]%elem_of_app; auto. }
  repeat split.
  - destruct (Z.min_spec minX (px p)) as [[_ ->]|[_ ->]]; [exists a|exists p]; auto.
  - intros q [Hq| ->]%Hsplit; [specialize (Hminx q Hq)|]; lia.
  - destruct (Z.min_spec minY (py p)) as [[_ ->]|[_ ->]]; [exists b|exists p]; auto.
  - intros q [Hq| ->]%Hsplit; [specialize (Hminy q Hq)|]; lia.
  - destruct (Z.max_spec maxX (px p)) as [[_ ->]|[_ ->]]; [exists p|exists c]; auto.
  - intros q [Hq| ->]%Hsplit; [specialize (Hmaxx q Hq)|]; lia.
  - destruct (Z.max_spec maxY (py p)) as [[_ ->]|[_ ->]]; [exists p|exists d]; auto.
  - intros q [Hq| ->]%Hsplit; [specialize (Hmaxy q Hq)|]; lia.
Qed.

Lemma bbox_fold_extremes (l seen : list Point) (m : Z * Z * Z * Z) :
  extremes seen m ->
  exists m', foldl bbox_step (Some m) l = Some m' /\ extremes (seen ++ l) m'.
Proof.
  revert seen m. induction l as [|p l IH]; intros seen m Hm.
  - exists m. by rewrite app_nil_r.
  - destruct (extremes_snoc _ _ p Hm) as (m1 & Hstep & Hm1).
    destruct (IH _ _ Hm1) as (m' & Hfold & Hm').
    exists m'.
    change (foldl bbox_step (Some m) (p :: l))
      with (foldl bbox_step (bbox_step (Some m) p) l).
    rewrite Hstep. split; [done|].
    by rewrite <- app_assoc in Hm'.
Qed.

Lemma getBoundingBox_extremes (contour : list Point) :
  contour <> [] ->
  exists minX minY maxX maxY,
    getBoundingBox contour
    = Some {| bx := minX; by_ := minY; bwidth := maxX - minX; bheight := maxY - minY |}
    /\ extremes contour (minX, minY, maxX, maxY).
Proof.
  destruct contour as [|p l]; [done|]. intros _.
  destruct (bbox_fold_extremes l [p] _ (extremes_single p))
    as ([[[minX minY] maxX] maxY] & Hfold & Hext).
  exists minX, minY, maxX, maxY. split; [|done].
  unfold getBoundingBox. change (foldl ?f None (p :: l)) with (foldl bbox_step (bbox_step None p) l).
  simpl bbox_step. by rewrite Hfold.
Qed.

Lemma getBoundingBox_nil : getBoundingBox [] = None.
Proof. reflexivity. Qed.

Lemma getBoundingBox_nonneg (contour : list Point) (b : BBox) :
  getBoundingBox contour = Some b -> 0 <= bwidth b /\ 0 <= bheight b.
Proof.
  destruct contour as [|p l]; [done|].
  destruct (getBoundingBox_extremes (p :: l)) as (minX & minY & maxX & maxY & -> & Hext); [done|].
  intros [= <-]. simpl.
  destruct Hext as ([_ Hminx] & [_ Hminy] & [(c & Hc & <-) _] & [(d & Hd & <-) _]).
  specialize (Hminx c Hc). specialize (Hminy d Hd). lia.
Qed.

(** C10: for a contour with at least one point, [getBoundingBox]
    returns the least x and the least y among the points, and the
    differences between the greatest and the least x and y as width
    and height.  The number of columns (rows) from the least to the
    greatest coordinate is the width (height) plus one, and a contour
    whose points all have the same x (y) gets width (height) zero. *)
Theorem getBoundingBox_min_max (contour : list Point) :
  contour <> [] ->
  exists b, getBoundingBox contour = Some b /\
    ((exists p, p ∈ contour /\ px p = bx b) /\ (forall p, p ∈ contour -> bx b <= px p)) /\
    ((exists p, p ∈ contour /\ py p = by_ b) /\ (forall p, p ∈ contour -> by_ b <= py p)) /\
    ((exists p, p ∈ contour /\ px p = bx b + bwidth b)
     /\ (forall p, p ∈ contour -> px p <= bx b + bwidth b)) /\
    ((exists p, p ∈ contour /\ py p = by_ b + bheight b)
     /\ (forall p, p ∈ contour -> py p <= by_ b + bheight b)) /\
    Z.of_nat (length (range (bx b) (bx b + bwidth b + 1))) = bwidth b + 1 /\
    Z.of_nat (length (range (by_ b) (by_ b + bheight b + 1))) = bheight b + 1 /\
    (forall x0, (forall p, p ∈ contour -> px p = x0) -> bwidth b = 0) /\
    (forall y0, (forall p, p ∈ contour -> py p = y0) -> bheight b = 0).
Proof.
  intros Hne.
  destruct (getBoundingBox_extremes contour Hne)
    as (minX & minY & maxX & maxY & Hbox & Hext).
  pose proof (getBoundingBox_nonneg _ _ Hbox) as [Hw Hh].
  eexists; split; [exact Hbox|]. simpl in *.
  destruct Hext as (Hminx & Hminy & Hmaxx & Hmaxy).
  replace (minX + (maxX - minX)) with maxX by lia.
  replace (minY + (maxY - minY)) with maxY by lia.
  assert (Hlen : forall a n, length (iota a n) = n).
  { intros a n; revert a; induction n; intros; simpl; auto. }
  split_and!; try tauto.
  - unfold range. rewrite Hlen. lia.
  - unfold range. rewrite Hlen. lia.
  - intros x0 Hall.
    destruct Hminx as [(a & Ha & <-) _], Hmaxx as [(c & Hc & <-) _].
    rewrite (Hall a Ha), (Hall c Hc). lia.
  - intros y0 Hall.
    destruct Hminy as [(a & Ha & <-) _], Hmaxy as [(c & Hc & <-) _].
    rewrite (Hall a Ha), (Hall c Hc). lia.
Qed.

(** Witness for C10: a vertical run of three pixels. *)
Lemma getBoundingBox_min_max_witness :
  exists b, getBoundingBox [mkPoint 7 2; mkPoint 7 3; mkPoint 7 4] = Some b
            /\ bwidth b = 0 /\ bheight b = 2.
Proof.
  destruct (getBoundingBox_min_max [mkPoint 7 2; mkPoint 7 3; mkPoint 7 4])
    as (b & Hb & _); [discriminate|].
  exists b. split; [exact Hb|].
  vm_compute in Hb. injection Hb as <-. split; reflexivity.
Defined.

(** ** Shape classifier *)



Lemma classifyContour_Some (imageWidth imageHeight : Z) (c : list Point) (t : Tongue) :
  classifyContour imageWidth imageHeight c = Some t ->
  exists b, getBoundingBox c = Some b /\
    t = {| contour := c; bbox := b; area := bwidth b * bheight b;
           aspectRatio := jsdiv (inject_Z (bwidth b)) (inject_Z (bheight b));
           centerX := (inject_Z (bx b) + inject_Z (bwidth b) / 2)%Q;
           centerY := (inject_Z (by_ b) + inject_Z (bheight b) / 2)%Q;
           confidence :=
             calculateTongueConfidence b (bwidth b * bheight b)
               (jsdiv (inject_Z (bwidth b)) (inject_Z (bheight b))) |} /\
    Qltb (inject_Z (bwidth b * bheight b))
         (inject_Z (imageWidth * imageHeight) * 0.00014) = false /\
    Qltb (inject_Z (imageWidth * imageHeight) * 0.25)
         (inject_Z (bwidth b * bheight b)) = false /\
    js_lt (jsdiv (inject_Z (bwidth b)) (inject_Z (bheight b))) 0.75 = false /\
    js_gt (jsdiv (inject_Z (bwidth b)) (inject_Z (bheight b))) 8 = false /\
    Qltb (inject_Z (bwidth b)) (inject_Z imageWidth * 0.01) = false /\
    Qltb (inject_Z (bheight b)) (inject_Z imageHeight * 0.01) = false.
Proof.
  unfold classifyContour. destruct (getBoundingBox c) as [b|]; [|done].
  repeat (match goal with |- context [if ?x then _ else _] => destruct x eqn:? end; [done|]).
  intros [= <-]. exists b. done.
Qed.


(** On an image of positive size, a box that passes the area test has
    positive width and height. *)
Lemma min_area_positive (imageWidth imageHeight : Z) (b : BBox) :
  0 < imageWidth -> 0 < imageHeight -> 0 <= bwidth b -> 0 <= bheight b ->
  (inject_Z (imageWidth * imageHeight) * 0.00014 <= inject_Z (bwidth b * bheight b))%Q ->
  0 < bwidth b /\ 0 < bheight b.
Proof.
  intros HW HH Hw Hh Hmin.
  assert (0 < imageWidth * imageHeight) as HWH%inject_Z_lt by nia.
  change (inject_Z 0) with 0%Q in HWH.
  assert (inject_Z 0 < inject_Z (bwidth b * bheight b))%Q as Hpos%inject_Z_lt
    by (change (inject_Z 0) with 0%Q; lra).
  nia.
Qed.



(** ** Sorting by confidence *)

Section Sort.
Context {A : Type} (conf : A -> Q).

(** [a] may stand before [b] in a list sorted by descending
    confidence. *)
Definition desc (a b : A) : Prop := (conf b <= conf a)%Q.

Lemma insert_desc_perm (x : A) (l : list A) : insert_desc conf x l ≡ₚ x :: l.
Proof.
  induction l as [|y ys IH]; simpl; [done|].
  destruct (Qle_bool (conf y) (conf x)); [done|].
  rewrite IH. apply Permutation_swap.
Qed.

Lemma sort_desc_perm (l : list A) : sort_desc conf l ≡ₚ l.
Proof.
  induction l as [|x l IH]; simpl; [done|].
  unfold sort_desc in *. simpl. by rewrite insert_desc_perm, IH.
Qed.

Lemma insert_desc_sorted (x : A) (l : list A) :
  StronglySorted desc l -> StronglySorted desc (insert_desc conf x l).
Proof.
  induction l as [|y ys IH]; simpl; intros Hs.
  - repeat constructor.
  - apply StronglySorted_cons in Hs as [Hy Hys].
    destruct (Qle_bool (conf y) (conf x)) eqn:E.
    + apply Qle_bool_iff in E. apply StronglySorted_cons. split.
      * constructor; [done|]. eapply Forall_impl; [exact Hy|].
        unfold desc. intros z Hz. lra.
      * by apply StronglySorted_cons.
    + apply Qle_bool_false in E. apply StronglySorted_cons. split; [|auto].
      rewrite insert_desc_perm. constructor; [|done]. unfold desc. lra.
Qed.

Lemma sort_desc_sorted (l : list A) : StronglySorted desc (sort_desc conf l).
Proof.
  induction l as [|x l IH]; [constructor|].
  unfold sort_desc in *. simpl. by apply insert_desc_sorted.
Qed.

Lemma StronglySorted_sublist (R : A -> A -> Prop) (l k : list A) :
  l `sublist_of` k -> StronglySorted R k -> StronglySorted R l.
Proof.
  induction 1 as [|x l k Hsub IH|x l k Hsub IH]; intros Hs.
  - constructor.
  - apply StronglySorted_cons in Hs as [Hx Hk]. apply StronglySorted_cons.
    split; [|auto]. apply Forall_forall. intros y Hy.
    rewrite Forall_forall in Hx. apply Hx.
    by eapply elem_of_sublist.
  - apply StronglySorted_cons in Hs as [_ Hk]. auto.
Qed.
End Sort.

(** ** Slices *)

Lemma js_slice0_sublist {A} (l : list A) (e : Z) : js_slice0 l e `sublist_of` l.
Proof. apply sublist_take. Qed.

Lemma js_slice0_length {A} (l : list A) (e : Z) :
  0 <= e -> Z.of_nat (length (js_slice0 l e)) <= e.
Proof.
  intros He. unfold js_slice0. rewrite length_take.
  destruct (e <? 0) eqn:E; [apply Z.ltb_lt in E; lia|]. lia.
Qed.

Lemma js_slice0_all {A} (l : list A) (e : Z) :
  Z.of_nat (length l) <= e -> js_slice0 l e = l.
Proof.
  intros He. unfold js_slice0.
  destruct (e <? 0) eqn:E; [apply Z.ltb_lt in E; lia|].
  apply take_ge. lia.
Qed.

(** ** Overlap suppression *)

Lemma calculateDetailedOverlap_sym (b1 b2 : BBox) :
  calculateDetailedOverlap b1 b2 = calculateDetailedOverlap b2 b1.
Proof.
  unfold calculateDetailedOverlap.
  rewrite (Z.max_comm (bx b1)), (Z.max_comm (by_ b1)).
  rewrite (Z.min_comm (bx b1 + _)), (Z.min_comm (by_ b1 + _)).
  rewrite (Z.min_comm (bwidth b1 * _)). reflexivity.
Qed.

Lemma isOverlapping_sym (b1 b2 : BBox) : isOverlapping b1 b2 = isOverlapping b2 b1.
Proof. unfold isOverlapping. by rewrite calculateDetailedOverlap_sym. Qed.

(** The intersection of two boxes and its share of the smaller box, in
    the words of the specification. *)
Definition intersection_area (b1 b2 : BBox) : Z :=
  Z.max 0 (Z.min (bx b1 + bwidth b1) (bx b2 + bwidth b2) - Z.max (bx b1) (bx b2))
  * Z.max 0 (Z.min (by_ b1 + bheight b1) (by_ b2 + bheight b2) - Z.max (by_ b1) (by_ b2)).

Definition overlap_ratio (b1 b2 : BBox) : Q :=
  (inject_Z (intersection_area b1 b2)
   / inject_Z (Z.min (bwidth b1 * bheight b1) (bwidth b2 * bheight b2)))%Q.

(** The percentage is always a number, and for boxes of positive size
    it is the overlap ratio. *)
Lemma overlap_percentage_num (b1 b2 : BBox) :
  exists q, ov_percentage (calculateDetailedOverlap b1 b2) = Num q /\
    (0 < bwidth b1 -> 0 < bheight b1 -> 0 < bwidth b2 -> 0 < bheight b2 ->
     q = overlap_ratio b1 b2 \/ (q = 0%Q /\ intersection_area b1 b2 = 0)).
Proof.
  unfold calculateDetailedOverlap, overlap_ratio, intersection_area.
  set (x1 := Z.max (bx b1) (bx b2)). set (y1 := Z.max (by_ b1) (by_ b2)).
  set (x2 := Z.min (bx b1 + bwidth b1) (bx b2 + bwidth b2)).
  set (y2 := Z.min (by_ b1 + bheight b1) (by_ b2 + bheight b2)).
  destruct ((x2 <=? x1) || (y2 <=? y1)) eqn:E.
  - exists 0%Q. split; [done|]. intros _ _ _ _. right. split; [done|].
    apply orb_true_iff in E as [E|E]; apply Z.leb_le in E; nia.
  - apply orb_false_iff in E as [Ex Ey]. apply Z.leb_gt in Ex, Ey. simpl.
    assert (0 < bwidth b1 /\ 0 < bwidth b2 /\ 0 < bheight b1 /\ 0 < bheight b2)
      as (Hw1 & Hw2 & Hh1 & Hh2) by (subst x1 x2 y1 y2; lia).
    rewrite jsdiv_pos by nia. eexists; split; [done|]. intros _ _ _ _. left.
    rewrite !Z.max_r by lia. done.
Qed.

Lemma not_overlapping_le (b1 b2 : BBox) :
  isOverlapping b1 b2 = false ->
  exists q, ov_percentage (calculateDetailedOverlap b1 b2) = Num q /\ (q <= 0.3)%Q.
Proof.
  unfold isOverlapping. destruct (overlap_percentage_num b1 b2) as (q & -> & _).
  simpl. intros Hq%Qltb_ge. eauto.
Qed.

Lemma removeOverlapping_snoc (l : list Tongue) (t : Tongue) :
  removeOverlappingTongues (l ++ [t]) =
  if existsb (fun existing => isOverlapping (bbox t) (bbox existing))
             (removeOverlappingTongues l)
  then removeOverlappingTongues l
  else removeOverlappingTongues l ++ [t].
Proof. unfold removeOverlappingTongues. by rewrite foldl_app. Qed.

Lemma removeOverlapping_sublist (l : list Tongue) : removeOverlappingTongues l `sublist_of` l.
Proof.
  induction l as [|t l IH] using rev_ind; [done|].
  rewrite removeOverlapping_snoc.
  destruct (existsb _ _).
  - by apply sublist_inserts_r.
  - by apply sublist_app.
Qed.

Lemma existsb_false {A} (f : A -> bool) (l : list A) (x : A) :
  existsb f l = false -> x ∈ l -> f x = false.
Proof.
  intros He Hx. destruct (f x) eqn:E; [|done].
  assert (existsb f l = true); [|congruence].
  apply existsb_exists. exists x. split; [by apply list_elem_of_In|done].
Qed.

Lemma removeOverlapping_pairwise (l : list Tongue) (i j : nat) (a b : Tongue) :
  i <> j ->
  removeOverlappingTongues l !! i = Some a ->
  removeOverlappingTongues l !! j = Some b ->
  isOverlapping (bbox a) (bbox b) = false.
Proof.
  revert i j a b. induction l as [|t l IH] using rev_ind; intros i j a b Hij.
  - done.
  - rewrite removeOverlapping_snoc.
    destruct (existsb _ _) eqn:E; [by apply IH|].
    intros Ha Hb. apply lookup_snoc_Some in Ha, Hb.
    destruct Ha as [[Hi Ha]|[Hi <-]], Hb as [[Hj Hb]|[Hj <-]].
    + by apply (IH i j).
    + rewrite isOverlapping_sym. eapply (existsb_false _ _ a E).
      by eapply list_elem_of_lookup_2.
    + eapply (existsb_false _ _ b E). by eapply list_elem_of_lookup_2.
    + lia.
Qed.

(** C2: any two candidates at different positions of the list that
    overlap suppression returns have an overlap percentage that is a
    number of at most 0.30; for boxes of positive size the percentage
    is the intersection area divided by the smaller box area. *)
Theorem removeOverlapping_overlap_bound (tongues : list Tongue) (i j : nat) (a b : Tongue) :
  i <> j ->
  removeOverlappingTongues tongues !! i = Some a ->
  removeOverlappingTongues tongues !! j = Some b ->
  exists q,
    ov_percentage (calculateDetailedOverlap (bbox a) (bbox b)) = Num q /\
    (q <= 0.3)%Q /\
    (0 < bwidth (bbox a) -> 0 < bheight (bbox a) ->
     0 < bwidth (bbox b) -> 0 < bheight (bbox b) ->
     (q == overlap_ratio (bbox a) (bbox b))%Q).
Proof.
  intros Hij Ha Hb.
  pose proof (removeOverlapping_pairwise _ _ _ _ _ Hij Ha Hb) as Hno.
  destruct (not_overlapping_le _ _ Hno) as (q & Hq & Hle).
  exists q. split; [done|]. split; [done|].
  intros Hwa Hha Hwb Hhb.
  destruct (overlap_percentage_num (bbox a) (bbox b)) as (q' & Hq' & Hspec).
  rewrite Hq in Hq'. injection Hq' as <-.
  destruct (Hspec Hwa Hha Hwb Hhb) as [->|[-> Hzero]]; [reflexivity|].
  unfold overlap_ratio. rewrite Hzero. reflexivity.
Qed.

(** Witness for C2: two boxes that share a fifth of their area are
    both kept. *)
Lemma removeOverlapping_overlap_bound_witness :
  let a := mkTongue [] (mkBBox 0 0 10 10) 100 (Num 1) 5 5 0.5 in
  let b := mkTongue [] (mkBBox 8 0 10 10) 100 (Num 1) 13 5 0.5 in
  exists q, ov_percentage (calculateDetailedOverlap (bbox a) (bbox b)) = Num q
            /\ (q <= 0.3)%Q.
Proof.
  intros a b.
  destruct (removeOverlapping_overlap_bound [a; b] 0 1 a b)
    as (q & Hq & Hle & _); [lia | reflexivity | reflexivity |].
  exists q. split; [exact Hq | exact Hle].
Defined.

(** ** Candidate resolver *)

Lemma classifyContours_omap (imageWidth imageHeight : Z) (contours : list (list Point)) :
  classifyContours imageWidth imageHeight contours
  = omap (classifyContour imageWidth imageHeight) contours.
Proof.
  unfold classifyContours.
  enough (forall acc, foldl (fun tongueShapes contour =>
                               match classifyContour imageWidth imageHeight contour with
                               | Some tongue => tongueShapes ++ [tongue]
                               | None => tongueShapes
                               end) acc contours
                      = acc ++ omap (classifyContour imageWidth imageHeight) contours)
    as H by apply (H []).
  induction contours as [|c cs IH]; intros acc; simpl.
  - by rewrite app_nil_r.
  - rewrite IH. destruct (classifyContour _ _ c); [|done].
    by rewrite <- app_assoc.
Qed.

Lemma filterTongueShapes_sublist (contours : list (list Point))
    (imageWidth imageHeight expectedCount : Z) :
  filterTongueShapes contours imageWidth imageHeight expectedCount
  `sublist_of` sort_desc confidence (classifyContours imageWidth imageHeight contours).
Proof.
  unfold filterTongueShapes.
  etransitivity; [apply js_slice0_sublist|]. apply removeOverlapping_sublist.
Qed.

Lemma filterTongueShapes_elem (contours : list (list Point))
    (imageWidth imageHeight expectedCount : Z) (t : Tongue) :
  t ∈ filterTongueShapes contours imageWidth imageHeight expectedCount ->
  exists c, c ∈ contours /\ classifyContour imageWidth imageHeight c = Some t.
Proof.
  intros Ht. eapply elem_of_sublist in Ht; [|apply filterTongueShapes_sublist].
  rewrite sort_desc_perm, classifyContours_omap in Ht.
  by apply list_elem_of_omap in Ht.
Qed.

Lemma calculateTongueConfidence_range (b : BBox) (a : Z) (r : jsnum) :
  (0.5 <= calculateTongueConfidence b a r)%Q /\ (calculateTongueConfidence b a r <= 1)%Q.
Proof.
  unfold calculateTongueConfidence.
  destruct (js_ge r 2 && js_le r 4), ((1000 <? a) && (a <? 50000));
    split; try apply Q.le_min_l; apply Q.min_glb; done.
Qed.

Lemma maxCandidates_floor (expectedCount : Z) :
  expectedCount + 5 <= Qfloor (maxCandidates expectedCount).
Proof.
  rewrite <- (Qfloor_Z (expectedCount + 5)) at 1. apply Qfloor_resp_le.
  unfold maxCandidates. rewrite inject_Z_plus. apply Q.le_max_r.
Qed.

Lemma Qtrunc_maxCandidates (expectedCount : Z) :
  1 <= expectedCount ->
  Qtrunc (maxCandidates expectedCount) = Qfloor (maxCandidates expectedCount).
Proof.
  intros Hn. unfold Qtrunc.
  destruct (Qle_bool 0 (maxCandidates expectedCount)) eqn:E; [done|].
  apply Qle_bool_false in E.
  assert (inject_Z expectedCount + 5 <= maxCandidates expectedCount)%Q
    by apply Q.le_max_r.
  apply inject_Z_le in Hn. change (inject_Z 1) with 1%Q in Hn. lra.
Qed.

(** What the specification promises of a ranked candidate list. *)
Definition ranked_output {A} (conf : A -> Q) (box : A -> BBox)
    (expectedCount : Z) (out : list A) : Prop :=
  Z.of_nat (length out) <= Qfloor (maxCandidates expectedCount) /\
  StronglySorted (desc conf) out /\
  Forall (fun t => (0 <= conf t)%Q /\ (conf t <= 1)%Q /\
                   0 < bwidth (box t) /\ 0 < bheight (box t)) out.

Lemma filterTongueShapes_ranked (contours : list (list Point))
    (imageWidth imageHeight expectedCount : Z) :
  0 < imageWidth -> 0 < imageHeight -> 1 <= expectedCount ->
  ranked_output confidence bbox expectedCount
    (filterTongueShapes contours imageWidth imageHeight expectedCount).
Proof.
  intros HW HH Hn. split_and!.
  - unfold filterTongueShapes. rewrite Qtrunc_maxCandidates by done.
    apply js_slice0_length. pose proof (maxCandidates_floor expectedCount). lia.
  - eapply StronglySorted_sublist; [apply filterTongueShapes_sublist|].
    apply sort_desc_sorted.
  - apply Forall_forall. intros t (c & _ & Hc)%filterTongueShapes_elem.
    apply classifyContour_Some in Hc as (b & Hb & -> & H1 & _). simpl.
    pose proof (calculateTongueConfidence_range b (bwidth b * bheight b)
                  (jsdiv (inject_Z (bwidth b)) (inject_Z (bheight b)))) as [Hlo Hhi].
    destruct (getBoundingBox_nonneg _ _ Hb) as [Hw Hh].
    apply Qltb_ge in H1.
    destruct (min_area_positive _ _ _ HW HH Hw Hh H1).
    split_and!; try done. lra.
Qed.

Lemma convert_sublist (results : list CvShape) (expectedCount : Z) :
  convertOpenCVResultsToTongueShapes results expectedCount
  `sublist_of` sort_desc cv_confidence results.
Proof.
  unfold convertOpenCVResultsToTongueShapes.
  destruct (_ <? _).
  - etransitivity; [apply js_slice0_sublist|].
    etransitivity; [apply sublist_filter|]. apply js_slice0_sublist.
  - apply js_slice0_sublist.
Qed.

Lemma convert_length (results : list CvShape) (expectedCount : Z) :
  0 <= expectedCount ->
  Z.of_nat (length (convertOpenCVResultsToTongueShapes results expectedCount))
  <= expectedCount + 5.
Proof.
  intros Hn. unfold convertOpenCVResultsToTongueShapes.
  destruct (_ <? _).
  - pose proof (js_slice0_length
        (filter (fun shape => Qle_bool 0.5 (cv_confidence shape) = true)
           (js_slice0 (sort_desc cv_confidence results)
              (Z.min (expectedCount + 5)
                 (Z.of_nat (length (sort_desc cv_confidence results))))))
        expectedCount Hn). lia.
  - etransitivity; [apply js_slice0_length; lia|]. lia.
Qed.

(** ** The detector class *)

Lemma cv_confidence_bounds (area aspectRatio solidity circularity : Q) :
  (fl 0.3 <= OpenCVTongueDetector.calculateTongueConfidence
               area aspectRatio solidity circularity)%Q /\
  (OpenCVTongueDetector.calculateTongueConfidence
     area aspectRatio solidity circularity <= 1)%Q.
Proof.
  unfold OpenCVTongueDetector.calculateTongueConfidence.
  destruct (Qltb (fl 1.2) aspectRatio && Qltb aspectRatio 4), (Qltb (fl 0.8) solidity),
    (Qltb (fl 0.6) solidity), (Qltb (fl 0.2) circularity && Qltb circularity (fl 0.7)),
    (Qltb 500 area && Qltb area 70000);
    vm_compute; split; discriminate.
Qed.

(** The shape a loop turn contributes, if any. *)
Definition turnShape (p : OpenCVTongueDetector.Params)
    (outcome : OpenCVTongueDetector.ContourOutcome) : option CvShape :=
  match OpenCVTongueDetector.co_measure outcome with
  | Ok contour => OpenCVTongueDetector.tongueCandidate p contour
  | Throw _ => None
  end.

Lemma filterTongueContours_snoc p contours outcome :
  OpenCVTongueDetector.filterTongueContours p (contours ++ [outcome])
  = match OpenCVTongueDetector.filterTongueContours p contours with
    | Throw e => Throw e
    | Ok tongueShapes =>
        match OpenCVTongueDetector.co_release outcome with
        | None => Ok (tongueShapes ++ from_option (fun s => [s]) [] (turnShape p outcome))
        | Some e => Throw e
        end
    end.
Proof.
  unfold OpenCVTongueDetector.filterTongueContours. rewrite foldl_app. simpl.
  destruct (foldl _ _ contours) as [shapes|e]; [|done].
  unfold turnShape.
  destruct (OpenCVTongueDetector.co_measure outcome) as [c|e]; simpl.
  - destruct (OpenCVTongueDetector.tongueCandidate p c); simpl; [done|].
    by rewrite app_nil_r.
  - by rewrite app_nil_r.
Qed.

Lemma filterTongueContours_Ok p contours shapes :
  OpenCVTongueDetector.filterTongueContours p contours = Ok shapes <->
  Forall (fun o => OpenCVTongueDetector.co_release o = None) contours /\
  shapes = omap (turnShape p) contours.
Proof.
  revert shapes. induction contours as [|o l IH] using rev_ind; intros shapes.
  - split.
    + intros [= <-]. by split.
    + by intros [_ ->].
  - rewrite filterTongueContours_snoc, Forall_app, Forall_singleton, omap_app.
    destruct (OpenCVTongueDetector.filterTongueContours p l) as [sh|e].
    + destruct (IH sh) as [IH1 _]. destruct (IH1 eq_refl) as [Hrel ->].
      assert (omap (turnShape p) [o] = from_option (fun s => [s]) [] (turnShape p o)) as ->
        by (simpl; by destruct (turnShape p o)).
      destruct (OpenCVTongueDetector.co_release o) as [e|].
      * split; [done|]. by intros [[_ ?] _].
      * split; [intros [= <-]; by split_and!|by intros [_ ->]].
    + split; [done|]. intros [[Hrel _] _].
      destruct (IH (omap (turnShape p) l)) as [_ IH2].
      by specialize (IH2 (conj Hrel eq_refl)).
Qed.

(** A contour passes the filter only with a confidence the detector
    computed and a box of which neither side is 0. *)
Lemma tongueCandidate_sound (contour : OpenCVTongueDetector.Contour) (s : CvShape) :
  OpenCVTongueDetector.tongueCandidate OpenCVTongueDetector.params contour = Some s ->
  (0 <= cv_confidence s)%Q /\ (cv_confidence s <= 1)%Q /\
  0 < bwidth (cv_boundingRect s) /\ 0 < bheight (cv_boundingRect s).
Proof.
  unfold OpenCVTongueDetector.tongueCandidate.
  destruct (Qltb _ _); [done|].
  set (rect := OpenCVTongueDetector.toBBox (OpenCVTongueDetector.c_boundingRect contour)).
  destruct ((bwidth rect =? 0) || (bheight rect =? 0)) eqn:Ezero.
  - replace (Qle_bool (OpenCVTongueDetector.minAspectRatio OpenCVTongueDetector.params) 0)
      with false by (by vm_compute).
    by rewrite !andb_false_r.
  - match goal with |- (if ?b then _ else _) = _ -> _ => destruct b; [|done] end.
    intros [= <-]. cbn [cv_confidence cv_boundingRect].
    apply orb_false_iff in Ezero as [Hw%Z.eqb_neq Hh%Z.eqb_neq].
    assert (0 <= bwidth rect /\ 0 <= bheight rect) as [? ?]
      by (unfold rect, OpenCVTongueDetector.toBBox; simpl; lia).
    split_and!; [|apply cv_confidence_bounds|lia|lia].
    eapply Qle_trans; [|apply cv_confidence_bounds]. by vm_compute.
Qed.

Lemma filterTongueContours_sound contours shapes :
  OpenCVTongueDetector.filterTongueContours OpenCVTongueDetector.params contours
  = Ok shapes ->
  Forall (fun s => (0 <= cv_confidence s)%Q /\ (cv_confidence s <= 1)%Q /\
                   0 < bwidth (cv_boundingRect s) /\
                   0 < bheight (cv_boundingRect s)) shapes.
Proof.
  intros Hf. apply filterTongueContours_Ok in Hf as [_ ->]. apply Forall_forall.
  intros s Hs. apply list_elem_of_omap in Hs as (o & _ & Hturn).
  unfold turnShape in Hturn.
  destruct (OpenCVTongueDetector.co_measure o) as [c|]; [|done].
  by apply tongueCandidate_sound in Hturn.
Qed.

Lemma detectTongueWithOpenCV_sound cvContours cvRelease isReady imageData width height
    results :
  OpenCVTongueDetector.detectTongueWithOpenCV cvContours cvRelease isReady
    imageData width height = Ok results ->
  Forall (fun s => (0 <= cv_confidence s)%Q /\ (cv_confidence s <= 1)%Q /\
                   0 < bwidth (cv_boundingRect s) /\
                   0 < bheight (cv_boundingRect s)) results.
Proof.
  unfold OpenCVTongueDetector.detectTongueWithOpenCV.
  destruct isReady; simpl; [|by intros [= <-]].
  destruct (cvRelease imageData); [done|].
  destruct (cvContours imageData) as [contours|]; [|by intros [= <-]].
  destruct (OpenCVTongueDetector.filterTongueContours _ contours) as [shapes|] eqn:Hf;
    [|by intros [= <-]].
  intros [= <-]. by apply (filterTongueContours_sound contours).
Qed.

Lemma findContoursWith_Ok trace (edgeData : TypedArray) (width height : Z) :
  0 <= width * height < 2 ^ 32 ->
  exists contours, findContoursWith trace edgeData width height = Ok contours.
Proof.
  intros Hwh. unfold findContoursWith, valid_array_length.
  replace ((0 <=? width * height) && (width * height <? 2 ^ 32)) with true; [eauto|].
  symmetry. apply andb_true_iff. split; [apply Z.leb_le|apply Z.ltb_lt]; lia.
Qed.

(** C3: for an image of positive size whose buffer has four bytes per
    pixel and an expected count of at least one, what [detect] returns
    has at most floor(max(1.5 n, n + 5)) candidates, is sorted by
    descending confidence, and every candidate has a confidence within
    [0, 1] and a box of positive width and height; [detect] does return
    when the pixel count is a valid array length.  The same holds for
    what the entry point makes of the shapes of the detector class,
    whatever the library reports to the detector and whether or not it
    throws on the way. *)
Theorem detect_postcondition (pixels : list Z) (width height expectedCount : Z) :
  0 < width -> 0 < height ->
  Z.of_nat (length pixels) = width * height * 4 ->
  1 <= expectedCount ->
  (forall out, detect pixels width height expectedCount = Ok out ->
     ranked_output confidence bbox expectedCount out) /\
  (width * height < 2 ^ 32 ->
     exists out, detect pixels width height expectedCount = Ok out) /\
  (forall cvContours cvRelease isReady imageData results,
     OpenCVTongueDetector.detectTongueWithOpenCV cvContours cvRelease isReady
       imageData width height = Ok results ->
     ranked_output cv_confidence cv_boundingRect expectedCount
       (convertOpenCVResultsToTongueShapes results expectedCount)).
Proof.
  intros HW HH Hlen Hn. split_and!.
  - intros out. unfold detect. destruct (findContours _ _ _) as [contours|e]; [|done].
    intros [= <-]. by apply filterTongueShapes_ranked.
  - intros Hwh. unfold detect, findContours.
    edestruct findContoursWith_Ok as [contours ->]; [|eauto]. nia.
  - intros cvContours cvRelease isReady imageData results Hdet.
    apply detectTongueWithOpenCV_sound in Hdet as Hres. split_and!.
    + pose proof (convert_length results expectedCount).
      pose proof (maxCandidates_floor expectedCount). lia.
    + eapply StronglySorted_sublist; [apply convert_sublist|].
      apply sort_desc_sorted.
    + apply Forall_forall. intros s Hs.
      eapply elem_of_sublist in Hs; [|apply convert_sublist].
      rewrite sort_desc_perm in Hs.
      rewrite Forall_forall in Hres. by apply Hres.
Qed.

(** ** Contour tracer *)

Lemma foldl_invariant {A B} (P : A -> Prop) (f : A -> B -> A) (l : list B) (a : A) :
  P a -> (forall a b, P a -> P (f a b)) -> P (foldl f a l).
Proof.
  intros Ha Hstep. revert a Ha. induction l as [|b l IH]; simpl; auto.
Qed.

Section TraceProperties.
Variables (edgeData : TypedArray) (width height : Z).
Hypothesis edge_size : ta_length edgeData = width * height.

(** A point the tracer may collect: inside the image, with an edge
    value above the threshold. *)
Definition strong_edge (p : Point) : Prop :=
  0 <= px p < width /\ 0 <= py p < height /\
  exists v, ta_get edgeData (py p * width + px p) = Some v /\ threshold < v.

(** The points collected so far are distinct strong edge pixels, all
    marked in [visited]. *)
Definition traced (visited : Zmap bool) (pts : list Point) : Prop :=
  NoDup pts /\
  forall p, p ∈ pts -> strong_edge p /\ truthy visited (py p * width + px p) = true.

Lemma skipped_strong_edge (visited : Zmap bool) (p : Point) :
  skipped edgeData width height threshold visited p = false -> strong_edge p.
Proof.
  intros (Hx & Hy & _ & He)%skipped_false. split; [done|]. split; [done|].
  unfold edge_le, ta_get in *. rewrite edge_size in *.
  assert (0 <= py p * width + px p < width * height) as [H0 H1] by nia.
  apply Z.leb_le in H0. apply Z.ltb_lt in H1. rewrite H0, H1 in *. simpl in *.
  eexists; split; [done|]. by apply Z.leb_gt in He.
Qed.

Lemma traceLoop_traced (stack : list Point) (visited : Zmap bool) (contour : list Point) :
  forall kept,
    traced visited (kept ++ contour) ->
    traced (traceLoop edgeData width height threshold stack visited contour).2
           (kept ++ (traceLoop edgeData width height threshold stack visited contour).1).
Proof.
  apply (traceLoop_elim edgeData width height threshold
           (fun stack visited contour res =>
              forall kept, traced visited (kept ++ contour) ->
                           traced res.2 (kept ++ res.1))).
  - intros v c kept H. done.
  - intros p rest v Hskip c IH _ kept H. by apply IH.
  - intros p rest v Hgo c IH _ kept [Hnd Hpts].
    apply IH. rewrite app_assoc.
    pose proof (skipped_strong_edge _ _ Hgo) as Hedge.
    apply skipped_false in Hgo as (_ & _ & Hv & _).
    split.
    + apply NoDup_app. split; [done|]. split; [|apply NoDup_singleton].
      intros q Hq ->%list_elem_of_singleton.
      destruct (Hpts _ Hq) as [_ Hq']. congruence.
    + intros q [Hq| ->%list_elem_of_singleton]%elem_of_app.
      * destruct (Hpts _ Hq) as [Hs Ht]. split; [done|].
        rewrite truthy_insert_true. by destruct (decide _).
      * split; [done|]. rewrite truthy_insert_true. by rewrite decide_True.
Qed.

(** The state of the raster scan: the contours kept so far are long
    enough and their points are traced. *)
Definition scan_ok (st : list (list Point) * Zmap bool) : Prop :=
  traced st.2 (mjoin st.1) /\ Forall (fun c => (10 < length c)%nat) st.1.

Lemma traced_prefix (visited : Zmap bool) (l k : list Point) :
  traced visited (l ++ k) -> traced visited l.
Proof.
  intros [Hnd Hpts]. split.
  - by apply NoDup_app in Hnd as (? & _ & _).
  - intros p Hp. apply Hpts. apply elem_of_app. by left.
Qed.

Lemma scan_step (st : list (list Point) * Zmap bool) (x y : Z) :
  scan_ok st ->
  scan_ok (let '(contours, visited) := st in
           let index := y * width + x in
           if edge_gt edgeData index threshold && negb (truthy visited index)
           then
             let '(contour, visited) :=
               traceContour edgeData width height threshold x y visited in
             if (10 <? Z.of_nat (length contour))
             then (contours ++ [contour], visited)
             else (contours, visited)
           else (contours, visited)).
Proof.
  destruct st as [contours visited]. intros [Htr Hlen]. simpl in *.
  destruct (_ && _); [|done].
  unfold traceContour.
  pose proof (traceLoop_traced [mkPoint x y] visited [] (mjoin contours)) as H.
  rewrite app_nil_r in H. specialize (H Htr).
  destruct (traceLoop _ _ _ _ _ _ _) as [contour visited']. simpl in H.
  destruct (10 <? Z.of_nat (length contour)) eqn:E; split; simpl.
  - rewrite join_app. simpl. by rewrite app_nil_r.
  - apply Forall_app. split; [done|]. constructor; [|done].
    apply Z.ltb_lt in E. lia.
  - by eapply traced_prefix.
  - done.
Qed.

Lemma findContours_scan_ok (contours : list (list Point)) :
  findContours edgeData width height = Ok contours ->
  NoDup (mjoin contours) /\
  Forall (Forall strong_edge) contours /\
  Forall (fun c => (10 < length c)%nat) contours.
Proof.
  unfold findContours, findContoursWith.
  destruct (valid_array_length _); [|done]. intros [= <-].
  match goal with |- context [foldl ?f ?a ?l] =>
    assert (scan_ok (foldl f a l)) as [[Hnd Hpts] Hlen] end.
  { apply foldl_invariant.
    - split; simpl; [|done]. split; [constructor|]. by intros p ?%elem_of_nil.
    - intros st y Hst. apply foldl_invariant; [done|].
      intros st' x Hst'. destruct st' as [cs v]. by apply (scan_step (cs, v)). }
  split; [done|]. split; [|done].
  apply Forall_forall. intros c Hc. apply Forall_forall. intros p Hp.
  apply Hpts. apply list_elem_of_join. eauto.
Qed.
End TraceProperties.

Lemma NoDup_concat_inv {A} (ls : list (list A)) :
  NoDup (mjoin ls) ->
  (forall l, l ∈ ls -> NoDup l) /\
  (forall i j l k x, i <> j -> ls !! i = Some l -> ls !! j = Some k ->
                     x ∈ l -> x ∉ k).
Proof.
  induction ls as [|l0 ls IH]; simpl; intros Hnd.
  - split; [by intros l ?%elem_of_nil|]. by intros i j l k x _ ?.
  - apply NoDup_app in Hnd as (Hl0 & Hdisj & Hrest).
    destruct (IH Hrest) as [IH1 IH2]. split.
    + intros l [->|Hl]%elem_of_cons; auto.
    + intros i j l k x Hij Hi Hj Hx.
      destruct i as [|i], j as [|j]; simpl in *; try done.
      * injection Hi as <-. intros Hk. apply (Hdisj x Hx).
        apply list_elem_of_join. exists k. split; [done|].
        by eapply list_elem_of_lookup_2.
      * injection Hj as <-. intros Hk. apply (Hdisj x Hk).
        apply list_elem_of_join. exists l. split; [done|].
        by eapply list_elem_of_lookup_2.
      * apply (IH2 i j l k x); auto.
Qed.

(** C9: for an edge map of the size of the image, the contours that
    [findContours] returns have no point twice, neither inside one
    contour nor in two of them; every point lies inside the image and
    has an edge value above 30; and every contour has more than 10
    points.  The call returns whenever the pixel count is a valid array
    length. *)
Theorem findContours_disjoint_strong (edgeData : TypedArray) (width height : Z) :
  ta_length edgeData = width * height ->
  (forall contours, findContours edgeData width height = Ok contours ->
     (forall c, c ∈ contours -> NoDup c) /\
     (forall i j c1 c2 p, i <> j -> contours !! i = Some c1 -> contours !! j = Some c2 ->
                          p ∈ c1 -> p ∉ c2) /\
     (forall c p, c ∈ contours -> p ∈ c ->
        0 <= px p < width /\ 0 <= py p < height /\
        exists v, ta_get edgeData (py p * width + px p) = Some v /\ 30 < v) /\
     (forall c, c ∈ contours -> (10 < length c)%nat)) /\
  (0 <= width * height < 2 ^ 32 ->
     exists contours, findContours edgeData width height = Ok contours).
Proof.
  intros Hsize. split.
  - intros contours Hfc.
    destruct (findContours_scan_ok _ _ _ Hsize _ Hfc) as (Hnd & Hedge & Hlen).
    destruct (NoDup_concat_inv _ Hnd) as [Hnd1 Hdisj].
    split_and!; try done.
    + intros c p Hc Hp. rewrite Forall_forall in Hedge.
      specialize (Hedge c Hc). rewrite Forall_forall in Hedge. apply (Hedge p Hp).
    + intros c Hc. rewrite Forall_forall in Hlen. by apply Hlen.
  - apply findContoursWith_Ok.
Qed.

(** ** Selection sequencer *)

Lemma indexOf_None (x : nat) (l : list nat) : indexOf x l = None <-> x ∉ l.
Proof.
  unfold indexOf. rewrite fmap_None, list_find_None, Forall_forall.
  split; [intros H Hx; by apply (H x)|intros H y Hy ->; done].
Qed.

Lemma indexOf_Some (x : nat) (l : list nat) (k : nat) :
  indexOf x l = Some k -> l !! k = Some x.
Proof.
  unfold indexOf. intros ([k' y] & [Hk [-> _]]%list_find_Some & ->)%fmap_Some.
  done.
Qed.

Lemma selectTongue_selected (i : nat) (st : Selection) :
  i ∈ selectedTongues st -> selectTongue i st = st.
Proof. intros Hi. unfold selectTongue. by rewrite bool_decide_eq_true_2. Qed.

Lemma selectTongue_fresh (i : nat) (st : Selection) :
  i ∉ selectedTongues st ->
  selectedTongues (selectTongue i st) = selectedTongues st ++ [i].
Proof. intros Hi. unfold selectTongue. by rewrite bool_decide_eq_false_2. Qed.

Lemma deselectTongue_unselected (i : nat) (st : Selection) :
  i ∉ selectedTongues st -> deselectTongue i st = st.
Proof. intros Hi%indexOf_None. unfold deselectTongue. by rewrite Hi. Qed.

Lemma deselectTongue_selected (i : nat) (st : Selection) :
  i ∈ selectedTongues st ->
  exists k, selectedTongues st !! k = Some i /\
    selectedTongues (deselectTongue i st) = delete k (selectedTongues st).
Proof.
  intros Hi. unfold deselectTongue.
  destruct (indexOf i (selectedTongues st)) as [k|] eqn:E.
  - exists k. split; [by apply indexOf_Some|done].
  - by apply indexOf_None in E.
Qed.

Lemma NoDup_delete_middle (l : list nat) (k x : nat) :
  NoDup l -> l !! k = Some x -> NoDup (delete k l) /\ x ∉ delete k l.
Proof.
  intros Hnd Hk. rewrite delete_take_drop.
  rewrite <- (take_drop_middle l k x Hk) in Hnd.
  apply NoDup_app in Hnd as (Ht & Hdisj & [Hx Hd]%NoDup_cons).
  split.
  - apply NoDup_app. split; [done|]. split; [|done].
    intros y Hy Hy'. apply (Hdisj y Hy). by apply elem_of_cons; right.
  - apply not_elem_of_app. split; [|done].
    intros Hx'. apply (Hdisj x Hx'). by apply elem_of_cons; left.
Qed.

Lemma selectTongue_NoDup (i : nat) (st : Selection) :
  NoDup (selectedTongues st) -> NoDup (selectedTongues (selectTongue i st)).
Proof.
  intros Hnd. destruct (decide (i ∈ selectedTongues st)) as [Hi|Hi].
  - by rewrite selectTongue_selected.
  - rewrite selectTongue_fresh by done. apply NoDup_app.
    split; [done|]. split; [|apply NoDup_singleton].
    by intros x Hx ->%list_elem_of_singleton.
Qed.

Lemma deselectTongue_NoDup (i : nat) (st : Selection) :
  NoDup (selectedTongues st) -> NoDup (selectedTongues (deselectTongue i st)).
Proof.
  intros Hnd. destruct (decide (i ∈ selectedTongues st)) as [Hi|Hi].
  - destruct (deselectTongue_selected _ _ Hi) as (k & Hk & ->).
    by apply (NoDup_delete_middle _ _ i).
  - by rewrite deselectTongue_unselected.
Qed.

(** The numbering pass, started at position [m]. *)
Definition renumber_from (m : nat) (selected : list nat) (overlays : list OverlayEl) :=
  foldl (fun overlays '(newOrder, selectedTongueIndex) =>
           alter (fun el => {| el_selected := el_selected el;
                               el_number := Some (newOrder + 1)%nat |})
                 selectedTongueIndex overlays)
        overlays (zip (seq m (length selected)) selected).

Lemma renumber_from_other (m : nat) (selected : list nat) (overlays : list OverlayEl) (j : nat) :
  j ∉ selected -> renumber_from m selected overlays !! j = overlays !! j.
Proof.
  revert m overlays. induction selected as [|j0 rest IH]; intros m overlays Hj; [done|].
  apply not_elem_of_cons in Hj as [Hne Hj].
  unfold renumber_from in *. simpl. rewrite IH by done.
  by apply list_lookup_alter_ne.
Qed.

Lemma renumber_from_lookup (m : nat) (selected : list nat) (overlays : list OverlayEl)
    (k j : nat) :
  NoDup selected -> selected !! k = Some j ->
  renumber_from m selected overlays !! j
  = (fun el => {| el_selected := el_selected el;
                  el_number := Some (m + k + 1)%nat |}) <$> overlays !! j.
Proof.
  revert m overlays k. induction selected as [|j0 rest IH]; intros m overlays k Hnd Hk;
    [done|].
  apply NoDup_cons in Hnd as [Hj0 Hnd].
  change (renumber_from m (j0 :: rest) overlays)
    with (renumber_from (S m) rest
            (alter (fun el => {| el_selected := el_selected el;
                                 el_number := Some (m + 1)%nat |}) j0 overlays)).
  destruct k as [|k]; simpl in Hk.
  - injection Hk as ->. rewrite renumber_from_other by done.
    rewrite list_lookup_alter_eq. by rewrite Nat.add_0_r.
  - rewrite (IH _ _ k) by done.
    assert (j0 <> j) by (intros ->; apply Hj0; by eapply list_elem_of_lookup_2).
    rewrite list_lookup_alter_ne by done.
    by replace (S m + k + 1)%nat with (m + S k + 1)%nat by lia.
Qed.

(** After [deselectTongue] every remaining selected tongue shows its
    position, counted from one. *)
Lemma deselectTongue_renumbers (i : nat) (st : Selection) (k j : nat) (el : OverlayEl) :
  NoDup (selectedTongues st) -> i ∈ selectedTongues st ->
  selectedTongues (deselectTongue i st) !! k = Some j ->
  detectionOverlays st !! j = Some el ->
  detectionOverlays (deselectTongue i st) !! j
  = Some {| el_selected := el_selected el; el_number := Some (k + 1)%nat |}.
Proof.
  intros Hnd Hi Hk Hel. unfold deselectTongue in *.
  destruct (indexOf i (selectedTongues st)) as [pos|] eqn:E;
    [|by apply indexOf_None in E].
  apply indexOf_Some in E. simpl in *.
  destruct (NoDup_delete_middle _ _ _ Hnd E) as [Hnd' Hi'].
  change (renumber ?s ?o) with (renumber_from 0 s o).
  rewrite (renumber_from_lookup _ _ _ k j) by done.
  assert (i <> j) by (intros ->; apply Hi'; by eapply list_elem_of_lookup_2).
  rewrite list_lookup_alter_ne by done. by rewrite Hel.
Qed.

(** The operations of the sequencer, and a session of them. *)
Inductive SelectionOp :=
  | OpSelect (i : nat)
  | OpDeselect (i : nat)
  | OpClear.

Definition applyOp (st : Selection) (op : SelectionOp) : Selection :=
  match op with
  | OpSelect i => selectTongue i st
  | OpDeselect i => deselectTongue i st
  | OpClear => clearTongueSelection st
  end.

Definition runOps (ops : list SelectionOp) (st : Selection) : Selection :=
  foldl applyOp st ops.

Lemma runOps_NoDup (ops : list SelectionOp) (st : Selection) :
  NoDup (selectedTongues st) -> NoDup (selectedTongues (runOps ops st)).
Proof.
  intros Hnd. apply (foldl_invariant (fun st => NoDup (selectedTongues st))); [done|].
  intros st' [i|i|] Hst'; simpl.
  - by apply selectTongue_NoDup.
  - by apply deselectTongue_NoDup.
  - constructor.
Qed.

(** C8: [selectTongue] leaves the state as it is when the index is
    selected and appends the index otherwise; [deselectTongue] leaves
    the state as it is when the index is not selected, and otherwise
    removes the index and shows on every remaining selected overlay its
    new position counted from one.  In every state reached from a fresh
    detection the selection has no duplicate, and selecting [a], then
    [b], then deselecting [a] (for different [a] and [b]) leaves [b]
    alone, shown with number 1. *)
Theorem sequencer_select_deselect (i : nat) (st : Selection) :
  NoDup (selectedTongues st) ->
  (i ∈ selectedTongues st -> selectTongue i st = st) /\
  (i ∉ selectedTongues st ->
     selectedTongues (selectTongue i st) = selectedTongues st ++ [i]) /\
  (i ∉ selectedTongues st -> deselectTongue i st = st) /\
  (i ∈ selectedTongues st ->
     (i ∉ selectedTongues (deselectTongue i st)) /\
     (exists k, selectedTongues st !! k = Some i /\
        selectedTongues (deselectTongue i st) = delete k (selectedTongues st)) /\
     (forall k j el,
        selectedTongues (deselectTongue i st) !! k = Some j ->
        detectionOverlays st !! j = Some el ->
        detectionOverlays (deselectTongue i st) !! j
        = Some {| el_selected := el_selected el; el_number := Some (k + 1)%nat |})) /\
  (forall ops n, NoDup (selectedTongues (runOps ops (freshSelection n)))) /\
  (forall a b n, a <> b ->
     let st' := runOps [OpSelect a; OpSelect b; OpDeselect a] (freshSelection n) in
     selectedTongues st' = [b] /\
     ((b < n)%nat ->
      detectionOverlays st' !! b
      = Some {| el_selected := true; el_number := Some 1%nat |})).
Proof.
  intros Hnd. split_and!.
  - apply selectTongue_selected.
  - apply selectTongue_fresh.
  - apply deselectTongue_unselected.
  - intros Hi. split_and!.
    + destruct (deselectTongue_selected _ _ Hi) as (k & Hk & ->).
      by apply (NoDup_delete_middle _ _ i).
    + by apply deselectTongue_selected.
    + intros k j el. by apply deselectTongue_renumbers.
  - intros ops n. apply runOps_NoDup. constructor.
  - intros a b n Hab st'.
    set (s1 := selectTongue a (freshSelection n)).
    set (s2 := selectTongue b s1).
    assert (Hs1 : selectedTongues s1 = [a]) by (apply selectTongue_fresh, not_elem_of_nil).
    assert (Hs2 : selectedTongues s2 = [a; b]).
    { unfold s2. rewrite selectTongue_fresh; rewrite Hs1; [done|].
      by intros ->%list_elem_of_singleton. }
    assert (Hnd2 : NoDup (selectedTongues s2)).
    { rewrite Hs2. apply NoDup_cons. split; [|apply NoDup_singleton].
      by intros ->%list_elem_of_singleton. }
    assert (Ha2 : a ∈ selectedTongues s2) by (rewrite Hs2; left).
    assert (Hsel : selectedTongues st' = [b]).
    { change st' with (deselectTongue a s2). unfold deselectTongue.
      destruct (indexOf a (selectedTongues s2)) as [k|] eqn:E;
        [|by apply indexOf_None in E].
      apply indexOf_Some in E. rewrite Hs2 in E |- *. simpl.
      destruct k as [|[|k]]; simpl in E; [done| |done].
      injection E as ->. done. }
    split; [done|]. intros Hb.
    change st' with (deselectTongue a s2).
    assert (Hel : detectionOverlays s2 !! b
                  = Some {| el_selected := true; el_number := Some 2%nat |}).
    { unfold s2, selectTongue. rewrite bool_decide_eq_false_2
        by (rewrite Hs1; by intros ->%list_elem_of_singleton).
      simpl. rewrite list_lookup_alter_eq.
      rewrite list_lookup_alter_ne by done.
      rewrite lookup_replicate_2 by done. done. }
    rewrite (deselectTongue_renumbers a s2 0 b
               {| el_selected := true; el_number := Some 2%nat |} Hnd2 Ha2);
      [done| |exact Hel].
    change (deselectTongue a s2) with st'. by rewrite Hsel.
Qed.

(** Witness for C8: tongues 0 and 1 of a detection with two overlays. *)
Lemma sequencer_select_deselect_witness :
  selectedTongues (runOps [OpSelect 0%nat; OpSelect 1%nat; OpDeselect 0%nat]
                          (freshSelection 2)) = [1%nat].
Proof.
  destruct (sequencer_select_deselect 0%nat (freshSelection 2))
    as (_ & _ & _ & _ & _ & Hscenario); [constructor|].
  destruct (Hscenario 0%nat 1%nat 2%nat) as [Hsel _]; [lia|]. exact Hsel.
Defined.

(** ** Fallback generator *)

Lemma length_iota (a : Z) (n : nat) : length (iota a n) = n.
Proof. revert a; induction n; intros; simpl; auto. Qed.


Lemma length_range (a b : Z) : length (range a b) = Z.to_nat (b - a).
Proof. apply length_iota. Qed.


Lemma createFallback_length (width height expectedCount : Z) :
  length (createFallbackTongueDetection width height expectedCount)
  = Z.to_nat expectedCount.
Proof.
  unfold createFallbackTongueDetection.
  rewrite length_fmap, length_range. f_equal. lia.
Qed.





(** ** Detection entry point *)

Lemma convert_nil (expectedCount : Z) :
  convertOpenCVResultsToTongueShapes [] expectedCount = [].
Proof.
  pose proof (convert_sublist [] expectedCount) as H.
  by apply sublist_nil_r in H.
Qed.

(** C1, as the code has it: the entry point checks no shape and has no
    error of its own.  Without a detector it returns the empty list
    whatever the image; with one, an error of the canvas read reaches
    the caller and the detector is not called, and once the pixels are
    read the call returns a list, whatever the width, the height and
    the length of the buffer. *)
Theorem detectDrumTongues_no_shape_check
    (canvas : Image -> result ImageData) (detector : Detector)
    (img : Image) (expectedCount : Z) :
  detectDrumTongues canvas None img expectedCount = Ok [] /\
  (forall e, canvas img = Throw e ->
     forall detector', detectDrumTongues canvas (Some detector') img expectedCount = Throw e) /\
  (forall imageData, canvas img = Ok imageData ->
     exists shapes,
       detectDrumTongues canvas (Some detector) img expectedCount = Ok shapes).
Proof.
  split_and!.
  - done.
  - intros e He detector'. unfold detectDrumTongues. by rewrite He.
  - intros imageData Hd. unfold detectDrumTongues. rewrite Hd.
    destruct (detector _ _ _); eauto.
Qed.

(** Witness for C1 as amended: a 2 by 2 image whose buffer has three
    bytes. *)
Lemma detectDrumTongues_no_shape_check_witness :
  exists shapes,
    detectDrumTongues readCanvas (Some (fun _ _ _ => Ok [])) (mkImage 2 2 [0; 0; 0]) 15
    = Ok shapes.
Proof.
  destruct (detectDrumTongues_no_shape_check readCanvas (fun _ _ _ => Ok [])
              (mkImage 2 2 [0; 0; 0]) 15) as (_ & _ & Hret).
  exact (Hret _ eq_refl).
Defined.

(** Counterexample to C1: an image of width and height 0, no detector
    initialised; the call returns the empty list and raises nothing. *)
Lemma detectDrumTongues_shape_counterexample :
  let img := mkImage 0 0 [7] in
  img_width img <= 0 /\ img_height img <= 0 /\
  Z.of_nat (length (img_pixels img)) <> img_width img * img_height img * 4 /\
  detectDrumTongues readCanvas None img 15 = Ok [].
Proof. simpl. split_and!; try lia. reflexivity. Qed.

(** C6, as the code has it: when the detector throws, the entry point
    returns the fallback arrangement; when it returns shapes, the entry
    point returns their conversion, in which nothing is a fallback; in
    particular an empty result stays empty, and so does the result
    without a detector, and the caller then reports that no tongues
    were detected. *)
Theorem fallback_only_on_throw
    (canvas : Image -> result ImageData) (detector : Detector)
    (img : Image) (imageData : ImageData) (expectedCount : Z) :
  canvas img = Ok imageData ->
  (forall e, detector imageData (img_width img) (img_height img) = Throw e ->
     detectDrumTongues canvas (Some detector) img expectedCount
     = Ok (Fallback <$> createFallbackTongueDetection (img_width img) (img_height img)
                                                    expectedCount)) /\
  (forall results, detector imageData (img_width img) (img_height img) = Ok results ->
     detectDrumTongues canvas (Some detector) img expectedCount
     = Ok (Detected <$> convertOpenCVResultsToTongueShapes results expectedCount) /\
     Forall (fun s => isFallback s = false)
            (Detected <$> convertOpenCVResultsToTongueShapes results expectedCount)) /\
  (detector imageData (img_width img) (img_height img) = Ok [] ->
     detectDrumTongues canvas (Some detector) img expectedCount = Ok [] /\
     forall photo,
       runInteractiveTongueDetection canvas (Some detector) (Some img) (Some photo)
                                     expectedCount = AlertNoTongues) /\
  (forall photo,
     runInteractiveTongueDetection canvas None (Some img) (Some photo) expectedCount
     = AlertNoTongues).
Proof.
  intros Hd. split_and!.
  - intros e He. unfold detectDrumTongues. by rewrite Hd, He.
  - intros results Hr. unfold detectDrumTongues. rewrite Hd, Hr. split; [done|].
    apply Forall_fmap, Forall_forall. done.
  - intros Hr.
    assert (detectDrumTongues canvas (Some detector) img expectedCount = Ok []) as Hres.
    { unfold detectDrumTongues. by rewrite Hd, Hr, convert_nil. }
    split; [done|]. intros photo. unfold runInteractiveTongueDetection. by rewrite Hres.
  - done.
Qed.

(** Witness for C6 as amended: a detector that throws, on a 2 by 2
    image. *)
Lemma fallback_only_on_throw_witness :
  detectDrumTongues readCanvas (Some (fun _ _ _ => Throw (ExternalError "cv")))
                    (mkImage 2 2 (replicate 16 0)) 8
  = Ok (Fallback <$> createFallbackTongueDetection 2 2 8).
Proof.
  destruct (fallback_only_on_throw readCanvas
              (fun _ _ _ => Throw (ExternalError "cv"))
              (mkImage 2 2 (replicate 16 0)) _ 8 eq_refl) as (Hthrow & _).
  exact (Hthrow _ eq_refl).
Defined.

(** Counterexample to C6: the detector returns the empty set; the
    entry point returns the empty list, not the eight placeholders of
    the fallback arrangement, and the caller reports that no tongues
    were detected. *)
Lemma fallback_on_empty_counterexample :
  let img := mkImage 2 2 (replicate 16 0) in
  let detector : Detector := fun _ _ _ => Ok [] in
  detectDrumTongues readCanvas (Some detector) img 8 = Ok [] /\
  length (createFallbackTongueDetection 2 2 8) = 8%nat /\
  runInteractiveTongueDetection readCanvas (Some detector) (Some img) (Some "photo") 8
  = AlertNoTongues.
Proof.
  intros img detector. split_and!.
  - reflexivity.
  - by rewrite createFallback_length.
  - reflexivity.
Qed.

(** ** The rectangle scenario *)

Lemma foldl_ext_fun {A B} (f g : A -> B -> A) (l : list B) (a : A) :
  (forall a b, f a b = g a b) -> foldl f a l = foldl g a l.
Proof.
  intros Hfg. revert a. induction l as [|b l IH]; intros a; simpl; [done|].
  by rewrite Hfg, IH.
Qed.

Lemma findContoursWith_ext trace1 trace2 (edgeData : TypedArray) (width height : Z) :
  (forall x y visited, trace1 x y visited = trace2 x y visited) ->
  findContoursWith trace1 edgeData width height
  = findContoursWith trace2 edgeData width height.
Proof.
  intros Heq. unfold findContoursWith. destruct (valid_array_length _); [|done].
  do 2 f_equal. apply foldl_ext_fun. intros st y.
  apply foldl_ext_fun. intros [contours visited] x. by rewrite Heq.
Qed.

Section TraceFuelProperties.
Variables (edgeData : TypedArray) (width height threshold : Z).

Lemma traceLoop_cons (p : Point) (rest : list Point) (visited : Zmap bool)
    (contour : list Point) :
  traceLoop edgeData width height threshold (p :: rest) visited contour
  = if skipped edgeData width height threshold visited p
    then traceLoop edgeData width height threshold rest visited contour
    else traceLoop edgeData width height threshold
           (rev (neighbours p) ++ rest)
           (<[py p * width + px p := true]> visited) (contour ++ [p]).
Proof.
  revert p rest visited contour.
  enough (forall stack visited contour,
    (fun stack visited contour res =>
              match stack with
              | [] => True
              | p :: rest =>
                  res = if skipped edgeData width height threshold visited p
                        then traceLoop edgeData width height threshold rest visited contour
                        else traceLoop edgeData width height threshold
                               (rev (neighbours p) ++ rest)
                               (<[py p * width + px p := true]> visited) (contour ++ [p])
              end) stack visited contour
      (traceLoop edgeData width height threshold stack visited contour)) as H
    by (intros p rest visited contour; apply (H (p :: rest) visited contour)).
  intros stack visited contour.
  funelim (traceLoop edgeData width height threshold stack visited contour).
  - done.
  - by rewrite e.
  - by rewrite Hgo.
Qed.

Lemma unvisited_le (n : Z) (visited : Zmap bool) :
  (unvisited n visited <= Z.to_nat n)%nat.
Proof.
  unfold unvisited. etransitivity; [apply length_filter|].
  rewrite length_range. lia.
Qed.

(** The step budget is never used up. *)
Lemma traceLoopFuel_enough (fuel : nat) (stack : list Point) (visited : Zmap bool)
    (contour : list Point) :
  (length stack + 9 * unvisited (width * height) visited <= fuel)%nat ->
  traceLoopFuel edgeData width height threshold fuel stack visited contour
  = Some (traceLoop edgeData width height threshold stack visited contour).
Proof.
  revert stack visited contour.
  induction fuel as [|fuel IH]; intros stack visited contour Hfuel.
  - destruct stack; [|simpl in Hfuel; lia]. simpl. by simp traceLoop.
  - destruct stack as [|p rest]; [simpl; by simp traceLoop|].
    rewrite traceLoop_cons. simpl.
    destruct (skipped edgeData width height threshold visited p) eqn:E.
    + apply IH. simpl in Hfuel. lia.
    + apply IH. apply skipped_false in E as (Hx & Hy & Hv & _).
      assert (Hidx : 0 <= py p * width + px p < width * height) by nia.
      pose proof (unvisited_mark _ _ _ Hidx Hv).
      simpl in *. lia.
Qed.

Lemma traceContourFuel_eq (x y : Z) (visited : Zmap bool) :
  traceContourFuel edgeData width height threshold x y visited
  = traceContour edgeData width height threshold x y visited.
Proof.
  unfold traceContourFuel, traceContour. rewrite traceLoopFuel_enough; [done|].
  pose proof (unvisited_le (width * height) visited). simpl. lia.
Qed.
End TraceFuelProperties.

Lemma detectFuel_eq (pixels : list Z) (width height expectedCount : Z) :
  detectFuel pixels width height expectedCount
  = detect pixels width height expectedCount.
Proof.
  unfold detectFuel, detect, findContours.
  erewrite findContoursWith_ext; [done|]. intros. apply traceContourFuel_eq.
Qed.

Lemma findContours_fuel (edgeData : TypedArray) (width height : Z) :
  findContours edgeData width height
  = findContoursWith (traceContourFuel edgeData width height threshold)
                     edgeData width height.
Proof.
  unfold findContours. apply findContoursWith_ext. intros. symmetry.
  apply traceContourFuel_eq.
Qed.

(** An edge map of 9 by 3 pixels: two blocks of strong edges, four
    columns wide, on either side of a column without edges. *)
Definition sampleEdges : TypedArray :=
  ta_of_list (mjoin (replicate 3 [255; 255; 255; 255; 0; 255; 255; 255; 255])).

Definition sampleContours : list (list Point) :=
  Eval vm_compute in
    match findContoursWith (traceContourFuel sampleEdges 9 3 threshold) sampleEdges 9 3 with
    | Ok contours => contours
    | Throw _ => []
    end.

Lemma sampleContours_found : findContours sampleEdges 9 3 = Ok sampleContours.
Proof. rewrite findContours_fuel. by vm_compute. Qed.

(** Witness for C9: the two blocks of the sample edge map come back as
    two contours of twelve points each. *)
Lemma findContours_disjoint_strong_witness :
  exists c1 c2,
    findContours sampleEdges 9 3 = Ok [c1; c2] /\
    length c1 = 12%nat /\ length c2 = 12%nat /\
    NoDup c1 /\ NoDup c2 /\
    (forall p, p ∈ c1 -> p ∉ c2) /\
    (forall p, p ∈ c1 ++ c2 ->
       0 <= px p < 9 /\ 0 <= py p < 3 /\
       exists v, ta_get sampleEdges (py p * 9 + px p) = Some v /\ 30 < v).
Proof.
  destruct (findContours_disjoint_strong sampleEdges 9 3) as [Hprop _];
    [reflexivity|].
  pose proof sampleContours_found as Hfc.
  destruct (Hprop _ Hfc) as (Hnd & Hdisj & Hstrong & _).
  unfold sampleContours in Hfc, Hnd, Hdisj, Hstrong.
  eexists _, _. split; [exact Hfc|].
  split; [reflexivity|]. split; [reflexivity|].
  split; [apply Hnd; constructor|]. split; [apply Hnd; do 2 constructor|].
  split.
  - intros p. by apply (Hdisj 0%nat 1%nat).
  - intros p Hp. apply elem_of_app in Hp as [Hp|Hp].
    + eapply Hstrong; [|exact Hp]. constructor.
    + eapply Hstrong; [|exact Hp]. do 2 constructor.
Defined.

(** The synthetic image of the scenario: 100 by 100 pixels, opaque
    black, with an opaque white rectangle of 20 by 10 pixels on the
    columns 40 to 59 and the rows 45 to 54. *)
Definition rectangleImage : list Z :=
  mjoin ((fun y =>
            mjoin ((fun x =>
                      if (40 <=? x) && (x <? 60) && (45 <=? y) && (y <? 55)
                      then [255; 255; 255; 255]
                      else [0; 0; 0; 255]) <$> range 0 100)) <$> range 0 100).

(** The candidates of an image before the cut to the expected count. *)
Definition resolvedFuel (pixels : list Z) (width height : Z) : result (list Tongue) :=
  let gray := convertToGrayscale (ta_of_list pixels) in
  let blurred := applyGaussianBlur gray width height in
  let edges := applySobelEdgeDetection blurred width height in
  match findContoursWith (traceContourFuel edges width height threshold)
                         edges width height with
  | Ok contours =>
      Ok (removeOverlappingTongues
            (sort_desc confidence (classifyContours width height contours)))
  | Throw e => Throw e
  end.

Lemma detect_resolved (pixels : list Z) (width height expectedCount : Z) :
  detect pixels width height expectedCount
  = match resolvedFuel pixels width height with
    | Ok resolved => Ok (js_slice0 resolved (Qtrunc (maxCandidates expectedCount)))
    | Throw e => Throw e
    end.
Proof.
  rewrite <- detectFuel_eq. unfold detectFuel, resolvedFuel.
  by destruct (findContoursWith _ _ _ _).
Qed.

(** What is read off a result with exactly one candidate. *)
Definition summary (r : result (list Tongue)) :=
  match r with
  | Ok [t] => Some (bbox t, area t, aspectRatio t, confidence t, length (contour t))
  | _ => None
  end.

Lemma summary_Some (r : result (list Tongue)) s :
  summary r = Some s ->
  exists t, r = Ok [t] /\
    s = (bbox t, area t, aspectRatio t, confidence t, length (contour t)).
Proof.
  destruct r as [[|t [|]]|]; try discriminate. intros [= <-]. eauto.
Qed.

(** The one candidate of the rectangle image: the traced edge band
    reaches two pixels beyond the rectangle on each side. *)
Lemma rectangle_summary :
  summary (resolvedFuel rectangleImage 100 100)
  = Some ({| bx := 38; by_ := 43; bwidth := 23; bheight := 13 |},
          299, Num (23 # 13), 0.5%Q, 236%nat).
Proof. vm_compute. reflexivity. Qed.

Lemma rectangle_resolved :
  exists t, resolvedFuel rectangleImage 100 100 = Ok [t] /\
    bbox t = {| bx := 38; by_ := 43; bwidth := 23; bheight := 13 |} /\
    area t = 299 /\ aspectRatio t = Num (23 # 13) /\
    confidence t = 0.5%Q /\ length (contour t) = 236%nat.
Proof.
  destruct (summary_Some _ _ rectangle_summary) as (t & Hres & Heq).
  exists t. split; [exact Hres|]. clear Hres.
  injection Heq as <- <- <- <- <-. repeat split; reflexivity.
Qed.

Lemma rectangle_detect (expectedCount : Z) :
  1 <= expectedCount ->
  exists t, detect rectangleImage 100 100 expectedCount = Ok [t] /\
    bbox t = {| bx := 38; by_ := 43; bwidth := 23; bheight := 13 |} /\
    confidence t = 0.5%Q.
Proof.
  intros Hn. destruct rectangle_resolved as (t & Hres & Hbox & _ & _ & Hconf & _).
  exists t. rewrite detect_resolved, Hres. clear Hres.
  split_and!; try done. f_equal. apply js_slice0_all. rewrite Qtrunc_maxCandidates by done.
  pose proof (maxCandidates_floor expectedCount). simpl. lia.
Qed.

Lemma rectangleImage_length : Z.of_nat (length rectangleImage) = 100 * 100 * 4.
Proof. by vm_compute. Qed.

(** A contour of area 1200 in a box of 40 by 30, as the library could
    report it, and the shape the filter makes of it. *)
Definition sampleOutcome : OpenCVTongueDetector.ContourOutcome :=
  {| OpenCVTongueDetector.co_measure :=
       Ok {| OpenCVTongueDetector.c_area := 1200;
             OpenCVTongueDetector.c_perimeter := 140;
             OpenCVTongueDetector.c_boundingRect :=
               OpenCVTongueDetector.mkRect 10 20 40 30;
             OpenCVTongueDetector.c_hullArea := 1250 |};
     OpenCVTongueDetector.co_release := None |}.

Definition sampleShapes : list CvShape :=
  Eval vm_compute in omap (turnShape OpenCVTongueDetector.params) [sampleOutcome].

Lemma sample_detected (imageData : ImageData) (width height : Z) :
  OpenCVTongueDetector.detectTongueWithOpenCV
    (fun _ => Ok [sampleOutcome]) (fun _ => None) true imageData width height
  = Ok sampleShapes.
Proof. reflexivity. Qed.

Lemma sample_converted : length (convertOpenCVResultsToTongueShapes sampleShapes 15) = 1%nat.
Proof. reflexivity. Qed.

(** Witness for C3: the rectangle image, for which [detect] returns one
    candidate of confidence 0.5 with a box of 23 by 13, and a detector
    run in which the library reports one contour, which the entry point
    keeps. *)
Lemma detect_postcondition_witness :
  (exists t, detect rectangleImage 100 100 15 = Ok [t] /\
             confidence t = 0.5%Q /\ bwidth (bbox t) = 23 /\ bheight (bbox t) = 13 /\
             ranked_output confidence bbox 15 [t]) /\
  length (convertOpenCVResultsToTongueShapes sampleShapes 15) = 1%nat /\
  ranked_output cv_confidence cv_boundingRect 15
    (convertOpenCVResultsToTongueShapes sampleShapes 15).
Proof.
  destruct (detect_postcondition rectangleImage 100 100 15)
    as (Hout & _ & Hcv); [lia | lia | exact rectangleImage_length | lia |].
  split_and!.
  - destruct (rectangle_detect 15) as (t & Hdet & Hbox & Hconf); [lia|].
    exists t.
    refine (conj Hdet (conj Hconf (conj _ (conj _ (Hout _ Hdet))))).
    + rewrite Hbox. reflexivity.
    + rewrite Hbox. reflexivity.
  - exact sample_converted.
  - exact (Hcv _ _ _ (mkImageData (ta_new 0) 100 100) _
             (sample_detected (mkImageData (ta_new 0) 100 100) 100 100)).
Defined.

(** C5, as the code has it: the pipeline, run on the rectangle image
    with any expected count of at least one, returns exactly one
    candidate; its box is x = 38, y = 43, width 23, height 13, its
    aspect ratio 23/13 is below 2 and its confidence is 0.5. *)
Theorem rectangle_scenario (expectedCount : Z) :
  1 <= expectedCount ->
  exists t, detect rectangleImage 100 100 expectedCount = Ok [t] /\
    bbox t = {| bx := 38; by_ := 43; bwidth := 23; bheight := 13 |} /\
    aspectRatio t = Num (23 # 13) /\ js_ge (aspectRatio t) 2 = false /\
    confidence t = 0.5%Q.
Proof.
  intros Hn. destruct rectangle_resolved as (t & Hres & Hbox & _ & Hratio & Hconf & _).
  exists t. rewrite detect_resolved, Hres, Hratio. clear Hres.
  split_and!; try done. f_equal. apply js_slice0_all. rewrite Qtrunc_maxCandidates by done.
  pose proof (maxCandidates_floor expectedCount). simpl. lia.
Qed.

(** Witness for C5 as amended: the default expected count. *)
Lemma rectangle_scenario_witness :
  exists t, detect rectangleImage 100 100 15 = Ok [t] /\ confidence t = 0.5%Q.
Proof.
  destruct (rectangle_scenario 15) as (t & Hdet & _ & _ & _ & Hconf); [lia|].
  exists t. split; [exact Hdet | exact Hconf].
Defined.

(** Counterexample to C5: on the rectangle image the one candidate has
    a confidence below 0.8, and its box is not the rectangle. *)
Lemma rectangle_confidence_counterexample :
  exists t, detect rectangleImage 100 100 15 = Ok [t] /\
    (confidence t < 0.8)%Q /\
    bbox t <> {| bx := 40; by_ := 45; bwidth := 20; bheight := 10 |}.
Proof.
  destruct rectangle_resolved as (t & Hres & Hbox & _ & _ & Hconf & _).
  exists t. rewrite detect_resolved, Hres, Hbox, Hconf. clear Hres.
  split_and!; done.
Qed.

(* ================================================================= *)
(** * Further properties of the code *)

(** ** Overlap of two boxes *)

(** The overlap percentage of any two boxes is a number between 0 and
    1; it is 1 for a box of positive size against itself, and 0 for two
    boxes of which one lies to the right of or below the other. *)
Theorem overlap_percentage_range (b1 b2 : BBox) :
  (exists q, ov_percentage (calculateDetailedOverlap b1 b2) = Num q
             /\ (0 <= q)%Q /\ (q <= 1)%Q) /\
  (0 < bwidth b1 -> 0 < bheight b1 ->
   exists q, ov_percentage (calculateDetailedOverlap b1 b1) = Num q /\ (q == 1)%Q) /\
  (bx b1 + bwidth b1 <= bx b2 \/ by_ b1 + bheight b1 <= by_ b2 ->
   calculateDetailedOverlap b1 b2 = {| ov_area := 0; ov_percentage := Num 0 |}).
Proof.
  split_and!.
  - unfold calculateDetailedOverlap.
    set (x1 := Z.max (bx b1) (bx b2)). set (y1 := Z.max (by_ b1) (by_ b2)).
    set (x2 := Z.min (bx b1 + bwidth b1) (bx b2 + bwidth b2)).
    set (y2 := Z.min (by_ b1 + bheight b1) (by_ b2 + bheight b2)).
    destruct ((x2 <=? x1) || (y2 <=? y1)) eqn:E.
    + exists 0%Q. simpl. split_and!; done.
    + apply orb_false_iff in E as [Ex Ey]. apply Z.leb_gt in Ex, Ey. simpl.
      assert (0 < bwidth b1 /\ 0 < bwidth b2 /\ 0 < bheight b1 /\ 0 < bheight b2)
        as (Hw1 & Hw2 & Hh1 & Hh2) by (subst x1 x2 y1 y2; lia).
      set (m := Z.min (bwidth b1 * bheight b1) (bwidth b2 * bheight b2)).
      assert (0 < m) as Hm by (subst m; nia).
      assert ((x2 - x1) * (y2 - y1) <= m) as Hle.
      { assert (x2 - x1 <= bwidth b1 /\ x2 - x1 <= bwidth b2
                /\ y2 - y1 <= bheight b1 /\ y2 - y1 <= bheight b2)
          as (? & ? & ? & ?) by (subst x1 x2 y1 y2; lia).
        subst m. apply Z.min_glb; nia. }
      rewrite jsdiv_pos by done. eexists; split; [done|].
      assert (0 < inject_Z m)%Q as HmQ by (apply inject_Z_lt in Hm; exact Hm).
      split.
      * apply Qle_shift_div_l; [done|]. rewrite Qmult_0_l.
        assert (0 <= (x2 - x1) * (y2 - y1)) by (apply Z.mul_nonneg_nonneg; lia).
        unfold Qle. simpl. lia.
      * apply Qle_shift_div_r; [done|]. rewrite Qmult_1_l.
        unfold Qle. simpl. lia.
  - intros Hw Hh. unfold calculateDetailedOverlap.
    rewrite !Z.max_id, !Z.min_id.
    replace ((bx b1 + bwidth b1 <=? bx b1) || (by_ b1 + bheight b1 <=? by_ b1))
      with false
      by (symmetry; apply orb_false_iff; split; apply Z.leb_gt; lia).
    simpl. rewrite jsdiv_pos by nia. eexists; split; [done|].
    replace ((bx b1 + bwidth b1 - bx b1) * (by_ b1 + bheight b1 - by_ b1))
      with (bwidth b1 * bheight b1) by lia.
    apply Qmult_inv_r. intros H. unfold Qeq in H. simpl in H. nia.
  - intros Hsep. unfold calculateDetailedOverlap.
    replace (_ || _) with true; [done|].
    symmetry. apply orb_true_iff. destruct Hsep; [left|right]; apply Z.leb_le; lia.
Qed.

(** ** Overlap suppression *)

Lemma removeOverlapping_fixed (l : list Tongue) :
  (forall i j a b, i <> j -> l !! i = Some a -> l !! j = Some b ->
                   isOverlapping (bbox a) (bbox b) = false) ->
  removeOverlappingTongues l = l.
Proof.
  induction l as [|t l IH] using rev_ind; intros Hpair; [done|].
  rewrite removeOverlapping_snoc, IH.
  - replace (existsb _ l) with false; [done|].
    symmetry. apply not_true_is_false. intros (k & Hk & Hov)%existsb_exists.
    apply list_elem_of_In, list_elem_of_lookup_1 in Hk as [i Hi].
    rewrite (Hpair (length l) i t k) in Hov; [done| | |].
    + apply lookup_lt_Some in Hi. lia.
    + by rewrite list_lookup_middle.
    + by rewrite lookup_app_l by (by eapply lookup_lt_Some).
  - intros i j a b Hij Ha Hb. apply (Hpair i j); [done| |].
    + by rewrite lookup_app_l by (by eapply lookup_lt_Some).
    + by rewrite lookup_app_l by (by eapply lookup_lt_Some).
Qed.

(** Overlap suppression only removes: the kept tongues are the input
    with some entries left out, in the same order, and the first tongue
    is always kept.  Running it on its own result changes nothing. *)
Theorem removeOverlapping_sublist_idempotent (tongues : list Tongue) :
  removeOverlappingTongues tongues `sublist_of` tongues /\
  head (removeOverlappingTongues tongues) = head tongues /\
  removeOverlappingTongues (removeOverlappingTongues tongues)
  = removeOverlappingTongues tongues.
Proof.
  split_and!.
  - apply removeOverlapping_sublist.
  - induction tongues as [|t l IH] using rev_ind; [done|].
    rewrite removeOverlapping_snoc.
    destruct l as [|t0 l]; [done|].
    destruct (existsb _ _); [exact IH|].
    simpl in IH |- *. destruct (removeOverlappingTongues (t0 :: l)); [done|exact IH].
  - apply removeOverlapping_fixed. apply removeOverlapping_pairwise.
Qed.

(** Overlap suppression drops a tongue only for a reason: every tongue
    of the input is kept, or overlaps a kept tongue by more than 30%. *)
Theorem removeOverlapping_dropped_overlaps (tongues : list Tongue) (t : Tongue) :
  t ∈ tongues ->
  t ∈ removeOverlappingTongues tongues \/
  exists k, k ∈ removeOverlappingTongues tongues /\
            isOverlapping (bbox t) (bbox k) = true.
Proof.
  induction tongues as [|t0 l IH] using rev_ind; [by intros ?%elem_of_nil|].
  rewrite removeOverlapping_snoc.
  intros [Ht| ->%list_elem_of_singleton]%elem_of_app.
  - destruct (IH Ht) as [Hk|(k & Hk & Hov)]; destruct (existsb _ _).
    + by left.
    + left. apply elem_of_app. by left.
    + right. eauto.
    + right. exists k. split; [|done]. apply elem_of_app. by left.
  - destruct (existsb _ _) eqn:E.
    + right. apply existsb_exists in E as (k & Hk & Hov).
      exists k. split; [by apply list_elem_of_In|done].
    + left. apply elem_of_app. right. by apply list_elem_of_singleton.
Qed.

(** Witness: the second of two tongues with the same box is dropped
    because it overlaps the first. *)
Lemma removeOverlapping_dropped_overlaps_witness :
  let a := mkTongue [] (mkBBox 0 0 10 10) 100 (Num 1) 5 5 0.8 in
  let b := mkTongue [] (mkBBox 0 0 10 10) 100 (Num 1) 5 5 0.5 in
  b ∈ removeOverlappingTongues [a; b] \/
  exists k, k ∈ removeOverlappingTongues [a; b] /\
            isOverlapping (bbox b) (bbox k) = true.
Proof.
  intros a b. apply (removeOverlapping_dropped_overlaps [a; b] b).
  apply elem_of_cons. right. apply elem_of_cons. by left.
Defined.

(** ** Sorting by confidence *)

Global Instance Qeq_decision (a b : Q) : Decision ((a == b)%Q) := Qeq_dec a b.

Lemma insert_desc_stable {A} (conf : A -> Q) (c : Q) (x : A) (l : list A) :
  filter (fun y => (conf y == c)%Q) (insert_desc conf x l)
  = filter (fun y => (conf y == c)%Q) (x :: l).
Proof.
  induction l as [|y ys IH]; simpl; [done|].
  destruct (Qle_bool (conf y) (conf x)) eqn:E; [done|].
  apply Qle_bool_false in E.
  rewrite (filter_cons _ y (insert_desc conf x ys)), IH, !filter_cons.
  repeat case_decide; try done.
  all: match goal with
       | Hx : (?a == ?k)%Q, Hy : (?b == ?k)%Q, Hlt : (?a < ?b)%Q |- _ =>
           rewrite Hx, Hy in Hlt; by apply Qlt_irrefl in Hlt
       end.
Qed.

(** The sort used for ranking returns the same entries in descending
    order of confidence, and it is stable: entries of one confidence
    keep the order they had. *)
Theorem sort_desc_stable {A} (conf : A -> Q) (l : list A) (c : Q) :
  sort_desc conf l ≡ₚ l /\
  StronglySorted (desc conf) (sort_desc conf l) /\
  filter (fun y => (conf y == c)%Q) (sort_desc conf l)
  = filter (fun y => (conf y == c)%Q) l.
Proof.
  split_and!.
  - apply sort_desc_perm.
  - apply sort_desc_sorted.
  - induction l as [|x l IH]; [done|].
    change (sort_desc conf (x :: l)) with (insert_desc conf x (sort_desc conf l)).
    rewrite insert_desc_stable, !filter_cons, IH. done.
Qed.

(** ** Shape classifier and resolver *)

(** On an image of positive size the classifier rejects the empty
    contour and every contour whose points lie in one column or in one
    row: its box has no area. *)
Theorem classifyContour_rejects_degenerate (imageWidth imageHeight : Z) (c : list Point) :
  0 < imageWidth -> 0 < imageHeight ->
  c = [] \/ (exists x0, forall p, p ∈ c -> px p = x0)
         \/ (exists y0, forall p, p ∈ c -> py p = y0) ->
  classifyContour imageWidth imageHeight c = None.
Proof.
  intros HW HH Hdeg.
  destruct (classifyContour imageWidth imageHeight c) as [t|] eqn:Ht; [|done].
  exfalso. apply classifyContour_Some in Ht as (b & Hb & _ & H1 & _).
  destruct (getBoundingBox_nonneg _ _ Hb) as [Hw Hh].
  apply Qltb_ge in H1.
  destruct (min_area_positive _ _ _ HW HH Hw Hh H1) as [Hwp Hhp].
  destruct c as [|p0 c0]; [done|].
  destruct (getBoundingBox_extremes (p0 :: c0))
    as (minX & minY & maxX & maxY & Hb' & Hminx & Hminy & Hmaxx & Hmaxy); [done|].
  rewrite Hb in Hb'. injection Hb' as ->. simpl in Hwp, Hhp.
  destruct Hdeg as [?|[[x0 Hx0]|[y0 Hy0]]]; [done| |].
  - destruct Hminx as [(a & Ha & <-) _], Hmaxx as [(d & Hd & <-) _].
    rewrite (Hx0 a Ha), (Hx0 d Hd) in Hwp. lia.
  - destruct Hminy as [(a & Ha & <-) _], Hmaxy as [(d & Hd & <-) _].
    rewrite (Hy0 a Ha), (Hy0 d Hd) in Hhp. lia.
Qed.

(** Witness: a horizontal run of pixels on a 100 by 100 image. *)
Lemma classifyContour_rejects_degenerate_witness :
  classifyContour 100 100 [mkPoint 3 5; mkPoint 4 5; mkPoint 5 5] = None.
Proof.
  apply classifyContour_rejects_degenerate; [lia | lia |].
  right. right. exists 5. intros p Hp.
  repeat (apply elem_of_cons in Hp as [->|Hp]; [reflexivity|]).
  by apply elem_of_nil in Hp.
Defined.

(** Every candidate [filterTongueShapes] returns stems from one of the
    contours it was given: it carries that contour, the box of the
    contour and the area of the box, and its centre lies in the box. *)
Theorem filterTongueShapes_traceable (contours : list (list Point))
    (imageWidth imageHeight expectedCount : Z) (t : Tongue) :
  t ∈ filterTongueShapes contours imageWidth imageHeight expectedCount ->
  contour t ∈ contours /\
  getBoundingBox (contour t) = Some (bbox t) /\
  area t = bwidth (bbox t) * bheight (bbox t) /\
  (inject_Z (bx (bbox t)) <= centerX t)%Q /\
  (centerX t <= inject_Z (bx (bbox t) + bwidth (bbox t)))%Q /\
  (inject_Z (by_ (bbox t)) <= centerY t)%Q /\
  (centerY t <= inject_Z (by_ (bbox t) + bheight (bbox t)))%Q.
Proof.
  intros (c & Hc & Ht)%filterTongueShapes_elem.
  apply classifyContour_Some in Ht as (b & Hb & -> & _). simpl.
  destruct (getBoundingBox_nonneg _ _ Hb) as [Hw Hh].
  apply inject_Z_le in Hw, Hh. change (inject_Z 0) with 0%Q in Hw, Hh.
  rewrite !inject_Z_plus.
  assert (forall q : Q, (0 <= q -> 0 <= q / 2 /\ q / 2 <= q)%Q) as Hhalf.
  { intros q Hq. split.
    - apply Qle_shift_div_l; [reflexivity|]. lra.
    - apply Qle_shift_div_r; [reflexivity|]. lra. }
  destruct (Hhalf _ Hw), (Hhalf _ Hh).
  split_and!; try done; lra.
Qed.

(** Witness: the one candidate of a contour spanning a 30 by 10 box. *)
Lemma filterTongueShapes_traceable_witness :
  exists t, t ∈ filterTongueShapes [[mkPoint 0 0; mkPoint 30 10]] 100 100 15
            /\ area t = 300.
Proof.
  eexists. split; [vm_compute; apply list_elem_of_singleton; reflexivity|].
  match goal with |- area ?t = _ =>
    destruct (filterTongueShapes_traceable [[mkPoint 0 0; mkPoint 30 10]] 100 100 15 t)
      as (_ & _ & Harea & _)
  end.
  - vm_compute. apply list_elem_of_singleton. reflexivity.
  - exact Harea.
Defined.

Lemma maxCandidates_mono (n m : Z) :
  n <= m -> (maxCandidates n <= maxCandidates m)%Q.
Proof.
  intros Hnm%inject_Z_le. unfold maxCandidates.
  apply Q.max_le_compat; lra.
Qed.

(** Asking for more candidates only extends the list: for expected
    counts 1 <= n <= m the result for n is a prefix of the result for
    m. *)
Theorem filterTongueShapes_prefix (contours : list (list Point))
    (imageWidth imageHeight n m : Z) :
  1 <= n -> n <= m ->
  filterTongueShapes contours imageWidth imageHeight n
  `prefix_of` filterTongueShapes contours imageWidth imageHeight m.
Proof.
  intros Hn Hnm. unfold filterTongueShapes.
  rewrite !Qtrunc_maxCandidates by lia.
  pose proof (Qfloor_resp_le _ _ (maxCandidates_mono n m Hnm)) as Hfl.
  pose proof (maxCandidates_floor n) as Hn5.
  set (l := removeOverlappingTongues _).
  unfold js_slice0.
  replace (Qfloor (maxCandidates n) <? 0) with false by (symmetry; apply Z.ltb_ge; lia).
  replace (Qfloor (maxCandidates m) <? 0) with false by (symmetry; apply Z.ltb_ge; lia).
  set (a := Z.to_nat (Z.min (Qfloor (maxCandidates n)) (Z.of_nat (length l)))).
  set (b := Z.to_nat (Z.min (Qfloor (maxCandidates m)) (Z.of_nat (length l)))).
  assert (a <= b)%nat by (subst a b; lia).
  replace (take a l) with (take a (take b l)) by (rewrite take_take; f_equal; lia).
  apply prefix_take.
Qed.

(** Witness: expected counts 1 and 2 on one contour. *)
Lemma filterTongueShapes_prefix_witness :
  filterTongueShapes [[mkPoint 0 0; mkPoint 30 10]] 100 100 1
  `prefix_of` filterTongueShapes [[mkPoint 0 0; mkPoint 30 10]] 100 100 2.
Proof.
  apply filterTongueShapes_prefix; lia.
Defined.

(** ** Conversion of the detector's shapes *)

(** With at most the expected number of shapes from the detector
    nothing is dropped, whatever the confidence: the result is the
    input sorted.  With more, at most the expected number is returned
    and every returned shape has a confidence of at least 0.5. *)
Theorem convert_cases (results : list CvShape) (expectedCount : Z) :
  0 <= expectedCount ->
  (Z.of_nat (length results) <= expectedCount ->
   convertOpenCVResultsToTongueShapes results expectedCount
   = sort_desc cv_confidence results) /\
  (expectedCount < Z.of_nat (length results) ->
   Z.of_nat (length (convertOpenCVResultsToTongueShapes results expectedCount))
   <= expectedCount /\
   Forall (fun s => (0.5 <= cv_confidence s)%Q)
          (convertOpenCVResultsToTongueShapes results expectedCount)).
Proof.
  intros Hn.
  assert (length (sort_desc cv_confidence results) = length results) as Hlen
    by (by rewrite sort_desc_perm).
  unfold convertOpenCVResultsToTongueShapes. rewrite Hlen. split.
  - intros Hle. rewrite js_slice0_all by lia.
    rewrite Hlen. replace (expectedCount <? _) with false; [done|].
    symmetry. apply Z.ltb_ge. lia.
  - intros Hgt.
    assert (length (js_slice0 (sort_desc cv_confidence results)
                      (Z.min (expectedCount + 5) (Z.of_nat (length results))))
            = Z.to_nat (Z.min (expectedCount + 5) (Z.of_nat (length results)))) as Hcut.
    { unfold js_slice0.
      replace (_ <? 0) with false by (symmetry; apply Z.ltb_ge; lia).
      rewrite length_take, Hlen. lia. }
    rewrite Hcut.
    replace (expectedCount <? _) with true by (symmetry; apply Z.ltb_lt; lia).
    split; [by apply js_slice0_length|].
    apply Forall_forall. intros s Hs.
    eapply elem_of_sublist in Hs; [|apply js_slice0_sublist].
    apply list_elem_of_filter in Hs as [Hs _]. by apply Qle_bool_iff in Hs.
Qed.

(** Witness: one low-confidence shape, one expected. *)
Lemma convert_cases_witness :
  let s := mkCvShape 0.3 (0, 0)%Q (mkBBox 0 0 4 4) (mkCvProperties 16 1 1 0.5 1) in
  convertOpenCVResultsToTongueShapes [s] 1 = sort_desc cv_confidence [s].
Proof.
  intros s. destruct (convert_cases [s] 1) as [Hall _]; [lia|].
  apply Hall. simpl. lia.
Defined.

(** ** Fallback generator *)

(** A count of zero or less gives no placeholder. *)
Theorem createFallback_nothing (width height expectedCount : Z) :
  expectedCount <= 0 ->
  createFallbackTongueDetection width height expectedCount = [].
Proof.
  intros Hn. unfold createFallbackTongueDetection, range.
  replace (Z.to_nat (expectedCount - 0)) with 0%nat by lia. done.
Qed.

(** Witness: a count of zero. *)
Lemma createFallback_nothing_witness : createFallbackTongueDetection 600 600 0 = [].
Proof. apply createFallback_nothing. lia. Defined.

(** ** Selection sequencer: what the overlays show *)

(** The overlays agree with the selection: an overlay is marked and
    numbered with the position of its tongue in the selection, counted
    from one, or it is unmarked and shows nothing. *)
Definition displayed (st : Selection) : Prop :=
  forall j el, detectionOverlays st !! j = Some el ->
    match indexOf j (selectedTongues st) with
    | Some k => el = {| el_selected := true; el_number := Some (k + 1)%nat |}
    | None => el = {| el_selected := false; el_number := None |}
    end.

Definition consistent (st : Selection) : Prop :=
  NoDup (selectedTongues st) /\ displayed st.

Lemma indexOf_lookup (l : list nat) (k x : nat) :
  NoDup l -> l !! k = Some x -> indexOf x l = Some k.
Proof.
  intros Hnd Hk. unfold indexOf.
  destruct (list_find (fun y => y = x) l) as [[k' y]|] eqn:E; simpl.
  - apply list_find_Some in E as (Hk' & -> & _).
    f_equal. by eapply NoDup_lookup.
  - apply list_find_None in E. rewrite Forall_forall in E.
    exfalso. apply (E x); [by eapply list_elem_of_lookup_2|done].
Qed.

Lemma indexOf_app_fresh (l : list nat) (x : nat) :
  x ∉ l -> indexOf x (l ++ [x]) = Some (length l).
Proof.
  intros Hx. unfold indexOf.
  destruct (list_find (fun y => y = x) (l ++ [x])) as [[k y]|] eqn:E; simpl.
  - apply list_find_Some in E as (Hk & -> & _).
    apply lookup_snoc_Some in Hk as [[_ Hk]|[<- _]]; [|done].
    exfalso. apply Hx. by eapply list_elem_of_lookup_2.
  - apply list_find_None in E. rewrite Forall_forall in E.
    exfalso. apply (E x); [|done]. apply elem_of_app. right. by left.
Qed.

Lemma indexOf_app_other (l : list nat) (x j : nat) :
  j <> x -> indexOf j (l ++ [x]) = indexOf j l.
Proof.
  intros Hne. unfold indexOf.
  destruct (list_find (fun y => y = j) l) as [[k y]|] eqn:E.
  - by rewrite (list_find_app_l _ _ _ _ _ E).
  - rewrite list_find_app_r by done. simpl.
    by rewrite decide_False by done.
Qed.

Lemma renumber_length (selected : list nat) (overlays : list OverlayEl) :
  length (renumber selected overlays) = length overlays.
Proof.
  unfold renumber.
  apply (foldl_invariant (fun o => length o = length overlays)); [done|].
  intros o [??] Ho. by rewrite length_alter.
Qed.

Lemma deselectTongue_length (i : nat) (st : Selection) :
  length (detectionOverlays (deselectTongue i st)) = length (detectionOverlays st).
Proof.
  unfold deselectTongue. destruct (indexOf i (selectedTongues st)); [|done].
  simpl. by rewrite renumber_length, length_alter.
Qed.

Lemma selectTongue_length (i : nat) (st : Selection) :
  length (detectionOverlays (selectTongue i st)) = length (detectionOverlays st).
Proof.
  unfold selectTongue. destruct (bool_decide _); [done|].
  simpl. by rewrite length_alter.
Qed.

Lemma selectTongue_consistent (i : nat) (st : Selection) :
  consistent st -> consistent (selectTongue i st).
Proof.
  intros [Hnd Hdisp]. split; [by apply selectTongue_NoDup|].
  destruct (decide (i ∈ selectedTongues st)) as [Hi|Hi].
  - by rewrite selectTongue_selected.
  - unfold selectTongue. rewrite bool_decide_eq_false_2 by done.
    intros j el. simpl. destruct (decide (i = j)) as [->|Hne].
    + rewrite list_lookup_alter_eq, indexOf_app_fresh by done.
      destruct (detectionOverlays st !! j); [|done]. intros [= <-].
      rewrite length_app. simpl. done.
    + rewrite list_lookup_alter_ne, indexOf_app_other by done. apply Hdisp.
Qed.

Lemma deselectTongue_consistent (i : nat) (st : Selection) :
  consistent st -> consistent (deselectTongue i st).
Proof.
  intros [Hnd Hdisp]. split; [by apply deselectTongue_NoDup|].
  destruct (decide (i ∈ selectedTongues st)) as [Hi|Hi];
    [|by rewrite deselectTongue_unselected].
  intros j el Hel.
  destruct (deselectTongue_selected _ _ Hi) as (pos & Hpos & Hsel).
  destruct (NoDup_delete_middle _ _ _ Hnd Hpos) as [Hnd' Hi'].
  rewrite <- Hsel in Hnd', Hi'.
  destruct (indexOf j (selectedTongues (deselectTongue i st))) as [k|] eqn:Ej.
  - apply indexOf_Some in Ej.
    assert (j <> i) as Hji by (intros ->; apply Hi'; by eapply list_elem_of_lookup_2).
    assert (is_Some (detectionOverlays st !! j)) as [el0 Hel0].
    { apply lookup_lt_is_Some. apply lookup_lt_Some in Hel.
      by rewrite deselectTongue_length in Hel. }
    rewrite (deselectTongue_renumbers i st k j el0 Hnd Hi Ej Hel0) in Hel.
    injection Hel as <-.
    assert (j ∈ selectedTongues st) as Hj.
    { apply list_elem_of_lookup_2 in Ej. rewrite Hsel in Ej.
      eapply elem_of_sublist; [exact Ej|apply sublist_delete]. }
    apply list_elem_of_lookup_1 in Hj as [k0 Hk0].
    specialize (Hdisp j el0 Hel0). rewrite (indexOf_lookup _ k0 j Hnd Hk0) in Hdisp.
    by subst el0.
  - apply indexOf_None in Ej.
    unfold deselectTongue in Hel, Ej.
    destruct (indexOf i (selectedTongues st)) as [pos'|] eqn:Ei;
      [|by apply indexOf_None in Ei].
    simpl in Hel, Ej. change (renumber ?s ?o) with (renumber_from 0 s o) in Hel.
    rewrite renumber_from_other in Hel by done.
    destruct (decide (i = j)) as [->|Hne].
    + rewrite list_lookup_alter_eq in Hel.
      destruct (detectionOverlays st !! j); [|done]. by injection Hel as <-.
    + rewrite list_lookup_alter_ne in Hel by done.
      specialize (Hdisp j el Hel).
      replace (indexOf j (selectedTongues st)) with (@None nat) in Hdisp; [done|].
      symmetry. apply indexOf_None. intros [k0 Hk0]%list_elem_of_lookup_1.
      apply Ej. apply indexOf_Some in Ei.
      rewrite delete_take_drop.
      rewrite <- (take_drop_middle _ _ _ Ei) in Hk0.
      apply list_elem_of_lookup_2 in Hk0.
      apply elem_of_app in Hk0 as [?|[->|?]%elem_of_cons]; [|done|];
        apply elem_of_app; auto.
Qed.

Lemma clearTongueSelection_consistent (st : Selection) :
  consistent (clearTongueSelection st).
Proof.
  split; [constructor|]. intros j el. simpl. rewrite list_lookup_fmap.
  destruct (detectionOverlays st !! j); [|done]. by intros [= <-].
Qed.

Lemma freshSelection_consistent (n : nat) : consistent (freshSelection n).
Proof.
  split; [constructor|]. intros j el. simpl.
  by intros [-> _]%lookup_replicate.
Qed.

Lemma sequencer_display_invariant_consistent (ops : list SelectionOp) (n : nat) :
  consistent (runOps ops (freshSelection n)).
Proof.
  apply (foldl_invariant consistent).
  - apply freshSelection_consistent.
  - intros st [i|i|] Hst; simpl.
    + by apply selectTongue_consistent.
    + by apply deselectTongue_consistent.
    + apply clearTongueSelection_consistent.
Qed.

(** In every state reached from a fresh detection by selecting,
    deselecting and clearing, each overlay shows exactly the position
    of its tongue in the selection (counted from one) if the tongue is
    selected, and is unmarked and empty otherwise. *)
Theorem sequencer_display_invariant (ops : list SelectionOp) (n : nat) :
  let st := runOps ops (freshSelection n) in
  NoDup (selectedTongues st) /\
  forall j el, detectionOverlays st !! j = Some el ->
    match indexOf j (selectedTongues st) with
    | Some k => el = {| el_selected := true; el_number := Some (k + 1)%nat |}
    | None => el = {| el_selected := false; el_number := None |}
    end.
Proof. apply sequencer_display_invariant_consistent. Qed.

Lemma consistent_unique (st1 st2 : Selection) :
  consistent st1 -> consistent st2 ->
  selectedTongues st1 = selectedTongues st2 ->
  length (detectionOverlays st1) = length (detectionOverlays st2) ->
  st1 = st2.
Proof.
  intros [_ H1] [_ H2] Hsel Hlen.
  destruct st1 as [sel1 ov1], st2 as [sel2 ov2]. simpl in *. subst sel2.
  f_equal. apply list_eq. intros j.
  destruct (ov1 !! j) as [e1|] eqn:E1, (ov2 !! j) as [e2|] eqn:E2.
  - specialize (H1 j e1 E1). specialize (H2 j e2 E2). simpl in *.
    destruct (indexOf j sel1); congruence.
  - apply lookup_lt_Some in E1. apply lookup_ge_None in E2. lia.
  - apply lookup_lt_Some in E2. apply lookup_ge_None in E1. lia.
  - done.
Qed.

(** Selecting a tongue and deselecting it again restores the state:
    the selection, the marks and the numbers of all overlays are as
    before. *)
Theorem select_deselect_roundtrip (ops : list SelectionOp) (n i : nat) :
  let st := runOps ops (freshSelection n) in
  i ∉ selectedTongues st ->
  deselectTongue i (selectTongue i st) = st.
Proof.
  intros st Hi.
  assert (consistent st) as Hst by apply sequencer_display_invariant_consistent.
  apply consistent_unique; [|done| |].
  - by apply deselectTongue_consistent, selectTongue_consistent.
  - assert (i ∈ selectedTongues (selectTongue i st)) as Hin.
    { rewrite selectTongue_fresh by done. apply elem_of_app. right. by left. }
    destruct (deselectTongue_selected _ _ Hin) as (k & Hk & ->).
    rewrite selectTongue_fresh in Hk |- * by done.
    apply lookup_snoc_Some in Hk as [[_ Hk]|[Hlen _]].
    + exfalso. apply Hi. by eapply list_elem_of_lookup_2.
    + subst k. rewrite delete_take_drop, take_app_length.
      rewrite drop_ge by (rewrite length_app; simpl; lia). by rewrite app_nil_r.
  - by rewrite deselectTongue_length, selectTongue_length.
Qed.

(** Witness: deselecting tongue 0 right after selecting it, with
    tongue 1 selected before. *)
Lemma select_deselect_roundtrip_witness :
  deselectTongue 0 (selectTongue 0 (runOps [OpSelect 1%nat] (freshSelection 2)))
  = runOps [OpSelect 1%nat] (freshSelection 2).
Proof.
  apply (select_deselect_roundtrip [OpSelect 1%nat] 2 0).
  vm_compute. intros H. apply list_elem_of_singleton in H. discriminate H.
Defined.

(** ** Selection sequencer: clicks *)

(** What the user can do on the overlays: click one, or clear the
    selection. *)
Inductive UiEvent :=
  | Click (tongueIndex : nat)
  | ClearSelection.

Definition handleEvent (st : Selection) (ev : UiEvent) : Selection :=
  match ev with
  | Click i => handleTongueSelection i st
  | ClearSelection => clearTongueSelection st
  end.

Definition runEvents (evs : list UiEvent) (st : Selection) : Selection :=
  foldl handleEvent st evs.

(** What holds between clicks: the overlays agree with the selection,
    there are [n] of them, and only tongues with an overlay are
    selected. *)
Definition session_ok (n : nat) (st : Selection) : Prop :=
  consistent st /\ length (detectionOverlays st) = n /\
  Forall (fun i => (i < n)%nat) (selectedTongues st).

Lemma selected_flag (st : Selection) (j : nat) (el : OverlayEl) :
  consistent st -> detectionOverlays st !! j = Some el ->
  el_selected el = true <-> j ∈ selectedTongues st.
Proof.
  intros [_ Hdisp] Hel. specialize (Hdisp j el Hel).
  destruct (indexOf j (selectedTongues st)) as [k|] eqn:E; subst el; simpl.
  - apply indexOf_Some in E. split; [|done]. intros _. by eapply list_elem_of_lookup_2.
  - apply indexOf_None in E. split; [done|]. intros ?. by destruct E.
Qed.

Lemma handleEvent_ok (n : nat) (st : Selection) (ev : UiEvent) :
  session_ok n st -> session_ok n (handleEvent st ev).
Proof.
  intros (Hc & Hlen & Hsel). destruct ev as [i|]; simpl.
  - unfold handleTongueSelection.
    destruct (detectionOverlays st !! i) as [el|] eqn:E; [|done].
    assert (i < n)%nat as Hi by (rewrite <- Hlen; by eapply lookup_lt_Some).
    destruct (el_selected el); split_and!.
    + by apply deselectTongue_consistent.
    + by rewrite deselectTongue_length.
    + destruct (decide (i ∈ selectedTongues st)) as [Hin|Hin].
      * destruct (deselectTongue_selected _ _ Hin) as (k & _ & ->).
        rewrite Forall_forall in Hsel |- *. intros x Hx. apply Hsel.
        eapply elem_of_sublist; [exact Hx|apply sublist_delete].
      * by rewrite deselectTongue_unselected.
    + by apply selectTongue_consistent.
    + by rewrite selectTongue_length.
    + destruct (decide (i ∈ selectedTongues st)) as [Hin|Hin].
      * by rewrite selectTongue_selected.
      * rewrite selectTongue_fresh by done. apply Forall_app. split; [done|].
        by constructor.
  - split_and!.
    + apply clearTongueSelection_consistent.
    + simpl. by rewrite length_fmap.
    + constructor.
Qed.

Lemma runEvents_ok (evs : list UiEvent) (n : nat) :
  session_ok n (runEvents evs (freshSelection n)).
Proof.
  apply (foldl_invariant (session_ok n)).
  - split_and!; [apply freshSelection_consistent | apply length_replicate | constructor].
  - intros st ev. apply handleEvent_ok.
Qed.

(** During a session of clicks and clearings on [n] overlays the
    selection has no duplicate, holds only tongues that have an
    overlay, and every overlay shows the position of its tongue in the
    selection.  A click on an overlay toggles its tongue and leaves the
    membership of all other tongues as it is; a click where there is
    no overlay does nothing. *)
Theorem click_session (evs : list UiEvent) (n j : nat) :
  let st := runEvents evs (freshSelection n) in
  NoDup (selectedTongues st) /\
  Forall (fun i => (i < n)%nat) (selectedTongues st) /\
  length (detectionOverlays st) = n /\
  displayed st /\
  ((j < n)%nat ->
   (j ∈ selectedTongues (handleTongueSelection j st) <-> j ∉ selectedTongues st) /\
   forall i, i <> j ->
     (i ∈ selectedTongues (handleTongueSelection j st) <-> i ∈ selectedTongues st)) /\
  ((n <= j)%nat -> handleTongueSelection j st = st).
Proof.
  intros st. destruct (runEvents_ok evs n) as ([Hnd Hdisp] & Hlen & Hsel).
  fold st in Hnd, Hdisp, Hlen, Hsel.
  split_and!; try done.
  - intros Hj. unfold handleTongueSelection.
    destruct (lookup_lt_is_Some_2 (detectionOverlays st) j) as [el Hel]; [lia|].
    rewrite Hel. pose proof (selected_flag st j el (conj Hnd Hdisp) Hel) as Hflag.
    destruct (el_selected el).
    + assert (j ∈ selectedTongues st) as Hin by (by apply Hflag).
      destruct (deselectTongue_selected _ _ Hin) as (k & Hk & ->).
      destruct (NoDup_delete_middle _ _ _ Hnd Hk) as [_ Hout]. split; [tauto|].
      intros i Hij. split.
      * intros Hi. eapply elem_of_sublist; [exact Hi|apply sublist_delete].
      * intros Hi. rewrite delete_take_drop.
        rewrite <- (take_drop_middle _ _ _ Hk) in Hi.
        apply elem_of_app in Hi as [?|[->|?]%elem_of_cons]; [|done|];
          apply elem_of_app; auto.
    + assert (j ∉ selectedTongues st) as Hout by (intros ?%Hflag; done).
      rewrite selectTongue_fresh by done. split.
      * split; [done|]. intros _. apply elem_of_app. right. by left.
      * intros i Hij. rewrite elem_of_app, list_elem_of_singleton. tauto.
  - intros Hj. unfold handleTongueSelection.
    assert (detectionOverlays st !! j = None) as -> by (apply lookup_ge_None; lia).
    done.
Qed.

(** Witness: a second click on tongue 1 of three. *)
Lemma click_session_witness :
  let st := runEvents [Click 1%nat] (freshSelection 3) in
  (1%nat ∈ selectedTongues (handleTongueSelection 1 st) <-> 1%nat ∉ selectedTongues st).
Proof.
  intros st.
  destruct (click_session [Click 1%nat] 3 1) as (_ & _ & _ & _ & Htoggle & _).
  destruct Htoggle as [H _]; [lia|]. exact H.
Defined.

(** ** Typed arrays *)

Lemma ta_length_set (a : TypedArray) (k v : Z) : ta_length (ta_set a k v) = ta_length a.
Proof. unfold ta_set. by destruct (_ && _). Qed.

Lemma ta_get_set (a : TypedArray) (k v i : Z) :
  ta_get (ta_set a k v) i
  = if decide (k = i)
    then (if (0 <=? i) && (i <? ta_length a) then Some v else None)
    else ta_get a i.
Proof.
  unfold ta_set, ta_get. destruct (decide (k = i)) as [->|Hne].
  - destruct ((0 <=? i) && (i <? ta_length a)) eqn:E; simpl; rewrite E; [|done].
    by rewrite lookup_insert_eq.
  - destruct ((0 <=? k) && (k <? ta_length a)) eqn:E; simpl; [|done].
    by rewrite lookup_insert_ne.
Qed.

Lemma ta_get_new (n i : Z) :
  ta_get (ta_new n) i = if (0 <=? i) && (i <? n) then Some 0 else None.
Proof. unfold ta_get, ta_new. simpl. by rewrite lookup_empty. Qed.

Lemma ta_get_Some_range (a : TypedArray) (i v : Z) :
  ta_get a i = Some v -> 0 <= i < ta_length a.
Proof.
  unfold ta_get. destruct (_ && _) eqn:E; [|done]. intros _.
  apply andb_true_iff in E as [?%Z.leb_le ?%Z.ltb_lt]. lia.
Qed.

(** A sequence of writes into an array. *)
Definition writes_fold (a0 : TypedArray) (ws : list (Z * Z)) : TypedArray :=
  foldl (fun a kv => ta_set a kv.1 kv.2) a0 ws.

Lemma writes_fold_length (a0 : TypedArray) (ws : list (Z * Z)) :
  ta_length (writes_fold a0 ws) = ta_length a0.
Proof.
  apply (foldl_invariant (fun a => ta_length a = ta_length a0)); [done|].
  intros a kv Ha. by rewrite ta_length_set.
Qed.

(** If every write to an index stores the value [F] has for it, the
    array read back holds [F] at the written indices and 0 elsewhere. *)
Lemma writes_fold_get (len : Z) (ws : list (Z * Z)) (F : Z -> Z) (i : Z) :
  (forall k v, (k, v) ∈ ws -> v = F k) ->
  ta_get (writes_fold (ta_new len) ws) i
  = if (0 <=? i) && (i <? len)
    then Some (if bool_decide (i ∈ ws.*1) then F i else 0)
    else None.
Proof.
  induction ws as [|[k v] ws IH] using rev_ind; intros HF.
  - unfold writes_fold. simpl. rewrite ta_get_new.
    by destruct (_ && _).
  - unfold writes_fold in *. rewrite foldl_app. simpl.
    rewrite ta_get_set, IH by (intros; apply HF, elem_of_app; auto).
    pose proof (writes_fold_length (ta_new len) ws) as Hlen.
    unfold writes_fold in Hlen. rewrite Hlen. simpl.
    rewrite fmap_app. simpl.
    destruct ((0 <=? i) && (i <? len)); [|by destruct (decide _)].
    destruct (decide (k = i)) as [->|Hne].
    + rewrite bool_decide_eq_true_2 by (apply elem_of_app; right; by left).
      f_equal. apply HF, elem_of_app. right. by left.
    + f_equal. rewrite (bool_decide_ext (i ∈ ws.*1 ++ [k]) (i ∈ ws.*1)); [done|].
      rewrite elem_of_app, list_elem_of_singleton. split; [|by left].
      intros [?| ->]; done.
Qed.

Lemma row_fold_flat (key val : Z -> Z) (xs : list Z) (a0 : TypedArray) :
  foldl (fun a x => ta_set a (key x) (val x)) a0 xs
  = writes_fold a0 ((fun x => (key x, val x)) <$> xs).
Proof.
  revert a0. induction xs as [|x xs IH]; intros a0; [done|]. simpl. apply IH.
Qed.

Lemma nested_fold_flat (key val : Z -> Z -> Z) (xs ys : list Z) (a0 : TypedArray) :
  foldl (fun a y => foldl (fun a x => ta_set a (key x y) (val x y)) a xs) a0 ys
  = writes_fold a0 (ys ≫= fun y => (fun x => (key x y, val x y)) <$> xs).
Proof.
  revert a0. induction ys as [|y ys IH]; intros a0; [done|].
  simpl. rewrite IH.
  rewrite (row_fold_flat (fun x => key x y) (fun x => val x y)).
  unfold writes_fold. by rewrite foldl_app.
Qed.

(** The interior of a [w] by [h] raster, as the two loops of the
    convolutions run over it. *)
Definition interior (w h i : Z) : bool :=
  (1 <=? i mod w) && (i mod w <? w - 1) && (1 <=? i / w) && (i / w <? h - 1).

Lemma raster_index (x y w : Z) :
  0 <= x < w -> (y * w + x) mod w = x /\ (y * w + x) / w = y.
Proof.
  intros Hx. rewrite Z.add_comm.
  rewrite Z.mod_add, Z.div_add, Z.mod_small, Z.div_small by lia. lia.
Qed.

Lemma interior_spec (w h i : Z) :
  interior w h i = true <->
  exists x y, 1 <= x < w - 1 /\ 1 <= y < h - 1 /\ i = y * w + x.
Proof.
  unfold interior. rewrite !andb_true_iff, !Z.leb_le, !Z.ltb_lt. split.
  - intros [[[H1 H2] H3] H4]. exists (i mod w), (i / w).
    split_and!; try done.
    assert (w <> 0) by (intros ->; rewrite Z.mod_0_r in *; lia).
    pose proof (Z.div_mod i w ltac:(done)). lia.
  - intros (x & y & Hx & Hy & ->).
    destruct (raster_index x y w) as [-> ->]; lia.
Qed.

Lemma elem_of_raster_writes (key val : Z -> Z -> Z) (xs ys : list Z) (k v : Z) :
  (k, v) ∈ (ys ≫= fun y => (fun x => (key x y, val x y)) <$> xs)
  <-> exists x y, x ∈ xs /\ y ∈ ys /\ k = key x y /\ v = val x y.
Proof.
  rewrite list_elem_of_bind. split.
  - intros (y & Hin & Hy). apply list_elem_of_fmap in Hin as (x & Heq & Hx).
    injection Heq as -> ->. eauto 10.
  - intros (x & y & Hx & Hy & -> & ->). exists y. split; [|done].
    apply list_elem_of_fmap. eauto.
Qed.

(** The two raster loops of a convolution write [val x y] at the
    interior positions and leave 0 on the border. *)
Lemma raster_fold_get (val : Z -> Z -> Z) (len w h i : Z) :
  let out :=
    foldl (fun a y => foldl (fun a x => ta_set a (y * w + x) (val x y)) a (range 1 (w - 1)))
          (ta_new len) (range 1 (h - 1)) in
  ta_length out = len /\
  ta_get out i = if (0 <=? i) && (i <? len)
                 then Some (if interior w h i then val (i mod w) (i / w) else 0)
                 else None.
Proof.
  intros out. unfold out.
  rewrite (nested_fold_flat (fun x y => y * w + x) val).
  split; [apply writes_fold_length|].
  rewrite (writes_fold_get _ _ (fun k => val (k mod w) (k / w))).
  - destruct (_ && _); [|done]. f_equal.
    destruct (interior w h i) eqn:E.
    + rewrite bool_decide_eq_true_2; [done|].
      apply interior_spec in E as (x & y & Hx & Hy & ->).
      apply list_elem_of_fmap. exists (y * w + x, val x y). split; [done|].
      apply elem_of_raster_writes. exists x, y. by rewrite !elem_of_range.
    + rewrite bool_decide_eq_false_2; [done|].
      intros ([k v] & Hk & Hin)%list_elem_of_fmap. simpl in Hk. subst k.
      apply elem_of_raster_writes in Hin as (x & y & Hx%elem_of_range & Hy%elem_of_range & -> & _).
      apply not_true_iff_false in E. apply E, interior_spec. eauto.
  - intros k v (x & y & Hx%elem_of_range & Hy%elem_of_range & -> & ->)%elem_of_raster_writes.
    by destruct (raster_index x y w) as [-> ->]; [lia|].
Qed.

(** ** Noise smoother and edge extractor *)

Lemma toUint8Clamp_byte (v : jsnum) : 0 <= toUint8Clamp v <= 255.
Proof. destruct v; simpl; lia. Qed.

Lemma roundHalfEven_int (q : Q) (n : Z) : (q == inject_Z n)%Q -> roundHalfEven q = n.
Proof.
  intros Hq. unfold roundHalfEven.
  assert (Qfloor q = n) as -> by (rewrite (Qfloor_comp _ _ Hq); apply Qfloor_Z).
  assert ((q - inject_Z n ?= 0.5)%Q = Lt) as ->; [|done].
  apply Qlt_alt.
  assert (q - inject_Z n == 0)%Q as -> by (rewrite Hq; ring). reflexivity.
Qed.

(** The byte the blur stores for the pixel [(x, y)]. *)
Definition blurValue (grayData : TypedArray) (width x y : Z) : Z :=
  toUint8Clamp match convolve grayData width x y gaussKernel with
               | Some sum => Num (inject_Z sum / 16)
               | None => NaN
               end.

(** The byte the edge extractor stores for the pixel [(x, y)]. *)
Definition sobelValue (grayData : TypedArray) (width x y : Z) : Z :=
  match convolve grayData width x y sobelX, convolve grayData width x y sobelY with
  | Some gx, Some gy => clampSqrt (gx * gx + gy * gy)
  | _, _ => 0
  end.

Lemma clampSqrt_byte (n : Z) : 0 <= clampSqrt n <= 255.
Proof.
  unfold clampSqrt. pose proof (Z.sqrt_nonneg (4 * n)).
  assert (0 <= (Z.sqrt (4 * n) + 1) / 2) by (apply Z.div_pos; lia). lia.
Qed.

Lemma applyGaussianBlur_get (grayData : TypedArray) (width height i : Z) :
  ta_length (applyGaussianBlur grayData width height) = ta_length grayData /\
  ta_get (applyGaussianBlur grayData width height) i
  = (if (0 <=? i) && (i <? ta_length grayData)
     then Some (if interior width height i
                then blurValue grayData width (i mod width) (i / width)
                else 0)
     else None).
Proof.
  exact (raster_fold_get (blurValue grayData width) (ta_length grayData) width height i).
Qed.

Lemma applySobel_get (grayData : TypedArray) (width height i : Z) :
  ta_length (applySobelEdgeDetection grayData width height) = ta_length grayData /\
  ta_get (applySobelEdgeDetection grayData width height) i
  = (if (0 <=? i) && (i <? ta_length grayData)
     then Some (if interior width height i
                then sobelValue grayData width (i mod width) (i / width)
                else 0)
     else None).
Proof.
  exact (raster_fold_get (sobelValue grayData width) (ta_length grayData) width height i).
Qed.

(** The blurred image has the length of its input; it is 0 on the
    one-pixel border of the raster, and inside each byte is the rounded
    weighted mean of the 3 by 3 neighbourhood in the input, whatever
    the order the loops wrote in.  Every byte is within 0..255. *)
Theorem applyGaussianBlur_pixels (grayData : TypedArray) (width height i : Z) :
  let out := applyGaussianBlur grayData width height in
  ta_length out = ta_length grayData /\
  ta_get out i
  = (if (0 <=? i) && (i <? ta_length grayData)
     then Some (if interior width height i
                then blurValue grayData width (i mod width) (i / width)
                else 0)
     else None) /\
  (forall v, ta_get out i = Some v -> 0 <= v <= 255).
Proof.
  intros out.
  destruct (raster_fold_get (blurValue grayData width) (ta_length grayData) width height i)
    as [Hlen Hget].
  change (foldl _ _ _) with out in Hlen, Hget.
  split; [done|]. split; [done|].
  intros v. rewrite Hget. destruct (_ && _); [|done]. intros [= <-].
  destruct (interior _ _ _); [apply toUint8Clamp_byte|lia].
Qed.

(** The edge map has the length of its input and is 0 on the border
    of the raster; inside, each byte is the clamped, rounded gradient
    magnitude of the 3 by 3 neighbourhood.  Every byte is within
    0..255. *)
Theorem applySobel_pixels (grayData : TypedArray) (width height i : Z) :
  let out := applySobelEdgeDetection grayData width height in
  ta_length out = ta_length grayData /\
  ta_get out i
  = (if (0 <=? i) && (i <? ta_length grayData)
     then Some (if interior width height i
                then sobelValue grayData width (i mod width) (i / width)
                else 0)
     else None) /\
  (forall v, ta_get out i = Some v -> 0 <= v <= 255).
Proof.
  intros out.
  destruct (raster_fold_get (sobelValue grayData width) (ta_length grayData) width height i)
    as [Hlen Hget].
  change (foldl _ _ _) with out in Hlen, Hget.
  split; [done|]. split; [done|].
  intros v. rewrite Hget. destruct (_ && _); [|done]. intros [= <-].
  destruct (interior _ _ _); [|lia].
  unfold sobelValue.
  destruct (convolve grayData width (i mod width) (i / width) sobelX),
    (convolve grayData width (i mod width) (i / width) sobelY);
    try lia; apply clampSqrt_byte.
Qed.

(** The nine reads of a convolution, written out. *)
Lemma convolve_unfold (grayData : TypedArray) (width x y : Z) (kernel : list Z) :
  convolve grayData width x y kernel
  = foldl (fun sum '(kx, ky) =>
             match sum, ta_get grayData ((y + ky) * width + (x + kx)) with
             | Some s, Some pixel =>
                 Some (s + pixel * kernel_at kernel ((ky + 1) * 3 + (kx + 1)))
             | _, _ => None
             end)
          (Some 0)
          [(-1, -1); (0, -1); (1, -1); (-1, 0); (0, 0); (1, 0); (-1, 1); (0, 1); (1, 1)].
Proof. reflexivity. Qed.

(** On a neighbourhood that holds one value [v] the kernels give
    [v] times their sum. *)
Lemma convolve_uniform (grayData : TypedArray) (width x y v : Z) (kernel : list Z) :
  (forall kx ky, -1 <= kx <= 1 -> -1 <= ky <= 1 ->
                 ta_get grayData ((y + ky) * width + (x + kx)) = Some v) ->
  convolve grayData width x y kernel
  = Some (v * (kernel_at kernel 0 + kernel_at kernel 1 + kernel_at kernel 2
               + kernel_at kernel 3 + kernel_at kernel 4 + kernel_at kernel 5
               + kernel_at kernel 6 + kernel_at kernel 7 + kernel_at kernel 8)).
Proof.
  intros Hv. rewrite convolve_unfold. cbn [foldl].
  rewrite !Hv by lia. f_equal.
  repeat match goal with
         | |- context [kernel_at kernel ?e] =>
             let e' := eval vm_compute in e in progress change e with e'
         end.
  ring.
Qed.

(** A uniform part of the image passes the smoother unchanged and
    shows no edge: where the 3 by 3 neighbourhood of an interior pixel
    holds one byte [v], the blur stores [v] and the edge extractor
    stores 0. *)
Theorem uniform_neighbourhood (grayData : TypedArray) (width height x y v : Z) :
  1 <= x < width - 1 -> 1 <= y < height - 1 ->
  y * width + x < ta_length grayData ->
  0 <= v <= 255 ->
  (forall kx ky, -1 <= kx <= 1 -> -1 <= ky <= 1 ->
                 ta_get grayData ((y + ky) * width + (x + kx)) = Some v) ->
  ta_get (applyGaussianBlur grayData width height) (y * width + x) = Some v /\
  ta_get (applySobelEdgeDetection grayData width height) (y * width + x) = Some 0.
Proof.
  intros Hx Hy Hlen Hv Hall.
  assert (interior width height (y * width + x) = true) as Hint
    by (apply interior_spec; eauto).
  assert (0 <= y * width + x) by nia.
  destruct (raster_index x y width) as [Hmod Hdiv]; [lia|].
  destruct (applyGaussianBlur_get grayData width height (y * width + x)) as [_ ->].
  destruct (applySobel_get grayData width height (y * width + x)) as [_ ->].
  replace ((0 <=? y * width + x) && (y * width + x <? ta_length grayData)) with true
    by (symmetry; apply andb_true_iff; split; [apply Z.leb_le|apply Z.ltb_lt]; lia).
  rewrite Hint, Hmod, Hdiv. unfold blurValue, sobelValue.
  rewrite !(convolve_uniform _ _ _ _ v) by done. split.
  - f_equal. simpl. rewrite (roundHalfEven_int _ v); [lia|].
    change (kernel_at gaussKernel 0 + kernel_at gaussKernel 1 + kernel_at gaussKernel 2
            + kernel_at gaussKernel 3 + kernel_at gaussKernel 4 + kernel_at gaussKernel 5
            + kernel_at gaussKernel 6 + kernel_at gaussKernel 7 + kernel_at gaussKernel 8)
      with 16.
    rewrite inject_Z_mult. field.
  - f_equal.
    change (kernel_at sobelX 0 + kernel_at sobelX 1 + kernel_at sobelX 2
            + kernel_at sobelX 3 + kernel_at sobelX 4 + kernel_at sobelX 5
            + kernel_at sobelX 6 + kernel_at sobelX 7 + kernel_at sobelX 8) with 0.
    change (kernel_at sobelY 0 + kernel_at sobelY 1 + kernel_at sobelY 2
            + kernel_at sobelY 3 + kernel_at sobelY 4 + kernel_at sobelY 5
            + kernel_at sobelY 6 + kernel_at sobelY 7 + kernel_at sobelY 8) with 0.
    rewrite Z.mul_0_r. reflexivity.
Qed.

(** Witness: the centre of a 3 by 3 image that holds 7 everywhere. *)
Lemma uniform_neighbourhood_witness :
  ta_get (applyGaussianBlur (ta_of_list (replicate 9 7)) 3 3) 4 = Some 7 /\
  ta_get (applySobelEdgeDetection (ta_of_list (replicate 9 7)) 3 3) 4 = Some 0.
Proof.
  apply (uniform_neighbourhood (ta_of_list (replicate 9 7)) 3 3 1 1 7);
    [lia | lia | simpl; lia | lia |].
  intros kx ky Hkx Hky.
  assert (kx = -1 \/ kx = 0 \/ kx = 1) as [->|[->| ->]] by lia;
    assert (ky = -1 \/ ky = 0 \/ ky = 1) as [->|[->| ->]] by lia; reflexivity.
Defined.

(** ** Grayscale reducer *)

Lemma Qfloor_unique (q : Q) (n : Z) :
  (inject_Z n <= q)%Q -> (q < inject_Z n + 1)%Q -> Qfloor q = n.
Proof.
  intros Hlo Hhi.
  assert (n <= Qfloor q) by (rewrite <- (Qfloor_Z n); by apply Qfloor_resp_le).
  assert (Qfloor q < n + 1); [|lia].
  apply inject_Z_lt. rewrite inject_Z_plus.
  eapply Qle_lt_trans; [apply Qfloor_le|done].
Qed.

(** The byte the reducer stores for pixel [k]. *)
Definition grayValue (data : TypedArray) (k : Z) : Z :=
  toUint8Clamp match ta_get data (4 * k), ta_get data (4 * k + 1),
                     ta_get data (4 * k + 2) with
               | Some r, Some g, Some b => Num (luminance r g b)
               | _, _, _ => NaN
               end.

Lemma convertToGrayscale_get (data : TypedArray) (i : Z) :
  ta_length (convertToGrayscale data) = ta_length data / 4 /\
  ta_get (convertToGrayscale data) i
  = if (0 <=? i) && (i <? ta_length data / 4) then Some (grayValue data i) else None.
Proof.
  unfold convertToGrayscale.
  rewrite (row_fold_flat (fun k => 4 * k / 4) (grayValue data)).
  split; [apply writes_fold_length|].
  rewrite (writes_fold_get _ _ (grayValue data)).
  - destruct ((0 <=? i) && (i <? ta_length data / 4)) eqn:E; [|done].
    rewrite bool_decide_eq_true_2; [done|].
    apply andb_true_iff in E as [E1%Z.leb_le E2%Z.ltb_lt].
    apply list_elem_of_fmap. exists (4 * i / 4, grayValue data i).
    split; [simpl; by rewrite Z.mul_comm, Z.div_mul|].
    apply list_elem_of_fmap. exists i. split; [done|]. apply elem_of_range.
    assert (ta_length data / 4 <= (ta_length data + 3) / 4)
      by (apply Z.div_le_mono; lia). lia.
  - intros k v (k0 & [= -> ->] & _)%list_elem_of_fmap.
    by rewrite Z.mul_comm, Z.div_mul.
Qed.

Lemma luminance_gray_check :
  forallb (fun v => Qfloor (weightedSum v v v + 0.5) =? v) (range 0 256) = true.
Proof. vm_compute. reflexivity. Qed.

Lemma luminance_gray (v : Z) : 0 <= v <= 255 -> luminance v v v = inject_Z v.
Proof.
  intros Hv. unfold luminance. f_equal.
  pose proof luminance_gray_check as H. rewrite forallb_forall in H.
  apply Z.eqb_eq, (H v), list_elem_of_In, elem_of_range. lia.
Qed.

Lemma toUint8Clamp_luminance (r g b : Z) :
  toUint8Clamp (Num (luminance r g b))
  = Z.max 0 (Z.min 255 (Qfloor (weightedSum r g b + 0.5))).
Proof.
  unfold luminance. generalize (Qfloor (weightedSum r g b + 0.5)). intros n.
  cbn [toUint8Clamp]. by rewrite (roundHalfEven_int _ n).
Qed.

(** The luminance map has one byte per complete pixel of the buffer.
    For a complete pixel with channel bytes [r], [g], [b] the byte is
    the luminance the code computes in double precision, brought into
    0..255; a gray pixel keeps its value exactly, although none of the
    three weights is a binary fraction. *)
Theorem convertToGrayscale_pixels (data : TypedArray) (i r g b : Z) :
  0 <= i -> 4 * i + 3 < ta_length data ->
  ta_get data (4 * i) = Some r -> ta_get data (4 * i + 1) = Some g ->
  ta_get data (4 * i + 2) = Some b ->
  ta_length (convertToGrayscale data) = ta_length data / 4 /\
  exists v, ta_get (convertToGrayscale data) i = Some v /\
    v = Z.max 0 (Z.min 255 (Qfloor (weightedSum r g b + 0.5))) /\
    0 <= v <= 255 /\
    (0 <= r <= 255 -> r = g -> g = b -> v = r).
Proof.
  intros Hi Hlen Hr Hg Hb.
  destruct (convertToGrayscale_get data i) as [Hl ->]. split; [done|].
  replace ((0 <=? i) && (i <? ta_length data / 4)) with true.
  2:{ symmetry. apply andb_true_iff. split; [by apply Z.leb_le|].
      apply Z.ltb_lt.
      assert (i + 1 <= ta_length data / 4) by (apply Z.div_le_lower_bound; lia).
      lia. }
  unfold grayValue. rewrite Hr, Hg, Hb.
  eexists. split; [reflexivity|].
  split; [apply toUint8Clamp_luminance|].
  split; [rewrite toUint8Clamp_luminance; lia|].
  intros Hrb <- <-. rewrite (luminance_gray r) by done.
  cbn [toUint8Clamp]. rewrite (roundHalfEven_int _ r) by done. lia.
Qed.

(** Witness: a single orange pixel. *)
Lemma convertToGrayscale_pixels_witness :
  exists v, ta_get (convertToGrayscale (ta_of_list [255; 128; 0; 255])) 0 = Some v
            /\ 0 <= v <= 255.
Proof.
  destruct (convertToGrayscale_pixels (ta_of_list [255; 128; 0; 255]) 0 255 128 0)
    as (_ & v & Hv & _ & Hb & _);
    [lia | reflexivity | reflexivity | reflexivity | reflexivity |].
  exists v. split; [exact Hv | exact Hb].
Defined.

(** ** Images without edges *)

Lemma findContoursWith_weak trace (edgeData : TypedArray) (width height : Z) :
  (forall i v, ta_get edgeData i = Some v -> v <= 30) ->
  0 <= width * height < 2 ^ 32 ->
  findContoursWith trace edgeData width height = Ok [].
Proof.
  intros Hweak Hwh. unfold findContoursWith, valid_array_length.
  replace ((0 <=? width * height) && (width * height <? 2 ^ 32)) with true
    by (symmetry; apply andb_true_iff; split; [apply Z.leb_le|apply Z.ltb_lt]; lia).
  f_equal.
  match goal with |- (foldl ?f ?a ?l).1 = [] =>
    apply (foldl_invariant (fun st => st.1 = []) f l a)
  end; [done|].
  intros st y Hst. apply foldl_invariant; [done|].
  intros [contours visited] x Hc. simpl in Hc. subst contours.
  replace (edge_gt edgeData (y * width + x) threshold) with false; [done|].
  symmetry. unfold edge_gt.
  destruct (ta_get edgeData (y * width + x)) as [v|] eqn:E; [|done].
  apply Z.ltb_ge. unfold threshold. exact (Hweak _ v E).
Qed.

(** Where no edge value exceeds the threshold 30 there is nothing to
    trace: [findContours] returns no contour. *)
Theorem findContours_no_strong_edge (edgeData : TypedArray) (width height : Z) :
  (forall i v, ta_get edgeData i = Some v -> v <= 30) ->
  0 <= width * height < 2 ^ 32 ->
  findContours edgeData width height = Ok [].
Proof. apply findContoursWith_weak. Qed.

(** Witness: a blank 4 by 4 edge map. *)
Lemma findContours_no_strong_edge_witness : findContours (ta_new 16) 4 4 = Ok [].
Proof.
  apply (findContours_no_strong_edge (ta_new 16) 4 4); [|lia].
  intros i v. rewrite ta_get_new. destruct (_ && _); [|done]. intros [= <-]. lia.
Defined.

Lemma list_to_map_zip_iota (l : list Z) (a j : Z) :
  (list_to_map (zip (iota a (length l)) l) : Zmap Z) !! j
  = if a <=? j then l !! Z.to_nat (j - a) else None.
Proof.
  revert a. induction l as [|c l IH]; intros a; simpl.
  - rewrite lookup_empty. by destruct (a <=? j).
  - destruct (decide (a = j)) as [->|Hne].
    + rewrite lookup_insert_eq, Z.leb_refl, Z.sub_diag. done.
    + rewrite lookup_insert_ne, IH by done.
      destruct (a <=? j) eqn:E1, (a + 1 <=? j) eqn:E2; try done.
      * apply Z.leb_le in E1, E2.
        replace (Z.to_nat (j - a)) with (S (Z.to_nat (j - (a + 1)))) by lia. done.
      * apply Z.leb_le in E1. apply Z.leb_gt in E2. lia.
      * apply Z.leb_gt in E1. apply Z.leb_le in E2. lia.
Qed.

Lemma ta_get_of_list (l : list Z) (j : Z) (c : Z) :
  ta_get (ta_of_list l) j = Some c -> l !! Z.to_nat j = Some c.
Proof.
  unfold ta_get, ta_of_list. simpl.
  destruct ((0 <=? j) && (j <? Z.of_nat (length l))) eqn:E; [|done].
  apply andb_true_iff in E as [E1%Z.leb_le E2%Z.ltb_lt].
  rewrite list_to_map_zip_iota.
  replace (0 <=? j) with true by (symmetry; by apply Z.leb_le).
  rewrite Z.sub_0_r.
  destruct (l !! Z.to_nat j) as [c'|] eqn:El; simpl; [congruence|].
  apply lookup_ge_None in El. lia.
Qed.

(** An array that holds only zeros. *)
Definition all_zero (a : TypedArray) : Prop :=
  forall i v, ta_get a i = Some v -> v = 0.

Lemma convolve_zero (a : TypedArray) (width x y : Z) (kernel : list Z) :
  all_zero a ->
  convolve a width x y kernel = Some 0 \/ convolve a width x y kernel = None.
Proof.
  intros Hz. rewrite convolve_unfold.
  apply (foldl_invariant (fun sum => sum = Some 0 \/ sum = None)); [by left|].
  intros sum [kx ky] [->| ->]; [|by right].
  destruct (ta_get a ((y + ky) * width + (x + kx))) as [v|] eqn:E; [|by right].
  rewrite (Hz _ _ E). by left.
Qed.

Lemma blur_zero (a : TypedArray) (width height : Z) :
  all_zero a -> all_zero (applyGaussianBlur a width height).
Proof.
  intros Hz i v.
  destruct (applyGaussianBlur_get a width height i) as [_ ->].
  destruct (_ && _); [|done]. intros [= <-].
  destruct (interior _ _ _); [|done]. unfold blurValue.
  by destruct (convolve_zero a width (i mod width) (i / width) gaussKernel Hz) as [-> | ->].
Qed.

Lemma sobel_zero (a : TypedArray) (width height : Z) :
  all_zero a -> all_zero (applySobelEdgeDetection a width height).
Proof.
  intros Hz i v.
  destruct (applySobel_get a width height i) as [_ ->].
  destruct (_ && _); [|done]. intros [= <-].
  destruct (interior _ _ _); [|done]. unfold sobelValue.
  destruct (convolve_zero a width (i mod width) (i / width) sobelX Hz) as [-> | ->];
    [|done].
  by destruct (convolve_zero a width (i mod width) (i / width) sobelY Hz) as [-> | ->].
Qed.

(** A black image has no contour: if the red, green and blue bytes of
    the buffer are all 0 (whatever the alpha bytes), the grayscale
    reducer, the blur and the edge extractor each leave zeros only, and
    [findContours] on the resulting edge map returns the empty list,
    for every raster size that is a valid array length. *)
Theorem black_image_no_contours (pixels : list Z) (width height : Z) :
  (forall (k : nat) c, pixels !! k = Some c -> (k mod 4 <> 3)%nat -> c = 0) ->
  0 <= width * height < 2 ^ 32 ->
  let gray := convertToGrayscale (ta_of_list pixels) in
  let blurred := applyGaussianBlur gray width height in
  let edges := applySobelEdgeDetection blurred width height in
  all_zero gray /\ all_zero blurred /\ all_zero edges /\
  findContours edges width height = Ok [].
Proof.
  intros Hblack Hwh gray blurred edges.
  assert (all_zero gray) as Hgray.
  { intros i v. unfold gray.
    destruct (convertToGrayscale_get (ta_of_list pixels) i) as [_ ->].
    destruct ((0 <=? i) && _) eqn:E; [|done].
    apply andb_true_iff in E as [Hi%Z.leb_le _]. intros [= <-].
    unfold grayValue.
    destruct (ta_get _ (4 * i)) as [r|] eqn:Er; [|done].
    destruct (ta_get _ (4 * i + 1)) as [g|] eqn:Eg; [|done].
    destruct (ta_get _ (4 * i + 2)) as [b|] eqn:Eb; [|done].
    apply ta_get_of_list in Er, Eg, Eb.
    apply Hblack in Er, Eg, Eb.
    - subst r g b. rewrite (luminance_gray 0) by lia. reflexivity.
    - replace (Z.to_nat (4 * i + 2)) with (2 + Z.to_nat i * 4)%nat by lia.
      rewrite Nat.Div0.mod_add. done.
    - replace (Z.to_nat (4 * i + 1)) with (1 + Z.to_nat i * 4)%nat by lia.
      rewrite Nat.Div0.mod_add. done.
    - replace (Z.to_nat (4 * i)) with (0 + Z.to_nat i * 4)%nat by lia.
      rewrite Nat.Div0.mod_add. done. }
  pose proof (blur_zero _ width height Hgray) as Hblur.
  pose proof (sobel_zero _ width height Hblur) as Hedge.
  split_and!; try done.
  apply findContoursWith_weak; [|done].
  intros i v Hv. rewrite (Hedge i v Hv). lia.
Qed.

(** Witness: a black 3 by 3 image with opaque alpha. *)
Lemma black_image_no_contours_witness :
  findContours
    (applySobelEdgeDetection
       (applyGaussianBlur
          (convertToGrayscale (ta_of_list (mjoin (replicate 9 [0; 0; 0; 255])))) 3 3) 3 3)
    3 3 = Ok [].
Proof.
  apply (black_image_no_contours (mjoin (replicate 9 [0; 0; 0; 255])) 3 3); [|lia].
  intros k c Hk Hmod.
  assert (k < 36)%nat as Hlt by (apply lookup_lt_Some in Hk; exact Hk).
  do 36 (destruct k as [|k]; [simpl in Hk, Hmod; congruence|]). lia.
Defined.

(** ** The detector class: confidence score *)

(** The detector's confidence score lies between the number 0.3 and 1.
    It reaches the cut of 0.5 that the application applies exactly when
    one of the four properties earned its full bonus (the half bonus
    for a solidity in (0.6, 0.8] is not enough), and it is 1 exactly
    when the aspect ratio is in (1.2, 4) and, besides, two of the other
    three bonuses are earned in full. *)
Theorem cv_confidence_score (area aspectRatio solidity circularity : Q) :
  let c := OpenCVTongueDetector.calculateTongueConfidence
             area aspectRatio solidity circularity in
  let aspectOk := Qltb (fl 1.2) aspectRatio && Qltb aspectRatio 4 in
  let solid := Qltb (fl 0.8) solidity in
  let circOk := Qltb (fl 0.2) circularity && Qltb circularity (fl 0.7) in
  let areaOk := Qltb 500 area && Qltb area 70000 in
  (fl 0.3 <= c)%Q /\ (c <= 1)%Q /\
  Qle_bool 0.5 c = aspectOk || solid || circOk || areaOk /\
  Qeq_bool c 1 = aspectOk && ((circOk && areaOk) || (solid && (circOk || areaOk))).
Proof.
  unfold OpenCVTongueDetector.calculateTongueConfidence.
  destruct (Qltb (fl 1.2) aspectRatio), (Qltb aspectRatio 4), (Qltb (fl 0.8) solidity),
    (Qltb (fl 0.6) solidity), (Qltb (fl 0.2) circularity), (Qltb circularity (fl 0.7)),
    (Qltb 500 area), (Qltb area 70000);
    vm_compute; split_and!; (reflexivity || discriminate).
Qed.

(** The order of the additions shows in the ranking.  A shape that
    earns the half solidity bonus and the circularity bonus (0.3 + 0.1
    + 0.2) scores above a shape that earns the aspect-ratio bonus alone
    (0.3 + 0.3), although both sums are 0.6 on paper: the first is
    rounded up on the way. *)
Theorem cv_confidence_rounding
    (area1 aspectRatio1 solidity1 circularity1 area2 aspectRatio2 solidity2
       circularity2 : Q) :
  Qltb (fl 1.2) aspectRatio1 && Qltb aspectRatio1 4 = false ->
  Qltb (fl 0.8) solidity1 = false -> Qltb (fl 0.6) solidity1 = true ->
  Qltb (fl 0.2) circularity1 && Qltb circularity1 (fl 0.7) = true ->
  Qltb 500 area1 && Qltb area1 70000 = false ->
  Qltb (fl 1.2) aspectRatio2 && Qltb aspectRatio2 4 = true ->
  Qltb (fl 0.6) solidity2 = false ->
  Qltb (fl 0.2) circularity2 && Qltb circularity2 (fl 0.7) = false ->
  Qltb 500 area2 && Qltb area2 70000 = false ->
  (OpenCVTongueDetector.calculateTongueConfidence area2 aspectRatio2 solidity2 circularity2
   < OpenCVTongueDetector.calculateTongueConfidence area1 aspectRatio1 solidity1
       circularity1)%Q.
Proof.
  intros Ha1 Hs1 Hh1 Hc1 Hr1 Ha2 Hh2 Hc2 Hr2.
  unfold OpenCVTongueDetector.calculateTongueConfidence.
  rewrite Ha1, Hs1, Hh1, Hc1, Hr1, Ha2, Hh2, Hc2, Hr2.
  destruct (Qltb (fl 0.8) solidity2) eqn:Hs2.
  - exfalso. apply Qltb_lt in Hs2. apply Qltb_ge in Hh2.
    assert (fl 0.6 < fl 0.8)%Q as Hlt by (by vm_compute).
    apply (Qlt_irrefl (fl 0.8)).
    eapply Qlt_le_trans; [exact Hs2|]. eapply Qle_trans; [exact Hh2|].
    by apply Qlt_le_weak.
  - by vm_compute.
Qed.

(** Witness: a flat, solid-enough, fairly round shape against an
    elongated one. *)
Lemma cv_confidence_rounding_witness :
  (OpenCVTongueDetector.calculateTongueConfidence 300 2 0.5 0.1
   < OpenCVTongueDetector.calculateTongueConfidence 300 1 0.7 0.5)%Q.
Proof.
  apply (cv_confidence_rounding 300 1 0.7 0.5 300 2 0.5 0.1); by vm_compute.
Defined.

(** ** The detector class: contour filter *)

(** What the filter lets through, with the parameters of the
    constructor.  Every shape it returns belongs to a contour that was
    measured without error, and for that contour: the area is between
    100 and 50000; the bounding box has a positive width and height (a
    side of 0 makes the aspect ratio count as 0); the hull area is
    positive; the perimeter is not 0.  The shape carries the box of the
    contour, the aspect ratio, solidity, circularity and compactness as
    the code computes them, all within their bounds, a confidence
    between the number 0.3 and 1, and the centre of the box as its
    centroid. *)
Theorem filterTongueContours_accepted
    (contours : list OpenCVTongueDetector.ContourOutcome)
    (shapes : list CvShape) (s : CvShape) :
  OpenCVTongueDetector.filterTongueContours OpenCVTongueDetector.params contours
  = Ok shapes ->
  s ∈ shapes ->
  exists o c,
    o ∈ contours /\ OpenCVTongueDetector.co_measure o = Ok c /\
    let area := OpenCVTongueDetector.c_area c in
    let perimeter := OpenCVTongueDetector.c_perimeter c in
    let hullArea := OpenCVTongueDetector.c_hullArea c in
    let rect := OpenCVTongueDetector.toBBox (OpenCVTongueDetector.c_boundingRect c) in
    let props := cv_properties s in
    cv_boundingRect s = rect /\
    cv_area props = area /\ (100 <= area)%Q /\ (area <= 50000)%Q /\
    0 < bwidth rect /\ 0 < bheight rect /\
    cv_aspectRatio props
    = fdiv (inject_Z (Z.max (bwidth rect) (bheight rect)))
           (inject_Z (Z.min (bwidth rect) (bheight rect))) /\
    (fl 0.2 <= cv_aspectRatio props)%Q /\ (cv_aspectRatio props <= 7)%Q /\
    (0 < hullArea)%Q /\
    cv_solidity props = fdiv area hullArea /\ (fl 0.4 <= cv_solidity props)%Q /\
    ~ (perimeter == 0)%Q /\
    cv_circularity props
    = fdiv (fmul (fmul 4 Math_PI) area) (fmul perimeter perimeter) /\
    (fl 0.1 <= cv_circularity props)%Q /\ (cv_circularity props <= 1)%Q /\
    (fl 0.3 < cv_compactness props)%Q /\
    (fl 0.3 <= cv_confidence s)%Q /\ (cv_confidence s <= 1)%Q /\
    cv_centroid s = (fadd (inject_Z (bx rect)) (fdiv (inject_Z (bwidth rect)) 2),
                     fadd (inject_Z (by_ rect)) (fdiv (inject_Z (bheight rect)) 2)).
Proof.
  intros Hf Hs. apply filterTongueContours_Ok in Hf as [_ ->].
  apply list_elem_of_omap in Hs as (o & Ho & Hturn).
  unfold turnShape in Hturn.
  destruct (OpenCVTongueDetector.co_measure o) as [c|] eqn:Hm; [|done].
  exists o, c. split; [done|]. split; [done|].
  unfold OpenCVTongueDetector.tongueCandidate in Hturn.
  destruct (Qltb (OpenCVTongueDetector.c_area c) _) eqn:Hmin; [done|].
  remember (OpenCVTongueDetector.toBBox (OpenCVTongueDetector.c_boundingRect c))
    as rect eqn:Hrect.
  assert (0 <= bwidth rect /\ 0 <= bheight rect) as [Hw0 Hh0]
    by (rewrite Hrect; unfold OpenCVTongueDetector.toBBox; simpl; lia).
  clear Hrect.
  match type of Hturn with (if ?b then _ else _) = _ =>
    destruct b eqn:Hok; [|done] end.
  injection Hturn as <-. cbn zeta.
  cbn [cv_confidence cv_centroid cv_boundingRect cv_properties cv_area cv_aspectRatio
       cv_solidity cv_circularity cv_compactness].
  destruct ((bwidth rect =? 0) || (bheight rect =? 0)) eqn:Ezero.
  { exfalso. revert Hok.
    replace (Qle_bool (OpenCVTongueDetector.minAspectRatio OpenCVTongueDetector.params) 0)
      with false by (by vm_compute).
    by rewrite !andb_false_r. }
  apply orb_false_iff in Ezero as [Hw%Z.eqb_neq Hh%Z.eqb_neq].
  destruct (Qltb 0 (OpenCVTongueDetector.c_hullArea c)) eqn:Hhull.
  2:{ exfalso. revert Hok.
      replace (Qle_bool (OpenCVTongueDetector.minSolidity OpenCVTongueDetector.params) 0)
        with false by (by vm_compute).
      by rewrite !andb_false_r. }
  apply Qltb_lt in Hhull.
  destruct (Qeq_bool (OpenCVTongueDetector.c_perimeter c) 0) eqn:Hper.
  { exfalso. revert Hok.
    replace (Qle_bool (OpenCVTongueDetector.minCircularity OpenCVTongueDetector.params) 0)
      with false by (by vm_compute).
    by rewrite !andb_false_r. }
  destruct (Qeq_bool (fmul (inject_Z (bwidth rect)) (inject_Z (bheight rect))) 0) eqn:Ewh.
  { exfalso. revert Hok.
    replace (Qltb (fl 0.3) 0) with false by (by vm_compute).
    by rewrite !andb_false_r. }
  repeat match goal with
         | H : _ && _ = true |- _ => apply andb_true_iff in H as [? ?]
         end.
  repeat match goal with
         | H : Qle_bool _ _ = true |- _ => apply Qle_bool_iff in H
         | H : Qltb _ _ = true |- _ => apply Qltb_lt in H
         end.
  split_and!; try done; try lia; try apply cv_confidence_bounds.
  intros E. apply Qeq_bool_iff in E. congruence.
Qed.

(** Witness: the sample contour passes the filter. *)
Lemma filterTongueContours_accepted_witness :
  exists s o c,
    sampleShapes = [s] /\
    o ∈ [sampleOutcome] /\ OpenCVTongueDetector.co_measure o = Ok c /\
    cv_boundingRect s
    = OpenCVTongueDetector.toBBox (OpenCVTongueDetector.c_boundingRect c) /\
    (fl 0.3 <= cv_confidence s)%Q.
Proof.
  destruct sampleShapes as [|s [|s' l]] eqn:Es; try discriminate Es.
  exists s.
  assert (OpenCVTongueDetector.filterTongueContours OpenCVTongueDetector.params
            [sampleOutcome] = Ok [s]) as Hf.
  { apply filterTongueContours_Ok. split; [by repeat constructor|].
    injection Es as <-. reflexivity. }
  destruct (filterTongueContours_accepted [sampleOutcome] [s] s Hf) as (o & c & Ho & Hm & H);
    [by left|].
  cbn zeta in H.
  exists o, c. split; [reflexivity|]. split; [exact Ho|]. split; [exact Hm|].
  split; [exact (proj1 H)|].
  exact (proj1 (proj2 (proj2 (proj2 (proj2 (proj2 (proj2 (proj2 (proj2 (proj2 (proj2
    (proj2 (proj2 (proj2 (proj2 (proj2 (proj2 (proj2 H)))))))))))))))))).
Defined.
(** ** The detector class seen from the application *)

(** Errors of the library stay inside the detector.  Its call throws
    only when the detector is ready and the release of the library's
    objects (the outer [finally] block) throws; only then does the
    entry point of the application return the fallback arrangement.
    When the detector is not ready, when one of the library's
    processing steps throws, or when the contour filter is left by an
    error, the detector returns the empty list, the entry point returns
    the empty list, and the user is told that no tongues were
    detected. *)
Theorem detector_errors_contained
    (canvas : Image -> result ImageData)
    (cvContours : ImageData -> result (list OpenCVTongueDetector.ContourOutcome))
    (cvRelease : ImageData -> option exn) (isReady : bool)
    (img : Image) (imageData : ImageData) (expectedCount : Z) :
  canvas img = Ok imageData ->
  let detector := OpenCVTongueDetector.detectTongueWithOpenCV cvContours cvRelease isReady in
  (forall e, detector imageData (img_width img) (img_height img) = Throw e <->
             isReady = true /\ cvRelease imageData = Some e) /\
  (forall e, isReady = true -> cvRelease imageData = Some e ->
     detectDrumTongues canvas (Some detector) img expectedCount
     = Ok (Fallback <$> createFallbackTongueDetection (img_width img) (img_height img)
                                                    expectedCount)) /\
  (isReady = false \/ cvRelease imageData = None ->
     exists shapes,
       detector imageData (img_width img) (img_height img) = Ok shapes /\
       detectDrumTongues canvas (Some detector) img expectedCount
       = Ok (Detected <$> convertOpenCVResultsToTongueShapes shapes expectedCount)) /\
  (isReady = false \/
   (cvRelease imageData = None /\
    ((exists e, cvContours imageData = Throw e) \/
     (exists contours e,
        cvContours imageData = Ok contours /\
        OpenCVTongueDetector.filterTongueContours OpenCVTongueDetector.params contours
        = Throw e))) ->
   detector imageData (img_width img) (img_height img) = Ok [] /\
   detectDrumTongues canvas (Some detector) img expectedCount = Ok [] /\
   forall photo,
     runInteractiveTongueDetection canvas (Some detector) (Some img) (Some photo)
                                   expectedCount = AlertNoTongues).
Proof.
  intros Hcanvas detector.
  assert (forall shapes,
             detector imageData (img_width img) (img_height img) = Ok shapes ->
             detectDrumTongues canvas (Some detector) img expectedCount
             = Ok (Detected <$> convertOpenCVResultsToTongueShapes shapes expectedCount))
    as Hok.
  { intros shapes Hd. unfold detectDrumTongues. by rewrite Hcanvas, Hd. }
  split_and!.
  - intros e. unfold detector, OpenCVTongueDetector.detectTongueWithOpenCV.
    destruct isReady; simpl; [|split; [done|by intros [? _]]].
    destruct (cvRelease imageData) as [e'|].
    + split; [intros [= ->]; by split|intros [_ [= ->]]; done].
    + split; [|by intros [_ ?]].
      destruct (cvContours imageData) as [cs|]; [|done].
      by destruct (OpenCVTongueDetector.filterTongueContours _ cs).
  - intros e -> Hrel. unfold detectDrumTongues. rewrite Hcanvas.
    unfold detector, OpenCVTongueDetector.detectTongueWithOpenCV. simpl.
    by rewrite Hrel.
  - intros Hcase.
    assert (exists shapes, detector imageData (img_width img) (img_height img) = Ok shapes)
      as [shapes Hd].
    { unfold detector, OpenCVTongueDetector.detectTongueWithOpenCV.
      destruct isReady; simpl; [|by eexists].
      destruct Hcase as [|Hrel]; [done|]. rewrite Hrel.
      destruct (cvContours imageData) as [cs|]; [|by eexists].
      destruct (OpenCVTongueDetector.filterTongueContours _ cs); by eexists. }
    exists shapes. split; [done|by apply Hok].
  - intros Hcase.
    assert (detector imageData (img_width img) (img_height img) = Ok []) as Hd.
    { unfold detector, OpenCVTongueDetector.detectTongueWithOpenCV.
      destruct Hcase as [->|[Hrel Herr]]; [done|].
      destruct isReady; simpl; [|done]. rewrite Hrel.
      destruct Herr as [[e ->]|(cs & e & -> & ->)]; done. }
    pose proof (Hok [] Hd) as Hres. rewrite convert_nil in Hres.
    split_and!; try done.
    intros photo. unfold runInteractiveTongueDetection. by rewrite Hres.
Qed.

(** Witness: the conversion of the image to a matrix throws. *)
Lemma detector_errors_contained_witness :
  runInteractiveTongueDetection readCanvas
    (Some (OpenCVTongueDetector.detectTongueWithOpenCV
             (fun _ => Throw (ExternalError "matFromImageData")) (fun _ => None) true))
    (Some (mkImage 1 1 [0; 0; 0; 255])) (Some "photo"%string) 15
  = AlertNoTongues.
Proof.
  destruct (detector_errors_contained readCanvas
              (fun _ => Throw (ExternalError "matFromImageData")) (fun _ => None) true
              (mkImage 1 1 [0; 0; 0; 255])
              {| id_data := ta_of_list [0; 0; 0; 255]; id_width := 1; id_height := 1 |}
              15 eq_refl) as (_ & _ & _ & H).
  apply H. right. split; [done|]. left. by eexists.
Defined.

(** ** What the user gets to see *)

Lemma overlays_throw_stays (tongues : list Shape) (e : exn) :
  foldl (fun acc tongue =>
           match acc with
           | Throw e => Throw e
           | Ok overlays =>
               match tongue with
               | Detected _ =>
                   Ok (overlays ++ [{| el_selected := false; el_number := None |}])
               | Fallback _ => Throw TypeError
               end
           end) (Throw e) tongues = Throw e.
Proof. induction tongues as [|t l IH]; [done|]. simpl. exact IH. Qed.

Lemma overlays_detected (shapes : list CvShape) (overlays : list OverlayEl) :
  foldl (fun acc tongue =>
           match acc with
           | Throw e => Throw e
           | Ok overlays =>
               match tongue with
               | Detected _ =>
                   Ok (overlays ++ [{| el_selected := false; el_number := None |}])
               | Fallback _ => Throw TypeError
               end
           end) (Ok overlays) (Detected <$> shapes)
  = Ok (overlays ++ replicate (length shapes) {| el_selected := false; el_number := None |}).
Proof.
  revert overlays. induction shapes as [|s l IH]; intros overlays; simpl.
  - by rewrite app_nil_r.
  - rewrite IH, <- app_assoc. done.
Qed.

(** The fallback arrangement is never shown.  When the detector throws
    and at least one tongue is expected, the entry point returns
    fallback shapes and [runInteractiveTongueDetection] hands them to
    the overlay construction; there the first shape has no
    [boundingRect], the read throws, and the user is told that the
    detection failed (or, without the background element, gets no
    overlay at all).  Detected shapes each get an unmarked overlay: the
    state the selection sequencer starts from. *)
Theorem fallback_never_displayed
    (canvas : Image -> result ImageData) (detector : Detector)
    (img : Image) (imageData : ImageData) (photo : string) (expectedCount : Z) :
  canvas img = Ok imageData ->
  let outcome := runInteractiveTongueDetection canvas (Some detector) (Some img)
                   (Some photo) expectedCount in
  (forall e, detector imageData (img_width img) (img_height img) = Throw e ->
     1 <= expectedCount ->
     outcome = CreateOverlays
                 (Fallback <$> createFallbackTongueDetection (img_width img)
                                 (img_height img) expectedCount) /\
     display true outcome = Alert (Some TypeError) /\
     display false outcome = Overlays []) /\
  (forall results, detector imageData (img_width img) (img_height img) = Ok results ->
     convertOpenCVResultsToTongueShapes results expectedCount <> [] ->
     display true outcome
     = Overlays (detectionOverlays
                   (freshSelection
                      (length (convertOpenCVResultsToTongueShapes results expectedCount))))).
Proof.
  intros Hcanvas outcome. split.
  - intros e He Hn.
    assert (outcome = CreateOverlays
                        (Fallback <$> createFallbackTongueDetection (img_width img)
                                        (img_height img) expectedCount)) as ->.
    { unfold outcome, runInteractiveTongueDetection, detectDrumTongues.
      rewrite Hcanvas, He, length_fmap, createFallback_length.
      replace (0 <? Z.of_nat (Z.to_nat expectedCount)) with true; [done|].
      symmetry. apply Z.ltb_lt. lia. }
    split; [done|]. split; [|done].
    unfold display, createInteractiveTongueOverlays.
    destruct (createFallbackTongueDetection (img_width img) (img_height img) expectedCount)
      as [|t l] eqn:E.
    + apply (f_equal length) in E. rewrite createFallback_length in E. simpl in E. lia.
    + simpl. by rewrite overlays_throw_stays.
  - intros results Hres Hne.
    assert (outcome = CreateOverlays
                        (Detected <$> convertOpenCVResultsToTongueShapes results
                                        expectedCount)) as ->.
    { unfold outcome, runInteractiveTongueDetection, detectDrumTongues.
      rewrite Hcanvas, Hres, length_fmap.
      destruct (convertOpenCVResultsToTongueShapes results expectedCount); [done|].
      done. }
    unfold display, createInteractiveTongueOverlays. by rewrite overlays_detected.
Qed.

(** Witness: a detector that throws, on a 1 by 1 image. *)
Lemma fallback_never_displayed_witness :
  display true
    (runInteractiveTongueDetection readCanvas
       (Some (fun _ _ _ => Throw (ExternalError "cv")))
       (Some (mkImage 1 1 [0; 0; 0; 255])) (Some "photo"%string) 15)
  = Alert (Some TypeError).
Proof.
  destruct (fallback_never_displayed readCanvas (fun _ _ _ => Throw (ExternalError "cv"))
              (mkImage 1 1 [0; 0; 0; 255])
              {| id_data := ta_of_list [0; 0; 0; 255]; id_width := 1; id_height := 1 |}
              "photo"%string 15 eq_refl) as [H _].
  destruct (H (ExternalError "cv") eq_refl) as (_ & Hd & _); [lia|]. exact Hd.
Defined.

(** ** The drum configuration: note names *)

Lemma entry_elem {A} (entries : list (string * A)) (k : string) (v : A) :
  DrumConfigManager.entry entries k = Some v -> v ∈ entries.*2.
Proof.
  induction entries as [|[name w] l IH]; [done|].
  cbn [DrumConfigManager.entry]. destruct (String.eqb name k).
  - intros [= <-]. by left.
  - intros H. right. by apply IH.
Qed.

Lemma scale_pattern_shape (scaleType : string) (pattern : list Z) :
  DrumConfigManager.entry DrumConfigManager.SCALE_PATTERNS scaleType = Some pattern ->
  pattern <> [] /\ Forall (fun x => 0 <= x < 12) pattern /\ StronglySorted Z.lt pattern.
Proof.
  intros H%entry_elem. revert pattern H. apply Forall_forall.
  repeat constructor; try done; lia.
Qed.

Lemma root_semitone_range (key : string) (rootSemitone : Z) :
  DrumConfigManager.entry DrumConfigManager.NOTE_TO_SEMITONE key = Some rootSemitone ->
  0 <= rootSemitone < 12.
Proof.
  intros H%entry_elem. revert rootSemitone H. apply Forall_forall.
  simpl. repeat (constructor; [lia|]). constructor.
Qed.

(** The position of a note name among the twelve names. *)
Definition semitoneOf (noteName : string) : Z :=
  default 0 (DrumConfigManager.entry DrumConfigManager.NOTE_TO_SEMITONE noteName).

Lemma note_name_semitone (k : Z) :
  0 <= k < 12 ->
  semitoneOf (nth (Z.to_nat k) DrumConfigManager.noteNames "undefined"%string) = k /\
  nth (Z.to_nat k) DrumConfigManager.noteNames "undefined"%string
    ∈ DrumConfigManager.noteNames.
Proof.
  intros Hk.
  assert (k = 0 \/ k = 1 \/ k = 2 \/ k = 3 \/ k = 4 \/ k = 5 \/ k = 6 \/ k = 7
          \/ k = 8 \/ k = 9 \/ k = 10 \/ k = 11) as Hcases by lia.
  repeat (destruct Hcases as [->|Hcases];
          [split; [reflexivity|unfold DrumConfigManager.noteNames; simpl;
                               repeat ((by left) || right)]|]).
  subst k. split; [reflexivity|].
  unfold DrumConfigManager.noteNames; simpl; repeat ((by left) || right).
Qed.

Lemma at_index_elem (pattern : list Z) (i : Z) :
  0 <= i < Z.of_nat (length pattern) ->
  DrumConfigManager.at_index pattern i ∈ pattern.
Proof.
  intros Hi. unfold DrumConfigManager.at_index.
  apply list_elem_of_In, nth_In. lia.
Qed.

Lemma at_index_sorted (pattern : list Z) (i j : Z) :
  StronglySorted Z.lt pattern ->
  0 <= i < j -> j < Z.of_nat (length pattern) ->
  DrumConfigManager.at_index pattern i < DrumConfigManager.at_index pattern j.
Proof.
  unfold DrumConfigManager.at_index.
  intros Hs. revert i j. induction Hs as [|x l Hs IH Hx]; intros i j Hij Hj.
  - simpl in Hj. lia.
  - destruct (Z.to_nat j) as [|nj] eqn:Ej; [lia|].
    assert (nth nj l 0 ∈ l) as Hin.
    { apply list_elem_of_In, nth_In. simpl in Hj. lia. }
    destruct (Z.to_nat i) as [|ni] eqn:Ei; simpl.
    + rewrite Forall_forall in Hx. by apply Hx.
    + specialize (IH (Z.of_nat ni) (Z.of_nat nj)).
      rewrite !Nat2Z.id in IH. apply IH; [lia|]. simpl in Hj. lia.
Qed.

(** The semitones of a tongue above the root, as the getter computes
    them. *)
Definition tongueSemitone (pattern : list Z) (tongueNumber : Z) : Z :=
  DrumConfigManager.at_index pattern
    (Z.rem (tongueNumber - 1) (Z.of_nat (length pattern)))
  + (tongueNumber - 1) / Z.of_nat (length pattern) * 12.

Lemma tongueSemitone_rises (pattern : list Z) (m n : Z) :
  pattern <> [] -> Forall (fun x => 0 <= x < 12) pattern -> StronglySorted Z.lt pattern ->
  1 <= m < n ->
  tongueSemitone pattern m < tongueSemitone pattern n.
Proof.
  intros Hne Hrange Hs Hmn. unfold tongueSemitone.
  set (L := Z.of_nat (length pattern)).
  assert (0 < L) as HL by (subst L; destruct pattern; [done|simpl; lia]).
  rewrite !Z.rem_mod_nonneg by lia.
  pose proof (Z.mod_pos_bound (m - 1) L HL) as Hrm.
  pose proof (Z.mod_pos_bound (n - 1) L HL) as Hrn.
  pose proof (Z.div_mod (m - 1) L ltac:(lia)) as Em.
  pose proof (Z.div_mod (n - 1) L ltac:(lia)) as En.
  rewrite Forall_forall in Hrange.
  pose proof (Hrange _ (at_index_elem pattern _ Hrm)) as Bm.
  pose proof (Hrange _ (at_index_elem pattern _ Hrn)) as Bn.
  assert ((m - 1) / L <= (n - 1) / L) as Hq by (apply Z.div_le_mono; lia).
  destruct (decide ((m - 1) / L = (n - 1) / L)) as [Heq|Hneq].
  - rewrite Heq in *.
    assert ((m - 1) mod L < (n - 1) mod L) as Hlt by lia.
    pose proof (at_index_sorted pattern _ _ Hs (conj (proj1 Hrm) Hlt) (proj2 Hrn)). lia.
  - lia.
Qed.

(** The pattern and the root the getter works with when neither name
    is inherited: the entry of the table, or the major scale and 0. *)
Definition patternOf (config : DrumConfigManager.Config) : list Z :=
  default [0; 2; 4; 5; 7; 9; 11]
    (DrumConfigManager.entry DrumConfigManager.SCALE_PATTERNS
       (DrumConfigManager.scaleType config)).

Definition rootOf (config : DrumConfigManager.Config) : Z :=
  default 0 (DrumConfigManager.entry DrumConfigManager.NOTE_TO_SEMITONE
               (DrumConfigManager.key config)).

Definition inheritedName (k : string) : bool :=
  existsb (String.eqb k) DrumConfigManager.inheritedNames.

Lemma patternOf_shape (config : DrumConfigManager.Config) :
  patternOf config <> [] /\ Forall (fun x => 0 <= x < 12) (patternOf config) /\
  StronglySorted Z.lt (patternOf config).
Proof.
  unfold patternOf.
  destruct (DrumConfigManager.entry _ _) as [p|] eqn:E.
  - by apply (scale_pattern_shape _ _ E).
  - simpl. split_and!; [done | repeat constructor; lia | repeat constructor; lia].
Qed.

Lemma rootOf_range (config : DrumConfigManager.Config) : 0 <= rootOf config < 12.
Proof.
  unfold rootOf. destruct (DrumConfigManager.entry _ _) as [r|] eqn:E; simpl; [|lia].
  by apply (root_semitone_range _ _ E).
Qed.

Lemma property_cases {A} (entries : list (string * A)) (k : string) :
  (exists v, DrumConfigManager.entry entries k = Some v /\
             DrumConfigManager.property entries k = DrumConfigManager.Own v) \/
  (DrumConfigManager.entry entries k = None /\ inheritedName k = true /\
   DrumConfigManager.property entries k = DrumConfigManager.Inherited) \/
  (DrumConfigManager.entry entries k = None /\ inheritedName k = false /\
   DrumConfigManager.property entries k = DrumConfigManager.Absent).
Proof.
  unfold DrumConfigManager.property, inheritedName.
  destruct (DrumConfigManager.entry entries k) as [v|]; [left; by exists v|].
  destruct (existsb _ _); [right; left|right; right]; by split_and!.
Qed.

Lemma note_from_semitones (pattern : list Z) (root rootOctave tongueNumber : Z) :
  pattern <> [] -> Forall (fun x => 0 <= x < 12) pattern -> 0 <= root < 12 ->
  1 <= tongueNumber ->
  let L := Z.of_nat (length pattern) in
  let t := DrumConfigManager.at_index pattern (Z.rem (tongueNumber - 1) L) in
  let noteName :=
    nth (Z.to_nat (Z.rem (root + t) 12)) DrumConfigManager.noteNames "undefined"%string in
  let noteOctave := rootOctave + (tongueNumber - 1) / L + (root + t) / 12 in
  noteName ∈ DrumConfigManager.noteNames /\
  12 * noteOctave + semitoneOf noteName
  = 12 * rootOctave + root + tongueSemitone pattern tongueNumber.
Proof.
  intros Hne Hrange Hr Hn L t noteName noteOctave.
  assert (0 < L) as HL by (subst L; destruct pattern; [done|simpl; lia]).
  assert (0 <= t < 12) as Ht.
  { rewrite Forall_forall in Hrange. apply Hrange, at_index_elem.
    rewrite Z.rem_mod_nonneg by lia. by apply Z.mod_pos_bound. }
  unfold noteName, noteOctave. rewrite (Z.rem_mod_nonneg (root + t) 12) by lia.
  destruct (note_name_semitone ((root + t) mod 12)) as [Hsem Helem];
    [by apply Z.mod_pos_bound|].
  split; [exact Helem|]. rewrite Hsem. unfold tongueSemitone. fold L. fold t.
  pose proof (Z.div_mod (root + t) 12 ltac:(lia)). lia.
Qed.

Lemma getTongueNoteName_pitch (config : DrumConfigManager.Config) (tongueNumber : Z) :
  1 <= tongueNumber <= DrumConfigManager.noteCount config ->
  inheritedName (DrumConfigManager.scaleType config) = false ->
  inheritedName (DrumConfigManager.key config) = false ->
  exists noteName noteOctave,
    DrumConfigManager.getTongueNoteName config tongueNumber
    = DrumConfigManager.Note noteName noteOctave /\
    noteName ∈ DrumConfigManager.noteNames /\
    12 * noteOctave + semitoneOf noteName
    = 12 * DrumConfigManager.rootOctave config + rootOf config
      + tongueSemitone (patternOf config) tongueNumber.
Proof.
  intros Hin Hscale Hkey.
  unfold DrumConfigManager.getTongueNoteName.
  replace ((tongueNumber <? 1) || (DrumConfigManager.noteCount config <? tongueNumber))
    with false
    by (symmetry; apply orb_false_iff; split; apply Z.ltb_ge; lia).
  pose proof (patternOf_shape config) as (Hne & Hrange & _).
  pose proof (rootOf_range config) as Hr.
  pose proof (note_from_semitones (patternOf config) (rootOf config)
                (DrumConfigManager.rootOctave config) tongueNumber Hne Hrange Hr
                ltac:(lia)) as Hnote.
  cbn zeta in Hnote. revert Hnote. unfold patternOf, rootOf.
  destruct (property_cases DrumConfigManager.SCALE_PATTERNS
              (DrumConfigManager.scaleType config))
    as [(p & Ep & ->)|[(Ep & Ei & ->)|(Ep & Ei & ->)]]; [|congruence|];
    destruct (property_cases DrumConfigManager.NOTE_TO_SEMITONE
                (DrumConfigManager.key config))
      as [(r & Er & ->)|[(Er & Ej & ->)|(Er & Ej & ->)]]; try congruence;
    rewrite Ep, Er; cbn [default from_option]; cbn iota;
    intros [Helem Hpitch]; eexists _, _; (split; [reflexivity|]); by split.
Qed.

Lemma inherited_not_entry {A} (entries : list (string * A)) (k : string) :
  forallb (fun name => negb (existsb (String.eqb name) DrumConfigManager.inheritedNames))
          entries.*1 = true ->
  inheritedName k = true -> DrumConfigManager.entry entries k = None.
Proof.
  intros Hall Hk. induction entries as [|[name v] l IH]; [done|].
  cbn [fmap list_fmap fst forallb] in Hall. apply andb_true_iff in Hall as [Hname Hl].
  cbn [DrumConfigManager.entry]. destruct (String.eqb name k) eqn:E; [|by apply IH].
  apply String.eqb_eq in E. subst k. unfold inheritedName in Hk.
  rewrite Hk in Hname. done.
Qed.

(** What the name getter answers.  Outside 1..noteCount it answers
    [Invalid].  Inside, a scale type or key that names an inherited
    property of the tables (such as [constructor]) gives the text
    [undefinedNaN]; any other gives one of the twelve note names and an
    octave, which denote the pitch of the root plus the semitones of
    the tongue, where a scale type that is not in the table counts as
    major and a key that is not in the table as C. *)
Theorem tongue_note_name_cases (config : DrumConfigManager.Config) (tongueNumber : Z) :
  (tongueNumber < 1 \/ DrumConfigManager.noteCount config < tongueNumber ->
   DrumConfigManager.getTongueNoteName config tongueNumber = DrumConfigManager.Invalid) /\
  (1 <= tongueNumber <= DrumConfigManager.noteCount config ->
   (inheritedName (DrumConfigManager.scaleType config) = true
    \/ inheritedName (DrumConfigManager.key config) = true ->
    DrumConfigManager.getTongueNoteName config tongueNumber
    = DrumConfigManager.UndefinedNaN) /\
   (inheritedName (DrumConfigManager.scaleType config) = false ->
    inheritedName (DrumConfigManager.key config) = false ->
    exists noteName noteOctave,
      DrumConfigManager.getTongueNoteName config tongueNumber
      = DrumConfigManager.Note noteName noteOctave /\
      noteName ∈ DrumConfigManager.noteNames /\
      12 * noteOctave + semitoneOf noteName
      = 12 * DrumConfigManager.rootOctave config + rootOf config
        + tongueSemitone (patternOf config) tongueNumber)).
Proof.
  split.
  - intros Hout. unfold DrumConfigManager.getTongueNoteName.
    replace ((tongueNumber <? 1) || (DrumConfigManager.noteCount config <? tongueNumber))
      with true; [done|].
    symmetry. apply orb_true_iff. destruct Hout; [left|right]; by apply Z.ltb_lt.
  - intros Hin. split; [|by apply getTongueNoteName_pitch].
    intros Hinh. unfold DrumConfigManager.getTongueNoteName.
    replace ((tongueNumber <? 1) || (DrumConfigManager.noteCount config <? tongueNumber))
      with false
      by (symmetry; apply orb_false_iff; split; apply Z.ltb_ge; lia).
    unfold DrumConfigManager.property.
    destruct Hinh as [Hi|Hi].
    + rewrite (inherited_not_entry DrumConfigManager.SCALE_PATTERNS _ eq_refl Hi).
      unfold inheritedName in Hi. by rewrite Hi.
    + rewrite (inherited_not_entry DrumConfigManager.NOTE_TO_SEMITONE _ eq_refl Hi).
      unfold inheritedName in Hi. rewrite Hi.
      destruct (DrumConfigManager.entry DrumConfigManager.SCALE_PATTERNS _);
        [reflexivity|].
      destruct (existsb (String.eqb (DrumConfigManager.scaleType config)) _);
        reflexivity.
Qed.

(** Higher tongues have higher notes: between two tongues of
    1..noteCount the pitch of the note name rises strictly with the
    tongue number, whatever the key and the scale type (inherited names
    apart). *)
Theorem tongue_note_names_rise (config : DrumConfigManager.Config) (m n : Z)
    (a b : string) (oa ob : Z) :
  inheritedName (DrumConfigManager.scaleType config) = false ->
  inheritedName (DrumConfigManager.key config) = false ->
  m < n ->
  DrumConfigManager.getTongueNoteName config m = DrumConfigManager.Note a oa ->
  DrumConfigManager.getTongueNoteName config n = DrumConfigManager.Note b ob ->
  12 * oa + semitoneOf a < 12 * ob + semitoneOf b.
Proof.
  intros Hscale Hkey Hmn Ha Hb.
  assert (1 <= m <= DrumConfigManager.noteCount config) as Hm.
  { unfold DrumConfigManager.getTongueNoteName in Ha.
    destruct ((m <? 1) || _) eqn:E; [done|].
    apply orb_false_iff in E as [?%Z.ltb_ge ?%Z.ltb_ge]. lia. }
  assert (1 <= n <= DrumConfigManager.noteCount config) as Hn.
  { unfold DrumConfigManager.getTongueNoteName in Hb.
    destruct ((n <? 1) || _) eqn:E; [done|].
    apply orb_false_iff in E as [?%Z.ltb_ge ?%Z.ltb_ge]. lia. }
  destruct (getTongueNoteName_pitch config m Hm Hscale Hkey) as (a' & oa' & Ea & _ & Hpa).
  destruct (getTongueNoteName_pitch config n Hn Hscale Hkey) as (b' & ob' & Eb & _ & Hpb).
  rewrite Ea in Ha. rewrite Eb in Hb. injection Ha as -> ->. injection Hb as -> ->.
  pose proof (patternOf_shape config) as (Hne & Hrange & Hs).
  pose proof (tongueSemitone_rises (patternOf config) m n Hne Hrange Hs ltac:(lia)). lia.
Qed.

(** Witness: tongues 7 and 8 of a D major drum rooted in octave 4 are
    C#5 and D5. *)
Lemma tongue_note_names_rise_witness :
  DrumConfigManager.getTongueNoteName (DrumConfigManager.mkConfig 15 "D" "major" 4) 7
  = DrumConfigManager.Note "C#" 5 /\
  DrumConfigManager.getTongueNoteName (DrumConfigManager.mkConfig 15 "D" "major" 4) 8
  = DrumConfigManager.Note "D" 5 /\
  12 * 5 + semitoneOf "C#" < 12 * 5 + semitoneOf "D".
Proof.
  split; [reflexivity|]. split; [reflexivity|].
  apply (tongue_note_names_rise (DrumConfigManager.mkConfig 15 "D" "major" 4) 7 8);
    [reflexivity | reflexivity | lia | reflexivity | reflexivity].
Defined.
